(** * DataProcessor of the CDISC rules engine: a shallow embedding

    The development follows [cdisc_rules_engine/utilities/data_processor.py].
    A pandas [DataFrame] is an ordered list of named columns; a column
    ([Series]) carries its storage type and its cells.  Rows are addressed
    by position (a [RangeIndex]).  Python exceptions are values of [exn],
    and a call that can raise returns a [result].

    Modelling conventions:
    - text is ASCII ([string]); a digit is one of the characters 0 to 9;
    - a float cell holds the rational its decimal numeral denotes, in
      lowest terms ([Qred]): rounding to binary64 is not modelled;
    - [float_of_string] reads plain decimal numerals (an optional sign,
      digits, at most one decimal point); exponent forms, [inf], [nan],
      underscores and surrounding blanks are outside the model. *)

From Stdlib Require Import ZArith QArith Qcanon Ascii String List Bool Lia.
From stdpp Require Import gmap strings list sorting pretty.

Local Open Scope Z_scope.

(** ** Exceptions and results *)

Inductive exn : Type :=
  | KeyError
  | ValueError
  | TypeError
  | AttributeError.

Inductive result (A : Type) : Type :=
  | Ok (a : A)
  | Raise (e : exn).
Arguments Ok {A} a.
Arguments Raise {A} e.

Definition bind {A B : Type} (m : result A) (k : A -> result B) : result B :=
  match m with
  | Ok a => k a
  | Raise e => Raise e
  end.

Notation "'do' x <- m ; k" := (bind m (fun x => k))
  (at level 10, x pattern, m at level 100, k at level 200).

Definition is_ok {A : Type} (m : result A) : bool :=
  match m with Ok _ => true | Raise _ => false end.

Fixpoint mapM {A B : Type} (f : A -> result B) (l : list A) : result (list B) :=
  match l with
  | [] => Ok []
  | x :: l' => do y <- f x; do ys <- mapM f l'; Ok (y :: ys)
  end.

(** ** Cells, columns and frames *)

Inductive cell : Type :=
  | CInt (z : Z)
  | CFloat (q : Q)
  | CStr (s : string)
  | CPair (a b : cell)
  | CNaN.

Inductive dtype : Type := int64 | float64 | object.

Record Series : Type := mkSeries { s_dtype : dtype; s_values : list cell }.

Definition DataFrame : Type := list (string * Series).

Definition columns (df : DataFrame) : list string := map fst df.

(** [df[col]]: the column, or [KeyError]. *)
Fixpoint get_column (df : DataFrame) (col : string) : result Series :=
  match df with
  | [] => Raise KeyError
  | (n, s) :: df' => if String.eqb n col then Ok s else get_column df' col
  end.

(** [col in df] *)
Definition has_column (df : DataFrame) (col : string) : bool :=
  is_ok (get_column df col).

(** [df[col] = s]: replaces the column in place when it exists, appends it
    as the last column otherwise. *)
Fixpoint set_column (df : DataFrame) (col : string) (s : Series) : DataFrame :=
  match df with
  | [] => [(col, s)]
  | (n, s0) :: df' =>
      if String.eqb n col then (n, s) :: df' else (n, s0) :: set_column df' col s
  end.

(** Boolean-mask selection [xs[mask]]. *)
Fixpoint select_mask {A : Type} (mask : list bool) (xs : list A) : list A :=
  match mask, xs with
  | b :: mask', x :: xs' =>
      if b then x :: select_mask mask' xs' else select_mask mask' xs'
  | _, _ => []
  end.

Definition series_mask (mask : list bool) (s : Series) : Series :=
  mkSeries (s_dtype s) (select_mask mask (s_values s)).

(** [df[mask]] *)
Definition frame_mask (mask : list bool) (df : DataFrame) : DataFrame :=
  map (fun '(n, s) => (n, series_mask mask s)) df.

(** ** Text helpers *)

Definition is_digit_char (c : ascii) : bool :=
  let n := nat_of_ascii c in (48 <=? n)%nat && (n <=? 57)%nat.

Fixpoint all_digit_chars (s : string) : bool :=
  match s with
  | EmptyString => true
  | String c s' => is_digit_char c && all_digit_chars s'
  end.

(** [str.isdigit()]: every character is a digit and there is at least one. *)
Definition isdigit (s : string) : bool :=
  match s with
  | EmptyString => false
  | String _ _ => all_digit_chars s
  end.

(** [s.replace(".", "")] *)
Fixpoint str_replace_dot (s : string) : string :=
  match s with
  | EmptyString => EmptyString
  | String c s' =>
      if Ascii.eqb c "."%char then str_replace_dot s'
      else String c (str_replace_dot s')
  end.

Definition digit_value (c : ascii) : Z := Z.of_nat (nat_of_ascii c) - 48.

(** The digits and the single optional point of a decimal numeral:
    [mant] collects the digits read so far, [frac] counts those after the
    point, [ndigits] counts all of them. *)
Fixpoint scan_decimal (s : string) (seen_dot : bool) (mant : Z) (frac : nat)
    (ndigits : nat) : option (Z * nat) :=
  match s with
  | EmptyString => if (ndigits =? 0)%nat then None else Some (mant, frac)
  | String c s' =>
      if is_digit_char c then
        scan_decimal s' seen_dot (10 * mant + digit_value c)
          (if seen_dot then S frac else frac) (S ndigits)
      else if Ascii.eqb c "."%char then
        if seen_dot then None else scan_decimal s' true mant frac ndigits
      else None
  end.

Definition decimal_value (sign : Z) (mf : Z * nat) : Q :=
  Qred (Qmake (sign * fst mf) (Pos.of_nat (Nat.pow 10 (snd mf)))).

(** [float(s)] on plain decimal numerals; [None] stands for [ValueError]. *)
Definition float_of_string (s : string) : option Q :=
  match s with
  | EmptyString => None
  | String c s' =>
      if Ascii.eqb c "-"%char then decimal_value (-1) <$> scan_decimal s' false 0 0 0
      else if Ascii.eqb c "+"%char then decimal_value 1 <$> scan_decimal s' false 0 0 0
      else decimal_value 1 <$> scan_decimal s false 0 0 0
  end.

(** ** Storage types *)

(** [pd.api.types.is_numeric_dtype] *)
Definition is_numeric_dtype (s : Series) : bool :=
  match s_dtype s with
  | object => false
  | _ => true
  end.

Definition cell_to_float (c : cell) : result cell :=
  match c with
  | CInt z => Ok (CFloat (Qred (inject_Z z)))
  | CFloat q => Ok (CFloat (Qred q))
  | CNaN => Ok CNaN
  | CStr s =>
      match float_of_string s with
      | Some q => Ok (CFloat q)
      | None => Raise ValueError
      end
  | CPair _ _ => Raise TypeError
  end.

(** [column.astype(float)] *)
Definition astype_float (s : Series) : result Series :=
  do vs <- mapM cell_to_float (s_values s); Ok (mkSeries float64 vs).

(** ** Numeric reconciliation *)

(** [column.str.replace(".", "").str.isdigit().all()] on a column that is
    not numeric; the string accessor yields a missing value on a cell that
    is not text and [all] skips missing values.

    def column_contains_numeric(column):
        if not pd.api.types.is_numeric_dtype(column):
            return column.str.replace(".", "").str.isdigit().all()
        return True *)
Definition str_isdigit_cell (c : cell) : bool :=
  match c with
  | CStr s => isdigit (str_replace_dot s)
  | _ => true
  end.

Definition column_contains_numeric (column : Series) : bool :=
  if negb (is_numeric_dtype column) then forallb str_isdigit_cell (s_values column)
  else true.

(** Both frames are mutated in place, so the call returns them with what it
    raised, if anything: the right frame's column is converted first and
    stays converted when converting the left one raises. *)
Definition cast_numeric_cols_to_same_data_type
    (left_dataset : DataFrame) (left_dataset_column : string)
    (right_dataset : DataFrame) (right_dataset_column : string)
    : DataFrame * DataFrame * result unit :=
  match get_column left_dataset left_dataset_column with
  | Raise e => (left_dataset, right_dataset, Raise e)
  | Ok lcol =>
      let left_is_numeric := column_contains_numeric lcol in
      match get_column right_dataset right_dataset_column with
      | Raise e => (left_dataset, right_dataset, Raise e)
      | Ok rcol =>
          let right_is_numeric := column_contains_numeric rcol in
          if left_is_numeric && right_is_numeric then
            match astype_float rcol with
            | Raise e => (left_dataset, right_dataset, Raise e)
            | Ok rcol' =>
                let right_dataset' :=
                  set_column right_dataset right_dataset_column rcol' in
                match astype_float lcol with
                | Raise e => (left_dataset, right_dataset', Raise e)
                | Ok lcol' =>
                    (set_column left_dataset left_dataset_column lcol',
                     right_dataset', Ok tt)
                end
            end
          else (left_dataset, right_dataset, Ok tt)
      end
  end.


(** ** The wording of the numeric rule *)

(** A digit is one of the ten characters from 0 to 9. *)
Definition digit_char (c : ascii) : Prop :=
  exists d : nat, (d < 10)%nat /\ c = ascii_of_nat (48 + d).

(** A text that consists solely of digits: at least one character, all
    of them digits. *)
Definition digits_only (s : string) : Prop :=
  s <> EmptyString /\ Forall digit_char (list_ascii_of_string s).

(** The text with its decimal points stripped. *)
Definition strip_points (s : string) : string :=
  string_of_list_ascii
    (List.filter (fun c => negb (Ascii.eqb c "."%char)) (list_ascii_of_string s)).

Definition count_points (s : string) : nat :=
  length (List.filter (fun c => Ascii.eqb c "."%char) (list_ascii_of_string s)).

(** A cell the float conversion accepts: a number, a missing value, or a
    text of digits with at most one decimal point. *)
Definition float_convertible (c : cell) : Prop :=
  match c with
  | CStr s => digits_only (strip_points s) /\ (count_points s <= 1)%nat
  | CPair _ _ => False
  | _ => True
  end.

(** The column [col] of the frame holds floats. *)
Definition holds_floats (df : DataFrame) (col : string) : Prop :=
  exists s, get_column df col = Ok s /\ s_dtype s = float64.

(** ** The wording of the study day *)

Definition microseconds_per_day : Z := 86400000000.

(** The study day of a timestamp against a reference, both in
    microseconds: the whole days from the reference to the timestamp when
    that number is negative, one more otherwise. *)
Definition study_day_of (target_micros reference_micros : Z) : Z :=
  let days := (target_micros - reference_micros) / microseconds_per_day in
  if days <? 0 then days else days + 1.

(** ** Comparing cells *)

(** Python's [==] on cell values: an integer equals the float of the same
    value, text equals text; missing values match each other, as they do
    in [isin] and in merge keys. *)
Fixpoint cell_eqb (a b : cell) : bool :=
  match a, b with
  | CInt x, CInt y => x =? y
  | CInt x, CFloat q => Qeq_bool (inject_Z x) q
  | CFloat q, CInt x => Qeq_bool q (inject_Z x)
  | CFloat p, CFloat q => Qeq_bool p q
  | CStr s, CStr t => String.eqb s t
  | CPair a1 a2, CPair b1 b2 => cell_eqb a1 b1 && cell_eqb a2 b2
  | CNaN, CNaN => true
  | _, _ => false
  end.

Fixpoint tuple_eqb (a b : list cell) : bool :=
  match a, b with
  | [], [] => true
  | x :: a', y :: b' => cell_eqb x y && tuple_eqb a' b'
  | _, _ => false
  end.

(** The order [sort_values] and the sorted group keys follow: numbers by
    value, then text in code-point order, then pairs, missing values last. *)
Definition cell_rank (c : cell) : Z :=
  match c with
  | CInt _ | CFloat _ => 0
  | CStr _ => 1
  | CPair _ _ => 2
  | CNaN => 3
  end.

Definition cell_number (c : cell) : Q :=
  match c with
  | CInt z => inject_Z z
  | CFloat q => q
  | _ => 0%Q
  end.

Fixpoint cell_leb (a b : cell) : bool :=
  match a, b with
  | CStr s, CStr t => String.leb s t
  | CPair a1 a2, CPair b1 b2 =>
      if cell_eqb a1 b1 then cell_leb a2 b2 else cell_leb a1 b1
  | CNaN, CNaN => true
  | _, _ =>
      if cell_rank a =? cell_rank b then Qle_bool (cell_number a) (cell_number b)
      else cell_rank a <? cell_rank b
  end.

Fixpoint tuple_leb (a b : list cell) : bool :=
  match a, b with
  | [], _ => true
  | _ :: _, [] => false
  | x :: a', y :: b' => if cell_eqb x y then tuple_leb a' b' else cell_leb x y
  end.

(** [Series.unique()]: distinct values in order of first appearance. *)
Fixpoint unique (l : list cell) : list cell :=
  match l with
  | [] => []
  | x :: l' => x :: List.filter (fun y => negb (cell_eqb x y)) (unique l')
  end.

(** ** Indexed frames: [set_index], [isin], [reset_index] *)

Record IndexedFrame : Type := mkIndexed {
  ix_levels : list (string * Series);
  ix_body : DataFrame
}.

Definition outside_keys (keys : list string) (c : string * Series) : bool :=
  negb (existsb (String.eqb (fst c)) keys).

(** [df.set_index(keys)]: the key columns become the levels of the index
    and leave the frame; no key or an unknown key raises. *)
Definition set_index (df : DataFrame) (keys : list string) : result IndexedFrame :=
  match keys with
  | [] => Raise ValueError
  | _ :: _ =>
      do levels <- mapM (fun k => do s <- get_column df k; Ok (k, s)) keys;
      Ok (mkIndexed levels (List.filter (outside_keys keys) df))
  end.

(** The entries of an index, one tuple per row. *)
Fixpoint index_tuples (levels : list (list cell)) : list (list cell) :=
  match levels with
  | [] => []
  | c :: cs =>
      match cs with
      | [] => map (fun x => [x]) c
      | _ :: _ => zip_with cons c (index_tuples cs)
      end
  end.

Definition index_values (f : IndexedFrame) : list (list cell) :=
  index_tuples (map (fun l => s_values (snd l)) (ix_levels f)).

(** [index.isin(other_index)]: entries are compared as tuples, so indexes
    of different depth share no entry. *)
Definition index_isin (f other : IndexedFrame) : list bool :=
  map (fun t => existsb (tuple_eqb t) (index_values other)) (index_values f).

(** [frame[condition]] on an indexed frame. *)
Definition indexed_mask (mask : list bool) (f : IndexedFrame) : IndexedFrame :=
  mkIndexed (map (fun l => (fst l, series_mask mask (snd l))) (ix_levels f))
            (frame_mask mask (ix_body f)).

(** [reset_index()]: the levels come back as the first columns, the last
    level inserted first; inserting a name the frame already has raises. *)
Fixpoint insert_levels (levels : list (string * Series)) (body : DataFrame)
    : result DataFrame :=
  match levels with
  | [] => Ok body
  | (n, s) :: rest =>
      do body' <- insert_levels rest body;
      if has_column body' n then Raise ValueError else Ok ((n, s) :: body')
  end.

Definition reset_index (f : IndexedFrame) : result DataFrame :=
  insert_levels (ix_levels f) (ix_body f).

(** def filter_dataset_by_match_keys_of_other_dataset(
            dataset, dataset_match_keys, other_dataset, other_dataset_match_keys):
        dataset_w_ind = dataset.set_index(dataset_match_keys)
        other_dataset_w_ind = other_dataset.set_index(other_dataset_match_keys)
        condition = dataset_w_ind.index.isin(other_dataset_w_ind.index)
        return dataset_w_ind[condition].reset_index() *)
Definition filter_dataset_by_match_keys_of_other_dataset
    (dataset : DataFrame) (dataset_match_keys : list string)
    (other_dataset : DataFrame) (other_dataset_match_keys : list string)
    : result DataFrame :=
  do dataset_w_ind <- set_index dataset dataset_match_keys;
  do other_dataset_w_ind <- set_index other_dataset other_dataset_match_keys;
  let condition := index_isin dataset_w_ind other_dataset_w_ind in
  reset_index (indexed_mask condition dataset_w_ind).

(** ** Sorting rows and concatenating frames *)

Definition key_le (a b : nat * list cell) : Prop := Is_true (tuple_leb (snd a) (snd b)).

Global Instance key_le_dec : RelDecision key_le.
Proof. intros a b. unfold key_le. apply _. Defined.

(** Row positions in ascending order of their keys; rows with equal keys
    keep their relative order. *)
Definition argsort (keys : list (list cell)) : list nat :=
  map fst (merge_sort key_le (imap (fun i k => (i, k)) keys)).

Definition take_cells (idx : list nat) (vs : list cell) : list cell :=
  omap (fun i => vs !! i) idx.

Definition frame_take (idx : list nat) (df : DataFrame) : DataFrame :=
  map (fun c => (fst c, mkSeries (s_dtype (snd c)) (take_cells idx (s_values (snd c))))) df.

Definition n_rows (df : DataFrame) : nat :=
  match df with
  | [] => 0
  | (_, s) :: _ => length (s_values s)
  end.

(** The key tuples of the rows of [df] over the columns [by]. *)
Definition row_keys (df : DataFrame) (by_cols : list Series) : list (list cell) :=
  match by_cols with
  | [] => replicate (n_rows df) []
  | _ :: _ => index_tuples (map s_values by_cols)
  end.

(** [df.sort_values(by)] *)
Definition sort_values (df : DataFrame) (by_names : list string) : result DataFrame :=
  do by_cols <- mapM (get_column df) by_names;
  Ok (frame_take (argsort (row_keys df by_cols)) df).

(** [pd.concat] of frames that all have the columns of [template]: the
    rows of the frames one after the other. *)
Definition append_rows (a b : DataFrame) : DataFrame :=
  zip_with (fun x y => (fst x, mkSeries (s_dtype (snd x))
                                 (s_values (snd x) ++ s_values (snd y)))) a b.

Definition concat_frames (template : DataFrame) (frames : list DataFrame) : DataFrame :=
  foldr append_rows (frame_mask [] template) frames.

(** ** Indirection resolution *)

(** [other_dataset.groupby(column_with_names)]: one group per distinct
    value of the name column that is not missing, in ascending order of the
    values, each with the rows of [other_dataset] that hold it. *)
Definition cell_le (a b : cell) : Prop := Is_true (cell_leb a b).

Global Instance cell_le_dec : RelDecision cell_le.
Proof. intros a b. unfold cell_le. apply _. Defined.

Definition group_keys (names : Series) : list cell :=
  merge_sort cell_le
    (List.filter (fun c => negb (cell_eqb c CNaN)) (unique (s_values names))).

Definition groupby (df : DataFrame) (col : string) : result (list (cell * DataFrame)) :=
  do names <- get_column df col;
  Ok (map (fun k => (k, frame_mask (map (cell_eqb k) (s_values names)) df))
          (group_keys names)).

Definition column_label (name : cell) : result string :=
  match name with
  | CStr s => Ok s
  | _ => Raise KeyError
  end.

(** The closure applied to each group.  It reads [dataset], the frame the
    enclosing function was called with, for every group.

    def filter_dataset_by_group_values(group):
        decimal_group_values = group[column_with_values].astype(float).astype(str)
        decimal_dataset_values = dataset[group.name].astype(float).astype(str)
        condition = decimal_dataset_values.isin(decimal_group_values)
        return dataset[condition]

    The text of a float determines the float, and [nan] reads the same for
    every missing value, so the membership test is on the floats. *)
Definition filter_dataset_by_group_values
    (dataset : DataFrame) (column_with_values : string)
    (group : cell * DataFrame) : result DataFrame :=
  do gcol <- get_column (snd group) column_with_values;
  do decimal_group_values <- astype_float gcol;
  do label <- column_label (fst group);
  do dcol <- get_column dataset label;
  do decimal_dataset_values <- astype_float dcol;
  let condition :=
    map (fun v => existsb (cell_eqb v) (s_values decimal_group_values))
        (s_values decimal_dataset_values) in
  Ok (frame_mask condition dataset).

(** def filter_dataset_by_nested_columns_of_other_dataset(
            dataset, other_dataset, column_with_names, column_with_values):
        grouped = other_dataset.groupby(column_with_names, group_keys=False)
        result = grouped.apply(lambda group: filter_dataset_by_group_values(group))
        return result.sort_values(list(grouped.groups.keys()))

    [apply] calls the closure on each group and concatenates what the
    calls return. *)
Definition filter_dataset_by_nested_columns_of_other_dataset
    (dataset other_dataset : DataFrame)
    (column_with_names column_with_values : string) : result DataFrame :=
  do grouped <- groupby other_dataset column_with_names;
  do frames <- mapM (filter_dataset_by_group_values dataset column_with_values) grouped;
  let result := concat_frames dataset frames in
  do by_names <- mapM (fun g => column_label (fst g)) grouped;
  sort_values result by_names.

(** ** Outer join on one key column *)

(** Positions of the rows of [vs] whose key equals [k]. *)
Definition positions_of (k : cell) (vs : list cell) : list nat :=
  omap (fun p => if cell_eqb k (snd p) then Some (fst p) else None)
       (imap (fun i v => (i, v)) vs).

(** The row pairs of a full outer join, key by key: every left row with
    every right row of the same key; a row without a partner is paired
    with nothing. *)
Definition pairs_of_key (lkeys rkeys : list cell) (k : cell)
    : list (option nat * option nat) :=
  match positions_of k lkeys, positions_of k rkeys with
  | [], rs => map (fun j => (None, Some j)) rs
  | ls, [] => map (fun i => (Some i, None)) ls
  | ls, rs => i ← ls; map (fun j => (Some i, Some j)) rs
  end.

(** [how="outer"]: the union of the keys of both frames, in ascending order. *)
Definition outer_join_indexers (lkeys rkeys : list cell)
    : list (option nat * option nat) :=
  k ← merge_sort cell_le (unique (lkeys ++ rkeys)); pairs_of_key lkeys rkeys k.

(** Taking rows by an indexer that has gaps: a gap reads as a missing
    value, and an integer column that gets one becomes a float column. *)
Definition take_opt (idx : list (option nat)) (s : Series) : Series :=
  let vs := map (fun o => default CNaN (o ≫= fun i => s_values s !! i)) idx in
  match s_dtype s with
  | int64 =>
      if forallb (fun o => match o with Some _ => true | None => false end) idx
      then mkSeries int64 vs
      else mkSeries float64
             (map (fun c => match c with CInt z => CFloat (Qred (inject_Z z)) | _ => c end) vs)
  | d => mkSeries d vs
  end.

(** The key column both frames name alike: the left value, or the right
    one on a row the left frame has no part in. *)
Definition coalesce_keys (indexers : list (option nat * option nat))
    (lkey rkey : Series) : Series :=
  mkSeries (s_dtype lkey)
    (map (fun p => match p with
                   | (Some i, _) => default CNaN (s_values lkey !! i)
                   | (None, Some j) => default CNaN (s_values rkey !! j)
                   | (None, None) => CNaN
                   end) indexers).

Definition keys_mergeable (lkey rkey : Series) : bool :=
  Bool.eqb (is_numeric_dtype lkey) (is_numeric_dtype rkey).

(** [pd.merge(left, right, left_on=[left_on], right_on=[right_on],
    how="outer", suffixes=("", suffix))].  A text key against a numeric
    key raises.  The columns of the left frame come first; a column of
    the right frame whose name the left frame has too gets the suffix. *)
Definition merge_outer (left right : DataFrame) (left_on right_on : string)
    (suffix : string) : result DataFrame :=
  do lkey <- get_column left left_on;
  do rkey <- get_column right right_on;
  if negb (keys_mergeable lkey rkey) then Raise ValueError else
  let indexers := outer_join_indexers (s_values lkey) (s_values rkey) in
  let same_name := String.eqb left_on right_on in
  let right_kept :=
    if same_name then List.filter (fun c => negb (String.eqb (fst c) right_on)) right
    else right in
  let lcols :=
    map (fun c =>
           if same_name && String.eqb (fst c) left_on
           then (fst c, coalesce_keys indexers lkey rkey)
           else (fst c, take_opt (map fst indexers) (snd c))) left in
  let rcols :=
    map (fun c =>
           (if has_column left (fst c) then (fst c ++ suffix)%string else fst c,
            take_opt (map snd indexers) (snd c))) right_kept in
  Ok (lcols ++ rcols).

(** def merge_datasets_on_relationship_columns(
            left_dataset, right_dataset, right_dataset_domain_name,
            column_with_names, column_with_values):
        left_ds_col_name = right_dataset[column_with_names][0]
        DataProcessor.cast_numeric_cols_to_same_data_type(
            right_dataset, column_with_values, left_dataset, left_ds_col_name)
        return pd.merge(left=left_dataset, right=right_dataset,
            left_on=[left_ds_col_name], right_on=[column_with_values],
            how="outer", suffixes=("", f".{right_dataset_domain_name}")) *)
Definition first_label (names : Series) : result string :=
  match s_values names with
  | [] => Raise KeyError
  | c :: _ => column_label c
  end.

Definition merge_datasets_on_relationship_columns
    (left_dataset right_dataset : DataFrame) (right_dataset_domain_name : string)
    (column_with_names column_with_values : string) : result DataFrame :=
  do names <- get_column right_dataset column_with_names;
  do left_ds_col_name <- first_label names;
  match cast_numeric_cols_to_same_data_type
          right_dataset column_with_values left_dataset left_ds_col_name with
  | (_, _, Raise e) => Raise e
  | (right_dataset', left_dataset', Ok _) =>
      merge_outer left_dataset' right_dataset' left_ds_col_name column_with_values
        ("." ++ right_dataset_domain_name)%string
  end.

(** ** Operation parameters *)

(** One entry of the study's dataset list: [{"domain": ..., "filename": ...}]. *)
Record dataset_descriptor : Type := mkDescriptor {
  ds_domain : string;
  ds_filename : string
}.

Record OperationParams : Type := mkParams {
  dataframe : DataFrame;
  target : string;
  grouping : list string;
  domain : string;
  meddra_path : option string;
  directory_path : string;
  datasets : list dataset_descriptor
}.

(** ** Dates and times *)

(** A naive [datetime]. *)
Record datetime : Type := mkDatetime {
  year : Z; month : Z; day : Z;
  hour : Z; minute : Z; second : Z; microsecond : Z
}.

Definition is_leap (y : Z) : bool :=
  ((y mod 4 =? 0) && negb (y mod 100 =? 0)) || (y mod 400 =? 0).

Definition days_in_month (y m : Z) : Z :=
  if m =? 2 then (if is_leap y then 29 else 28)
  else if (m =? 4) || (m =? 6) || (m =? 9) || (m =? 11) then 30
  else 31.

Definition days_before_year (y : Z) : Z :=
  let p := y - 1 in p * 365 + p / 4 - p / 100 + p / 400.

Definition days_before_month (y m : Z) : Z :=
  nth (Z.to_nat m) [0; 0; 31; 59; 90; 120; 151; 181; 212; 243; 273; 304; 334] 0
  + (if (2 <? m) && is_leap y then 1 else 0).

(** [date.toordinal()]: day 1 is 0001-01-01. *)
Definition toordinal (d : datetime) : Z :=
  days_before_year (year d) + days_before_month (year d) (month d) + day d.

(** The checks of the [datetime] constructor. *)
Definition valid_datetime (d : datetime) : bool :=
  (1 <=? year d) && (year d <=? 9999) && (1 <=? month d) && (month d <=? 12)
  && (1 <=? day d) && (day d <=? days_in_month (year d) (month d))
  && (0 <=? hour d) && (hour d <=? 23) && (0 <=? minute d) && (minute d <=? 59)
  && (0 <=? second d) && (second d <=? 59)
  && (0 <=? microsecond d) && (microsecond d <=? 999999).

Fixpoint digits_value (cs : list ascii) (acc : Z) : option Z :=
  match cs with
  | [] => Some acc
  | c :: cs' =>
      if is_digit_char c then digits_value cs' (10 * acc + digit_value c) else None
  end.

Definition is_char (c d : ascii) : bool := Ascii.eqb c d.

(** [YYYY-MM-DD], exactly ten characters. *)
Definition parse_isoformat_date (cs : list ascii) : option (Z * Z * Z) :=
  match cs with
  | [y1; y2; y3; y4; s1; m1; m2; s2; d1; d2] =>
      if is_char s1 "-" && is_char s2 "-" then
        y ← digits_value [y1; y2; y3; y4] 0;
        m ← digits_value [m1; m2] 0;
        d ← digits_value [d1; d2] 0;
        Some (y, m, d)
      else None
  | _ => None
  end.

(** [.fff] or [.ffffff] after the seconds. *)
Definition parse_fraction (cs : list ascii) : option Z :=
  match cs with
  | [] => Some 0
  | dot :: fs =>
      if is_char dot "." then
        if (length fs =? 3)%nat then (fun v => v * 1000) <$> digits_value fs 0
        else if (length fs =? 6)%nat then digits_value fs 0
        else None
      else None
  end.

(** [HH[:MM[:SS[.fff[fff]]]]] *)
Definition parse_hh_mm_ss_ff (cs : list ascii) : option (Z * Z * Z * Z) :=
  match cs with
  | [h1; h2] => h ← digits_value [h1; h2] 0; Some (h, 0, 0, 0)
  | [h1; h2; c1; m1; m2] =>
      if is_char c1 ":" then
        h ← digits_value [h1; h2] 0; m ← digits_value [m1; m2] 0; Some (h, m, 0, 0)
      else None
  | h1 :: h2 :: c1 :: m1 :: m2 :: c2 :: s1 :: s2 :: rest =>
      if is_char c1 ":" && is_char c2 ":" then
        h ← digits_value [h1; h2] 0; m ← digits_value [m1; m2] 0;
        s ← digits_value [s1; s2] 0; f ← parse_fraction rest;
        Some (h, m, s, f)
      else None
  | _ => None
  end.

(** [datetime.fromisoformat] for a date, or a date, any one separator
    character and a time; a UTC offset after the time is outside the
    model.  A text that does not read, or reads as no valid date, raises
    [ValueError]. *)
Definition fromisoformat (s : string) : result datetime :=
  let cs := list_ascii_of_string s in
  match parse_isoformat_date (take 10 cs) with
  | None => Raise ValueError
  | Some (y, m, d) =>
      let tstr := drop 11 cs in
      let time :=
        if (length cs <=? 10)%nat then Some (0, 0, 0, 0)
        else parse_hh_mm_ss_ff tstr in
      match time with
      | None => Raise ValueError
      | Some (hh, mm, ss, ff) =>
          let dt := mkDatetime y m d hh mm ss ff in
          if valid_datetime dt then Ok dt else Raise ValueError
      end
  end.

(** A [timedelta] as Python keeps it: [0 <= seconds < 86400] and
    [0 <= microseconds < 1000000], the sign carried by the days. *)
Record timedelta : Type := mkTimedelta {
  td_days : Z; td_seconds : Z; td_microseconds : Z
}.

(** [timedelta(days, seconds, microseconds)] *)
Definition make_timedelta (days seconds microseconds : Z) : timedelta :=
  let s := seconds + microseconds / 1000000 in
  let us := microseconds mod 1000000 in
  let d := days + s / 86400 in
  mkTimedelta d (s mod 86400) us.

(** [datetime.__sub__] *)
Definition datetime_sub (a b : datetime) : timedelta :=
  let days1 := toordinal a in
  let days2 := toordinal b in
  let secs1 := second a + minute a * 60 + hour a * 3600 in
  let secs2 := second b + minute b * 60 + hour b * 3600 in
  make_timedelta (days1 - days2) (secs1 - secs2) (microsecond a - microsecond b).

Definition fromisoformat_cell (c : cell) : result datetime :=
  match c with
  | CStr s => fromisoformat s
  | _ => Raise TypeError
  end.

(** [lambda x: x.days if x.days < 0 else x.days + 1] *)
Definition study_day (x : timedelta) : Z :=
  if td_days x <? 0 then td_days x else td_days x + 1.

(** def dy(self, params):
        dtc_value = params.dataframe[params.target].map(datetime.fromisoformat)
        rfstdtc_value = params.dataframe["RFSTDTC"].map(datetime.fromisoformat)
        delta = (dtc_value - rfstdtc_value).map(
            lambda x: x.days if x.days < 0 else x.days + 1)
        return delta *)
Definition dy (params : OperationParams) : result (list Z) :=
  do tcol <- get_column (dataframe params) (target params);
  do dtc_value <- mapM fromisoformat_cell (s_values tcol);
  do rcol <- get_column (dataframe params) "RFSTDTC";
  do rfstdtc_value <- mapM fromisoformat_cell (s_values rcol);
  Ok (zip_with (fun a b => study_day (datetime_sub a b)) dtc_value rfstdtc_value).

(** Microseconds since the start of day 0, the scale timestamps are
    compared on. *)
Definition datetime_micros (d : datetime) : Z :=
  ((toordinal d * 86400 + hour d * 3600 + minute d * 60 + second d) * 1000000)
  + microsecond d.

Definition pad (width : nat) (z : Z) : string :=
  let digits := pretty (Z.to_N z) in
  String.concat "" (replicate (width - String.length digits) "0") +:+ digits.

(** [isoformat()]: [YYYY-MM-DDTHH:MM:SS], with [.ffffff] when the
    microseconds are not zero. *)
Definition isoformat (d : datetime) : string :=
  pad 4 (year d) +:+ "-" +:+ pad 2 (month d) +:+ "-" +:+ pad 2 (day d) +:+ "T" +:+
  pad 2 (hour d) +:+ ":" +:+ pad 2 (minute d) +:+ ":" +:+ pad 2 (second d) +:+
  (if microsecond d =? 0 then "" else "." +:+ pad 6 (microsecond d)).

(** [min_date] and [max_date] return a text without grouping and a frame
    with it. *)
Inductive date_result : Type :=
  | DateText (s : string)
  | DateFrame (df : DataFrame).

Section DateOperations.

(** The timestamp [pd.to_datetime] reads off a cell that is not missing:
    a date text in one of the formats pandas knows, a number as an offset
    from the epoch; [None] when the cell holds no date. *)
Variable read_timestamp : cell -> option datetime.

(** [groupby(grouping, as_index=False).min()] and [.max()] of pandas. *)
Variable groupby_min groupby_max : DataFrame -> list string -> result DataFrame.

(** The texts pandas reads as [NaT], besides the empty one. *)
Definition nat_strings : list string := ["NaT"; "nat"; "NAT"; "nan"; "NaN"; "NAN"].

(** [None], [NaN], the empty text and the [NaT] markers read as [NaT]. *)
Definition is_missing (c : cell) : bool :=
  match c with
  | CNaN => true
  | CStr s => String.eqb s "" || existsb (String.eqb s) nat_strings
  | _ => false
  end.

(** [pd.to_datetime(column)] with its default [errors="raise"]: [None]
    stands for [NaT]. *)
Definition to_datetime_cell (c : cell) : result (option datetime) :=
  if is_missing c then Ok None
  else match read_timestamp c with
       | Some d => Ok (Some d)
       | None => Raise ValueError
       end.

Definition to_datetime (column : Series) : result (list (option datetime)) :=
  mapM to_datetime_cell (s_values column).

(** [data.min()] and [data.max()] skip [NaT]; [NaT] when nothing is left. *)
Definition earlier (a b : datetime) : datetime :=
  if datetime_micros b <? datetime_micros a then b else a.

Definition later (a b : datetime) : datetime :=
  if datetime_micros a <? datetime_micros b then b else a.

Definition extreme_step (pick : datetime -> datetime -> datetime)
    (acc o : option datetime) : option datetime :=
  match acc, o with
  | Some a, Some b => Some (pick a b)
  | None, _ => o
  | _, None => acc
  end.

Definition extreme (pick : datetime -> datetime -> datetime)
    (data : list (option datetime)) : option datetime :=
  foldl (extreme_step pick) None data.

(** def min_date(self, params):
        if not params.grouping:
            data = pd.to_datetime(params.dataframe[params.target])
            min_date = data.min()
            if isinstance(min_date, pd._libs.tslibs.nattype.NaTType):
                return ""
            else:
                return min_date.isoformat()
        else:
            return params.dataframe.groupby(params.grouping, as_index=False).min() *)
Definition min_date (params : OperationParams) : result date_result :=
  match grouping params with
  | [] =>
      do column <- get_column (dataframe params) (target params);
      do data <- to_datetime column;
      match extreme earlier data with
      | None => Ok (DateText "")
      | Some min_date => Ok (DateText (isoformat min_date))
      end
  | _ :: _ => do df <- groupby_min (dataframe params) (grouping params); Ok (DateFrame df)
  end.

Definition max_date (params : OperationParams) : result date_result :=
  match grouping params with
  | [] =>
      do column <- get_column (dataframe params) (target params);
      do data <- to_datetime column;
      match extreme later data with
      | None => Ok (DateText "")
      | Some max_date => Ok (DateText (isoformat max_date))
      end
  | _ :: _ => do df <- groupby_max (dataframe params) (grouping params); Ok (DateFrame df)
  end.

End DateOperations.

(** ** The wording of the extreme dates *)

Definition not_after (a b : datetime) : Prop := datetime_micros a <= datetime_micros b.
Definition not_before (a b : datetime) : Prop := datetime_micros b <= datetime_micros a.

(** What [to_datetime] makes of a cell it accepts: nothing of a missing
    one, the timestamp read off it otherwise. *)
Definition timestamp_of (read_timestamp : cell -> option datetime) (c : cell)
    : option datetime :=
  if is_missing c then None else read_timestamp c.

(** The cell [c] of the column holds the timestamp [d]. *)
Definition holds_timestamp (read_timestamp : cell -> option datetime)
    (column : Series) (d : datetime) : Prop :=
  exists c, c ∈ s_values column /\ is_missing c = false /\ read_timestamp c = Some d.

(** ** Cells as dictionary keys *)

Global Instance Q_eq_dec : EqDecision Q.
Proof. solve_decision. Defined.

Global Instance dtype_eq_dec : EqDecision dtype.
Proof. solve_decision. Defined.

Global Instance cell_eq_dec : EqDecision cell.
Proof. solve_decision. Defined.

Fixpoint cell_to_tree (c : cell) : gen_tree (Z + Z * positive + string) :=
  match c with
  | CInt z => GenLeaf (inl (inl z))
  | CFloat q => GenLeaf (inl (inr (Qnum q, Qden q)))
  | CStr s => GenLeaf (inr s)
  | CPair a b => GenNode 0 [cell_to_tree a; cell_to_tree b]
  | CNaN => GenNode 1 []
  end.

Fixpoint tree_to_cell (t : gen_tree (Z + Z * positive + string)) : option cell :=
  match t with
  | GenLeaf (inl (inl z)) => Some (CInt z)
  | GenLeaf (inl (inr (n, d))) => Some (CFloat (Qmake n d))
  | GenLeaf (inr s) => Some (CStr s)
  | GenNode 0 [a; b] =>
      match tree_to_cell a, tree_to_cell b with
      | Some x, Some y => Some (CPair x y)
      | _, _ => None
      end
  | GenNode 1 [] => Some CNaN
  | _ => None
  end.

Definition tree_to_cell_to_tree (c : cell) : tree_to_cell (cell_to_tree c) = Some c.
Proof.
  induction c as [z|q|s|a IHa b IHb|]; simpl; try reflexivity.
  - destruct q; reflexivity.
  - rewrite IHa, IHb. reflexivity.
Defined.

Global Instance cell_countable : Countable cell :=
  inj_countable cell_to_tree tree_to_cell tree_to_cell_to_tree.

(** The key a value stands for in a [dict] or a [set]: Python hashes a
    float that holds an integer like that integer. *)
Fixpoint hashable (c : cell) : cell :=
  match c with
  | CFloat q =>
      let r := Qred q in
      if (Qden r =? 1)%positive then CInt (Qnum r) else CFloat r
  | CPair a b => CPair (hashable a) (hashable b)
  | _ => c
  end.

(** ** Counters *)

(** [collections.Counter]: a dictionary from values to integer counts. *)
Abbreviation Counter := (gmap cell Z).

(** [Counter(iterable)] *)
Definition Counter_of (l : list cell) : Counter :=
  foldl (fun m x => <[hashable x := default 0 (m !! hashable x) + 1]> m) ∅ l.

Definition keep_positive (n : Z) : option Z := if 0 <? n then Some n else None.

(** [Counter.__add__]: counts are added and only positive counts are kept.

    def __add__(self, other):
        result = Counter()
        for elem, count in self.items():
            newcount = count + other[elem]
            if newcount > 0:
                result[elem] = newcount
        for elem, count in other.items():
            if elem not in self and count > 0:
                result[elem] = count
        return result *)
Definition counter_add (a b : Counter) : Counter :=
  merge (fun x y =>
           match x, y with
           | Some c, Some d => keep_positive (c + d)
           | Some c, None => keep_positive (c + 0)
           | None, Some d => keep_positive d
           | None, None => None
           end) a b.

(** [sum(counters, Counter())] *)
Definition counter_sum (l : list Counter) : Counter := foldl counter_add ∅ l.

(** [set().union( *sets )] *)
Definition set_union_all (l : list (gset string)) : gset string :=
  foldl (fun acc s => acc ∪ s) ∅ l.

(** ** Study scans *)

(** The data service the processor is built with. *)
Record DataService : Type := mkDataService {
  get_dataset : string -> result DataFrame;
  join_split_datasets : list string -> result DataFrame;
  is_dummy : bool
}.

(** [f"{study_path}/{filename}"] *)
Definition dataset_path (study_path : string) (d : dataset_descriptor) : string :=
  study_path +:+ "/" +:+ ds_filename d.

(** Modelled from the spec: [get_corresponding_datasets] of the utilities
    module, which is not among the sources.  A split dataset is one
    logical domain stored across several files: the files that correspond
    to a domain are the entries of the study's dataset list with that
    domain. *)
Definition get_corresponding_datasets (datasets : list dataset_descriptor)
    (domain : string) : list dataset_descriptor :=
  List.filter (fun d => String.eqb (ds_domain d) domain) datasets.

(** Modelled from the spec: [is_split_dataset] of the utilities module,
    which is not among the sources: a domain is split when more than one
    file holds it. *)
Definition is_split_dataset (datasets : list dataset_descriptor) (domain : string) : bool :=
  (1 <? length (get_corresponding_datasets datasets domain))%nat.

(** async def get_dataset_variables(study_path, dataset, data_service):
        data = data_service.get_dataset(f"{study_path}/{dataset.get('filename')}")
        return set(data.columns) *)
Definition get_dataset_variables (study_path : string) (dataset : dataset_descriptor)
    (data_service : DataService) : result (gset string) :=
  do data <- get_dataset data_service (dataset_path study_path dataset);
  Ok (list_to_set (columns data)).

(** [asyncio.gather] hands back the results in the order of the tasks and
    raises what the first failing task raised.

    async def get_all_study_variables(study_path, data_service, datasets):
        coroutines = [DataProcessor.get_dataset_variables(study_path, dataset,
                          data_service) for dataset in datasets]
        dataset_variables = await asyncio.gather( *coroutines )
        return set().union( *dataset_variables ) *)
Definition get_all_study_variables (study_path : string) (data_service : DataService)
    (datasets : list dataset_descriptor) : result (gset string) :=
  do dataset_variables <-
    mapM (fun dataset => get_dataset_variables study_path dataset data_service) datasets;
  Ok (set_union_all dataset_variables).

(** [s.replace(pat, rep, 1)] *)
Fixpoint replace_first (pat rep s : string) : string :=
  if String.prefix pat s then rep +:+ String.substring (String.length pat) (String.length s) s
  else match s with
       | EmptyString => EmptyString
       | String c s' => String c (replace_first pat rep s')
       end.

(** async def get_dataset_variable_value_count(
            target, study_path, datasets, dataset, data_service):
        domain = dataset.get("domain")
        if is_split_dataset(datasets, domain):
            files = [f"{study_path}/{dataset.get('filename')}"
                     for dataset in get_corresponding_datasets(datasets, domain)]
            data = data_service.join_split_datasets(data_service.get_dataset, files)
        else:
            data = data_service.get_dataset(f"{study_path}/{dataset.get('filename')}")
        target_variable = target.replace("--", domain, 1)
        if target_variable in data:
            return Counter(data[target_variable].unique())
        else:
            return Counter() *)
Definition get_dataset_variable_value_count (target study_path : string)
    (datasets : list dataset_descriptor) (dataset : dataset_descriptor)
    (data_service : DataService) : result Counter :=
  let domain := ds_domain dataset in
  do data <-
    (if is_split_dataset datasets domain then
       let files := map (dataset_path study_path)
                        (get_corresponding_datasets datasets domain) in
       join_split_datasets data_service files
     else get_dataset data_service (dataset_path study_path dataset));
  let target_variable := replace_first "--" domain target in
  match get_column data target_variable with
  | Ok column => Ok (Counter_of (unique (s_values column)))
  | Raise _ => Ok ∅
  end.

(** [{dataset["domain"]: dataset for dataset in datasets}]: a domain keeps
    the place of its first entry and the value of its last one. *)
Fixpoint dict_set (d : list (string * dataset_descriptor)) (k : string)
    (v : dataset_descriptor) : list (string * dataset_descriptor) :=
  match d with
  | [] => [(k, v)]
  | (k0, v0) :: d' =>
      if String.eqb k0 k then (k0, v) :: d' else (k0, v0) :: dict_set d' k v
  end.

Definition datasets_with_unique_domains (datasets : list dataset_descriptor)
    : list dataset_descriptor :=
  map snd (foldl (fun d dataset => dict_set d (ds_domain dataset) dataset) [] datasets).

(** async def get_all_study_variable_value_counts(
            target, study_path, data_service, datasets):
        datasets_with_unique_domains = list(
            {dataset["domain"]: dataset for dataset in datasets}.values())
        coroutines = [DataProcessor.get_dataset_variable_value_count(
                          target, study_path, datasets, dataset, data_service)
                      for dataset in datasets_with_unique_domains]
        dataset_variable_value_counts = await asyncio.gather( *coroutines )
        return dict(sum(dataset_variable_value_counts, Counter())) *)
Definition get_all_study_variable_value_counts (target study_path : string)
    (data_service : DataService) (datasets : list dataset_descriptor) : result Counter :=
  do dataset_variable_value_counts <-
    mapM (fun dataset =>
            get_dataset_variable_value_count target study_path datasets dataset data_service)
         (datasets_with_unique_domains datasets);
  Ok (counter_sum dataset_variable_value_counts).

(** ** The cache *)

(** Modelled from the spec: the cache service, whose interface is not
    among the sources.  [get(key)] gives the value stored under the key,
    if any; [add(key, value)] overwrites unconditionally; keys are texts
    and nothing expires. *)
Definition cache_get {V : Type} (cache : gmap string V) (key : string) : option V :=
  cache !! key.

Definition cache_add {V : Type} (cache : gmap string V) (key : string) (value : V)
    : gmap string V :=
  <[key := value]> cache.

Section StudyValueCount.

(** [get_operations_cache_key] of the utilities module builds the key from
    the directory and the operation name. *)
Variable get_operations_cache_key : string -> string -> string.

(** def variable_value_count(self, params):
        cache_key = get_operations_cache_key(params.directory_path,
            operation_name=f"study_value_count_{params.target}")
        variable_value_count = (self.cache.get(cache_key)
            if not DataProcessor.is_dummy_data(self.data_service) else None)
        if not variable_value_count:
            variable_value_count = asyncio.run(
                DataProcessor.get_all_study_variable_value_counts(
                    params.target, params.directory_path,
                    self.data_service, params.datasets))
            if not DataProcessor.is_dummy_data(self.data_service):
                self.cache.add(cache_key, variable_value_count)
        return variable_value_count

    An empty dictionary is false in a condition, like [None]. *)
Definition variable_value_count (data_service : DataService)
    (cache : gmap string Counter) (params : OperationParams)
    : gmap string Counter * result Counter :=
  let cache_key :=
    get_operations_cache_key (directory_path params)
      ("study_value_count_" +:+ target params) in
  let cached :=
    if negb (is_dummy data_service) then cache_get cache cache_key else None in
  match cached with
  | Some counts =>
      if bool_decide (counts = ∅) then
        match get_all_study_variable_value_counts (target params)
                (directory_path params) data_service (datasets params) with
        | Ok fresh =>
            (if negb (is_dummy data_service) then cache_add cache cache_key fresh
             else cache, Ok fresh)
        | Raise e => (cache, Raise e)
        end
      else (cache, Ok counts)
  | None =>
      match get_all_study_variable_value_counts (target params)
              (directory_path params) data_service (datasets params) with
      | Ok fresh =>
          (if negb (is_dummy data_service) then cache_add cache cache_key fresh
           else cache, Ok fresh)
      | Raise e => (cache, Raise e)
      end
  end.

End StudyValueCount.

(** ** The wording of the merge step *)

(** [counter[k]]: a missing key counts as zero. *)
Definition count (c : Counter) (k : cell) : Z := default 0 (c !! k).

(** A value-frequency counter: every count it holds is positive. *)
Definition positive_counts (c : Counter) : Prop :=
  forall k n, c !! k = Some n -> 0 < n.
(** The total of the counts of a key over a list of counters. *)
Definition total_count (l : list Counter) (k : cell) : Z :=
  foldr (fun c s => count c k + s) 0 l.


(** ** Dictionary validity operations *)

(** The members of the enumerations [MedDRAVariables] and [TermTypes]
    that the processor names. *)
Inductive MedDRAVariables : Type :=
  | SOC | SOCCD | HLGT | HLGTCD | HLT | HLTCD | DECOD | PTCD | LLT | LLTCD.

Inductive TermTypes : Type :=
  | TermSOC | TermHLGT | TermHLT | TermPT | TermLLT.

(** [str(uuid4())], drawn afresh by every call, is an input of the call. *)
Definition synthetic_column (uuid suffix : string) : string := uuid +:+ suffix.

(** ["/".join] over the cells of a row: every cell must be text. *)
Definition cell_text (c : cell) : result string :=
  match c with
  | CStr s => Ok s
  | _ => Raise TypeError
  end.

Definition join_row (cells : list cell) : result cell :=
  do texts <- mapM cell_text cells; Ok (CStr (String.concat "/" texts)).

(** [dataframe[names].agg("/".join, axis=1)] *)
Definition agg_join (df : DataFrame) (names : list string) : result Series :=
  do cols <- mapM (get_column df) names;
  do vs <- mapM join_row (row_keys df cols);
  Ok (mkSeries object vs).

(** [list(zip(dataframe[a], dataframe[b]))] *)
Definition zip_columns (df : DataFrame) (a b : string) : result Series :=
  do ca <- get_column df a;
  do cb <- get_column df b;
  Ok (mkSeries object (zip_with CPair (s_values ca) (s_values cb))).

Section MedDRA.

(** The parsed term tree of a dictionary and what [MedDRATerm] derives
    from it; the values of the two enumerations; the cache key of the
    pair index.  Their modules are not among the sources. *)
Context {Terms : Type}.
Variable MedDRAVariables_value : MedDRAVariables -> string.
Variable TermTypes_value : TermTypes -> string.
Variable get_code_hierarchies : Terms -> gset string.
Variable get_term_hierarchies : Terms -> gset string.
Variable get_code_term_pairs : Terms -> gmap string (gset cell).
Variable get_meddra_code_term_pairs_cache_key : string -> string.

(** What the cache holds for the dictionary operations. *)
Inductive cache_value : Type :=
  | CachedTerms (terms : Terms)
  | CachedHierarchies (hierarchies : gset string)
  | CachedPairs (pairs : gmap string (gset cell)).

(** The cache, and a record of every index construction: each call of
    [get_code_hierarchies], [get_term_hierarchies] or
    [get_code_term_pairs] appends the key the index is stored under. *)
Record Processor : Type := mkProcessor {
  cache : gmap string cache_value;
  built : list string
}.

(** What an operation leaves behind: the processor, the caller's frame
    (which the operation assigns a column to) and what it returned. *)
Definition operation_outcome : Type := Processor * DataFrame * result (list bool).

Definition outcome_processor (o : operation_outcome) : Processor := fst (fst o).
Definition outcome_frame (o : operation_outcome) : DataFrame := snd (fst o).
Definition outcome_result (o : operation_outcome) : result (list bool) := snd o.

(** [if not params.meddra_path]: [None] and the empty text are false. *)
Definition given_path (params : OperationParams) : option string :=
  match meddra_path params with
  | Some EmptyString => None
  | p => p
  end.

(** [terms = self.cache.get(params.meddra_path)] handed to a function of
    [MedDRATerm]: anything but a term tree raises there. *)
Definition cached_terms (self : Processor) (path : string) : result Terms :=
  match cache_get (cache self) path with
  | Some (CachedTerms terms) => Ok terms
  | _ => Raise AttributeError
  end.

(** valid_code_hierarchies = self.cache.get(cache_key)
    if not valid_code_hierarchies:
        terms = self.cache.get(params.meddra_path)
        valid_code_hierarchies = MedDRATerm.get_code_hierarchies(terms)
        self.cache.add(cache_key, valid_code_hierarchies)

    An empty set is false in the condition, like [None]. *)
Definition load_hierarchies (build : Terms -> gset string) (self : Processor)
    (cache_key path : string) : Processor * result (gset string) :=
  let rebuild :=
    match cached_terms self path with
    | Raise e => (self, Raise e)
    | Ok terms =>
        let hierarchies := build terms in
        (mkProcessor (cache_add (cache self) cache_key (CachedHierarchies hierarchies))
                     (built self ++ [cache_key]),
         Ok hierarchies)
    end in
  match cache_get (cache self) cache_key with
  | None => rebuild
  | Some (CachedHierarchies hierarchies) =>
      if bool_decide (hierarchies = ∅) then rebuild else (self, Ok hierarchies)
  | Some _ => (self, Raise TypeError)
  end.

Definition load_pairs (self : Processor) (cache_key path : string)
    : Processor * result (gmap string (gset cell)) :=
  let rebuild :=
    match cached_terms self path with
    | Raise e => (self, Raise e)
    | Ok terms =>
        let pairs := get_code_term_pairs terms in
        (mkProcessor (cache_add (cache self) cache_key (CachedPairs pairs))
                     (built self ++ [cache_key]),
         Ok pairs)
    end in
  match cache_get (cache self) cache_key with
  | None => rebuild
  | Some (CachedPairs pairs) =>
      if bool_decide (pairs = ∅) then rebuild else (self, Ok pairs)
  | Some _ => (self, Raise TypeError)
  end.

Definition text_isin (valid : gset string) (column : Series) : list bool :=
  map (fun c => match c with
                | CStr s => bool_decide (s ∈ valid)
                | _ => false
                end) (s_values column).

Definition cell_isin (valid : gset cell) (column : Series) : list bool :=
  map (fun c => bool_decide (hashable c ∈ valid)) (s_values column).

(** The part the two hierarchy operations share: the five columns of the
    hierarchy, the index, the synthetic column, the membership test. *)
Definition valid_hierarchy_references (build : Terms -> gset string)
    (variables : list MedDRAVariables) (key_prefix suffix : string)
    (self : Processor) (uuid : string) (params : OperationParams)
    : operation_outcome :=
  match given_path params with
  | None => (self, dataframe params, Raise ValueError)
  | Some path =>
      let code_strings :=
        map (fun variable => domain params +:+ MedDRAVariables_value variable) variables in
      let cache_key := key_prefix +:+ path in
      match load_hierarchies build self cache_key path with
      | (self', Raise e) => (self', dataframe params, Raise e)
      | (self', Ok valid) =>
          let column := synthetic_column uuid suffix in
          match agg_join (dataframe params) code_strings with
          | Raise e => (self', dataframe params, Raise e)
          | Ok joined =>
              let dataframe' := set_column (dataframe params) column joined in
              match get_column dataframe' column with
              | Raise e => (self', dataframe', Raise e)
              | Ok stored => (self', dataframe', Ok (text_isin valid stored))
              end
          end
      end
  end.

(** def valid_meddra_code_references(self, params):
        if not params.meddra_path:
            raise ValueError("Can't execute the operation, no meddra path provided")
        code_variables = [SOCCD, HLGTCD, HLTCD, PTCD, LLTCD]
        code_strings = [f"{params.domain}{variable}" for variable in code_variables]
        cache_key = f"meddra_valid_code_hierarchies_{params.meddra_path}"
        valid_code_hierarchies = self.cache.get(cache_key)
        if not valid_code_hierarchies:
            terms = self.cache.get(params.meddra_path)
            valid_code_hierarchies = MedDRATerm.get_code_hierarchies(terms)
            self.cache.add(cache_key, valid_code_hierarchies)
        column = str(uuid4()) + "_codes"
        params.dataframe[column] = params.dataframe[code_strings].agg("/".join, axis=1)
        result = params.dataframe[column].isin(valid_code_hierarchies)
        return result *)
Definition valid_meddra_code_references : Processor -> string -> OperationParams
    -> operation_outcome :=
  valid_hierarchy_references get_code_hierarchies
    [SOCCD; HLGTCD; HLTCD; PTCD; LLTCD] "meddra_valid_code_hierarchies_" "_codes".

(** The same with the variables [SOC, HLGT, HLT, DECOD, LLT], the key
    [meddra_valid_term_hierarchies_<path>], [get_term_hierarchies] and the
    suffix [_terms]. *)
Definition valid_meddra_term_references : Processor -> string -> OperationParams
    -> operation_outcome :=
  valid_hierarchy_references get_term_hierarchies
    [SOC; HLGT; HLT; DECOD; LLT] "meddra_valid_term_hierarchies_" "_terms".

(** [_get_columns_by_meddra_variable_name]: the code and the display
    variable of a level both give the level and its two columns. *)
Definition variable_pair_map (params : OperationParams)
    : list (string * (string * (string * string))) :=
  let name v := domain params +:+ MedDRAVariables_value v in
  let entry v level cd term := (name v, (TermTypes_value level, (name cd, name term))) in
  [ entry SOC TermSOC SOCCD SOC; entry SOCCD TermSOC SOCCD SOC;
    entry HLGT TermHLGT HLGTCD HLGT; entry HLGTCD TermHLGT HLGTCD HLGT;
    entry HLT TermHLT HLTCD HLT; entry HLTCD TermHLT HLTCD HLT;
    entry DECOD TermPT PTCD DECOD; entry PTCD TermPT PTCD DECOD;
    entry LLT TermLLT LLTCD LLT; entry LLTCD TermLLT LLTCD LLT ].

(** A key written twice in a dictionary display keeps its last value. *)
Definition get_columns_by_meddra_variable_name (params : OperationParams)
    : option (string * (string * string)) :=
  (fun found => snd (snd found))
    <$> list_find (fun e => fst e = target params) (reverse (variable_pair_map params)).

(** def valid_meddra_code_term_pairs(self, params):
        if not params.meddra_path:
            raise ValueError("Can't execute the operation, no meddra path provided")
        term_type, columns = self._get_columns_by_meddra_variable_name(params)
        cache_key = get_meddra_code_term_pairs_cache_key(params.meddra_path)
        valid_code_term_pairs = self.cache.get(cache_key)
        if not valid_code_term_pairs:
            terms = self.cache.get(params.meddra_path)
            valid_code_term_pairs = MedDRATerm.get_code_term_pairs(terms)
            self.cache.add(cache_key, valid_code_term_pairs)
        column = str(uuid4()) + "_pairs"
        params.dataframe[column] = list(zip(params.dataframe[columns[0]],
                                            params.dataframe[columns[1]]))
        result = params.dataframe[column].isin(valid_code_term_pairs[term_type])
        return result *)
Definition valid_meddra_code_term_pairs (self : Processor) (uuid : string)
    (params : OperationParams) : operation_outcome :=
  match given_path params with
  | None => (self, dataframe params, Raise ValueError)
  | Some path =>
      match get_columns_by_meddra_variable_name params with
      | None => (self, dataframe params, Raise TypeError)
      | Some (term_type, (code_column, term_column)) =>
          let cache_key := get_meddra_code_term_pairs_cache_key path in
          match load_pairs self cache_key path with
          | (self', Raise e) => (self', dataframe params, Raise e)
          | (self', Ok valid) =>
              let column := synthetic_column uuid "_pairs" in
              match zip_columns (dataframe params) code_column term_column with
              | Raise e => (self', dataframe params, Raise e)
              | Ok zipped =>
                  let dataframe' := set_column (dataframe params) column zipped in
                  match get_column dataframe' column, valid !! term_type with
                  | Ok stored, Some level => (self', dataframe', Ok (cell_isin level stored))
                  | Raise e, _ => (self', dataframe', Raise e)
                  | _, None => (self', dataframe', Raise KeyError)
                  end
              end
          end
      end
  end.

End MedDRA.

Arguments Processor : clear implicits.
Arguments cache_value : clear implicits.
Arguments operation_outcome : clear implicits.

(** ** The registry of dictionary term factories

    [cdisc_rules_engine/models/dictionaries/abstract_factory.py].  The
    registry is a class attribute: one dictionary from names to factory
    classes that every [AbstractTermsFactory] shares, so it is threaded
    through the calls apart from the factory's own data service. *)

Section TermsFactories.

(** A class handed to [register_service], and whether it is a subclass of
    [TermsFactoryInterface]. *)
Variable ServiceClass : Type.
Variable implements_terms_factory : ServiceClass -> bool.

(** [factory(data_service=self.data_service)]: an instance of the class,
    built with the data service of the abstract factory. *)
Record TermsFactory : Type := mkTermsFactory {
  factory_class : ServiceClass;
  factory_data_service : DataService
}.

(** def register_service(cls, name, service):
        if not name:
            raise ValueError("Service name must not be empty!")
        if not issubclass(service, TermsFactoryInterface):
            raise TypeError("Implementation of TermsFactoryInterface required!")
        cls._registered_services_map[name] = service *)
Definition register_service (registered : gmap string ServiceClass)
    (name : string) (service : ServiceClass)
    : gmap string ServiceClass * result unit :=
  if String.eqb name "" then (registered, Raise ValueError)
  else if negb (implements_terms_factory service) then (registered, Raise TypeError)
  else (<[name := service]> registered, Ok tt).

(** def get_service(self, name, **kwargs):
        if name not in self._registered_services_map:
            raise ValueError(...)
        factory = self._registered_services_map.get(name)
        return factory(data_service=self.data_service) *)
Definition get_service (registered : gmap string ServiceClass)
    (data_service : DataService) (name : string) : result TermsFactory :=
  match registered !! name with
  | None => Raise ValueError
  | Some factory => Ok (mkTermsFactory factory data_service)
  end.

End TermsFactories.

Arguments mkTermsFactory {ServiceClass} _ _.
Arguments factory_class {ServiceClass} _.
Arguments factory_data_service {ServiceClass} _.
Arguments register_service {ServiceClass} _ _ _ _.
Arguments get_service {ServiceClass} _ _ _.

(** ** The domain gate and the whole relationship merge *)

(** [frame.get(col, pd.Series())]: the column, or an empty series. *)
Definition frame_get (df : DataFrame) (col : string) : Series :=
  match get_column df col with
  | Ok s => s
  | Raise _ => mkSeries object []
  end.

(** [series.empty] *)
Definition series_empty (s : Series) : bool :=
  match s_values s with
  | [] => true
  | _ :: _ => false
  end.

(** [series.isin(values)] *)
Definition series_isin (values : list cell) (s : Series) : list bool :=
  map (fun v => existsb (cell_eqb v) values) (s_values s).

(** def filter_parent_dataset_by_supp_dataset_rdomain(parent_dataset, supp_dataset):
        parent_domain_values = parent_dataset.get("DOMAIN", pd.Series())
        supp_domain_values = supp_dataset.get("RDOMAIN", pd.Series())
        if parent_domain_values.empty or supp_domain_values.empty:
            return parent_dataset
        return parent_dataset[parent_domain_values.isin(supp_domain_values)] *)
Definition filter_parent_dataset_by_supp_dataset_rdomain
    (parent_dataset supp_dataset : DataFrame) : DataFrame :=
  let parent_domain_values := frame_get parent_dataset "DOMAIN" in
  let supp_domain_values := frame_get supp_dataset "RDOMAIN" in
  if series_empty parent_domain_values || series_empty supp_domain_values
  then parent_dataset
  else frame_mask (series_isin (s_values supp_domain_values) parent_domain_values)
                  parent_dataset.

(** def filter_parent_dataset_by_supp_dataset(
            parent_dataset, supp_dataset, column_with_names, column_with_values):
        parent_dataset = DataProcessor.filter_parent_dataset_by_supp_dataset_rdomain(
            parent_dataset, supp_dataset)
        return DataProcessor.filter_dataset_by_nested_columns_of_other_dataset(
            parent_dataset, supp_dataset, column_with_names, column_with_values) *)
Definition filter_parent_dataset_by_supp_dataset
    (parent_dataset supp_dataset : DataFrame)
    (column_with_names column_with_values : string) : result DataFrame :=
  let parent_dataset' :=
    filter_parent_dataset_by_supp_dataset_rdomain parent_dataset supp_dataset in
  filter_dataset_by_nested_columns_of_other_dataset
    parent_dataset' supp_dataset column_with_names column_with_values.

(** The dictionary that describes the child dataset:
    [{"domain_name": ..., "relationship_columns":
      {"column_with_names": ..., "column_with_values": ...}}]. *)
Record relationship_domain : Type := mkRelationshipDomain {
  domain_name : option string;
  relationship_columns : option (string * string)
}.

(** [f".{right_dataset_domain.get('domain_name')}"] without its point: a
    missing name prints as [None]. *)
Definition domain_name_text (d : relationship_domain) : string :=
  default "None" (domain_name d).

(** def merge_relationship_datasets(left_dataset, left_dataset_match_keys,
            right_dataset, right_dataset_match_keys, right_dataset_domain):
        result = DataProcessor.filter_dataset_by_match_keys_of_other_dataset(
            left_dataset, left_dataset_match_keys,
            right_dataset, right_dataset_match_keys)
        result = DataProcessor.filter_parent_dataset_by_supp_dataset(
            result, right_dataset, **right_dataset_domain["relationship_columns"])
        result = result.reset_index(drop=True)
        result = DataProcessor.merge_datasets_on_relationship_columns(
            left_dataset=result, right_dataset=right_dataset,
            right_dataset_domain_name=right_dataset_domain.get("domain_name"),
            **right_dataset_domain["relationship_columns"])
        return result

    Rows are addressed by position, so [reset_index(drop=True)] changes
    nothing here. *)
Definition merge_relationship_datasets
    (left_dataset : DataFrame) (left_dataset_match_keys : list string)
    (right_dataset : DataFrame) (right_dataset_match_keys : list string)
    (right_dataset_domain : relationship_domain) : result DataFrame :=
  do result <- filter_dataset_by_match_keys_of_other_dataset
                 left_dataset left_dataset_match_keys
                 right_dataset right_dataset_match_keys;
  match relationship_columns right_dataset_domain with
  | None => Raise KeyError
  | Some (column_with_names, column_with_values) =>
      do result <- filter_parent_dataset_by_supp_dataset
                     result right_dataset column_with_names column_with_values;
      merge_datasets_on_relationship_columns result right_dataset
        (domain_name_text right_dataset_domain) column_with_names column_with_values
  end.

(** ** A record that must be unique *)

(** What the functions of this part raise besides the built-in errors of
    [exn]. *)
Inductive engine_exn : Type :=
  | BuiltIn (e : exn)
  | IndexError
  | InvalidMatchKeyError.

(** [dataframe.iloc[i]]: the cells of row [i], by column. *)
Definition row_at (df : DataFrame) (i : nat) : list (string * cell) :=
  omap (fun c => (fun v => (fst c, v)) <$> (s_values (snd c) !! i)) df.

(** def get_unique_record(dataframe):
        if len(dataframe.index) > 1:
            raise InvalidMatchKeyError("Match key did not return a unique record")
        return dataframe.iloc[0] *)
Definition get_unique_record (df : DataFrame) : list (string * cell) + engine_exn :=
  if (1 <? n_rows df)%nat then inr InvalidMatchKeyError
  else if (n_rows df =? 0)%nat then inr IndexError
  else inl (row_at df 0).

(** ** The distinct values of a variable *)

Section Distinct.

(** What [grouped[target].agg(lambda x: pd.Series([set(x.unique())]))]
    of pandas returns: a frame whose cells are sets. *)
Variable GroupedSets : Type.
Variable groupby_distinct : DataFrame -> list string -> string -> result GroupedSets.

(** [distinct] returns a series of sets without grouping and a frame
    with it. *)
Inductive distinct_result : Type :=
  | DistinctSeries (sets : list (gset cell))
  | DistinctGroups (groups : GroupedSets).

(** def distinct(self, params):
        if not params.grouping:
            data = params.dataframe[params.target].unique()
            if isinstance(data[0], bytes):
                data = data.astype(str)
            data_converted_to_set = set(data)
            return pd.Series([data_converted_to_set] * len(params.dataframe))
        else:
            grouped = params.dataframe.groupby(params.grouping, as_index=False)
            return grouped[params.target].agg(lambda x: pd.Series([set(x.unique())]))

    No cell of the model holds bytes.  [data[0]] is evaluated whatever the
    column holds, and raises on an array with no element. *)
Definition distinct (params : OperationParams) : distinct_result + engine_exn :=
  match grouping params with
  | [] =>
      match get_column (dataframe params) (target params) with
      | Raise e => inr (BuiltIn e)
      | Ok column =>
          let data := unique (s_values column) in
          match data with
          | [] => inr IndexError
          | _ :: _ =>
              let data_converted_to_set : gset cell := list_to_set (map hashable data) in
              inl (DistinctSeries
                     (replicate (n_rows (dataframe params)) data_converted_to_set))
          end
      end
  | _ :: _ =>
      match groupby_distinct (dataframe params) (grouping params) (target params) with
      | Ok groups => inl (DistinctGroups groups)
      | Raise e => inr (BuiltIn e)
      end
  end.

End Distinct.

Arguments DistinctSeries {GroupedSets} sets.
Arguments DistinctGroups {GroupedSets} groups.
Arguments distinct {GroupedSets} groupby_distinct params.

(** ** Wording of the further properties *)

(** The last entry of the dataset list with a given domain. *)
Definition last_of_domain (datasets : list dataset_descriptor) (domain : string)
    : option dataset_descriptor :=
  last (List.filter (fun d => String.eqb (ds_domain d) domain) datasets).

(** The dictionary of the comprehension
    [{dataset["domain"]: dataset for dataset in datasets}]. *)
Definition domain_dict (datasets : list dataset_descriptor)
    : list (string * dataset_descriptor) :=
  foldl (fun d dataset => dict_set d (ds_domain dataset) dataset) [] datasets.


(** The code variable and the display variable of a hierarchy level. *)
Definition level_variables (level : TermTypes) : MedDRAVariables * MedDRAVariables :=
  match level with
  | TermSOC => (SOCCD, SOC)
  | TermHLGT => (HLGTCD, HLGT)
  | TermHLT => (HLTCD, HLT)
  | TermPT => (PTCD, DECOD)
  | TermLLT => (LLTCD, LLT)
  end.

(** A sequence of calls of one dictionary operation on one processor,
    each with its own unique id and parameters: the processor after the
    last call. *)
Definition after_calls {Terms : Type}
    (operation : Processor Terms -> string -> OperationParams -> operation_outcome Terms)
    (self : Processor Terms) (calls : list (string * OperationParams))
    : Processor Terms :=
  foldl (fun p call => outcome_processor (operation p (fst call) (snd call))) self calls.

(** The entry of a hierarchy level in the dictionary display of
    [_get_columns_by_meddra_variable_name]: the name of the level, its
    code column and its term column. *)
Definition pair_map_entry (MedDRAVariables_value : MedDRAVariables -> string)
    (TermTypes_value : TermTypes -> string)
    (params : OperationParams) (level : TermTypes)
    : string * (string * string) :=
  (TermTypes_value level,
   (domain params +:+ MedDRAVariables_value (fst (level_variables level)),
    domain params +:+ MedDRAVariables_value (snd (level_variables level)))).

(** A frame all of whose columns have the frame's row count. *)
Definition rectangular (df : DataFrame) : Prop :=
  forall c, c ∈ df -> length (s_values (snd c)) = n_rows df.

(** ** Sample frames *)

Definition numeric_left_example : DataFrame := [("IDVARVAL", mkSeries object [CStr "1.2.3"])].
Definition numeric_right_example : DataFrame := [("AESEQ", mkSeries object [CStr "1"])].

Definition numeric_text_example : DataFrame := [("AESEQ", mkSeries object [CStr "1.5"; CStr "2"])].
Definition numeric_int_example : DataFrame := [("IDVARVAL", mkSeries int64 [CInt 1; CInt 2])].
Definition code_text_example : DataFrame := [("AESEQ", mkSeries object [CStr "1.5x"])].

Definition match_parent_example : DataFrame :=
  [("USUBJID", mkSeries object [CStr "CDISC001"; CStr "CDISC001"; CStr "CDISC009"]);
   ("DOMAIN", mkSeries object [CStr "AE"; CStr "AE"; CStr "AE"])].

Definition match_other_example : DataFrame :=
  [("USUBJID", mkSeries object [CStr "CDISC009"]);
   ("DOMAIN", mkSeries object [CStr "AE"])].

(** The relationship frame of the docstring of
    [filter_dataset_by_nested_columns_of_other_dataset], and a parent
    frame with a row for each way of meeting its two groups. *)
Definition nested_child_example : DataFrame :=
  [("IDVAR", mkSeries object [CStr "ECSEQ"; CStr "ECSEQ"; CStr "ECNUM"]);
   ("IDVARVAL", mkSeries object [CStr "100"; CStr "101"; CStr "105"])].

Definition nested_parent_example : DataFrame :=
  [("USUBJID", mkSeries object [CStr "S1"; CStr "S2"; CStr "S3"]);
   ("ECSEQ", mkSeries int64 [CInt 100; CInt 101; CInt 200]);
   ("ECNUM", mkSeries int64 [CInt 105; CInt 999; CInt 105])].

(** A study of one domain whose sequence variable holds a value twice. *)
Definition ae_example : DataFrame :=
  [("USUBJID", mkSeries object [CStr "S1"; CStr "S1"; CStr "S2"]);
   ("AESEQ", mkSeries int64 [CInt 1; CInt 2; CInt 1])].

Definition one_domain_service : DataService :=
  mkDataService (fun _ => Ok ae_example) (fun _ => Ok ae_example) false.

Definition one_domain_params : OperationParams :=
  mkParams ae_example "--SEQ" [] "AE" None "study" [mkDescriptor "AE" "ae.xpt"].

(** A relationship frame whose name column holds two names. *)
Definition relationship_child_example : DataFrame :=
  [("USUBJID", mkSeries object [CStr "S1"; CStr "S3"; CStr "S2"]);
   ("IDVAR", mkSeries object [CStr "ECSEQ"; CStr "ECSEQ"; CStr "ECNUM"]);
   ("IDVARVAL", mkSeries object [CStr "100"; CStr "200"; CStr "105"])].


(** Three findings dated on, one day before and two days after the
    reference start date. *)
Definition study_day_example : OperationParams :=
  mkParams
    [("AESTDTC", mkSeries object [CStr "2020-01-10"; CStr "2020-01-09"; CStr "2020-01-12T08:30:00"]);
     ("RFSTDTC", mkSeries object [CStr "2020-01-10"; CStr "2020-01-10"; CStr "2020-01-10"])]
    "AESTDTC" [] "AE" None "study" [].

(** A reader of timestamps that knows the ISO formats of
    [fromisoformat], and a date column that holds one text it cannot read. *)
Definition iso_reader (c : cell) : option datetime :=
  match c with
  | CStr s => match fromisoformat s with Ok d => Some d | Raise _ => None end
  | _ => None
  end.

Definition no_grouped_aggregate (df : DataFrame) (by_names : list string) : result DataFrame :=
  Raise KeyError.

Definition unreadable_dates_example : OperationParams :=
  mkParams [("AESTDTC", mkSeries object [CStr "unknown"])] "AESTDTC" [] "AE" None "study" [].

Definition missing_dates_example : OperationParams :=
  mkParams [("AESTDTC", mkSeries object [CNaN; CStr ""])] "AESTDTC" [] "AE" None "study" [].

Definition some_dates_example : OperationParams :=
  mkParams [("AESTDTC", mkSeries object [CStr "2020-03-01"; CNaN; CStr "2020-01-15T10:00:00"])]
    "AESTDTC" [] "AE" None "study" [].

(** A dictionary whose term tree is the list of its code hierarchies, the
    names of the MedDRA variables, and an adverse-events frame with the
    five code columns. *)
Definition variable_name (v : MedDRAVariables) : string :=
  match v with
  | SOC => "SOC" | SOCCD => "SOCCD" | HLGT => "HLGT" | HLGTCD => "HLGTCD"
  | HLT => "HLT" | HLTCD => "HLTCD" | DECOD => "DECOD" | PTCD => "PTCD"
  | LLT => "LLT" | LLTCD => "LLTCD"
  end.

Definition hierarchies_of_list (terms : list string) : gset string := list_to_set terms.

Definition meddra_frame_example : DataFrame :=
  [("AESOCCD", mkSeries object [CStr "10"; CStr "10"]);
   ("AEHLGTCD", mkSeries object [CStr "20"; CStr "20"]);
   ("AEHLTCD", mkSeries object [CStr "30"; CStr "30"]);
   ("AEPTCD", mkSeries object [CStr "40"; CStr "41"]);
   ("AELLTCD", mkSeries object [CStr "50"; CStr "50"])].

Definition meddra_params_example : OperationParams :=
  mkParams meddra_frame_example "AEPTCD" [] "AE" (Some "meddra/25.0") "study" [].

Definition loaded_dictionary_example : Processor (list string) :=
  mkProcessor {[ "meddra/25.0" := CachedTerms ["10/20/30/40/50"] ]} [].

(** The same with a term tree that holds no term. *)
Definition empty_dictionary_example : Processor (list string) :=
  mkProcessor {[ "meddra/25.0" := CachedTerms [] ]} [].

Definition term_type_name (t : TermTypes) : string :=
  match t with
  | TermSOC => "soc" | TermHLGT => "hlgt" | TermHLT => "hlt"
  | TermPT => "pt" | TermLLT => "llt"
  end.

(** Two classes offered to the registry: one implements the term-factory
    interface, the other does not. *)
Inductive sample_class : Type := LoincTermsFactory | NotAFactory.

Definition sample_implements (c : sample_class) : bool :=
  match c with
  | LoincTermsFactory => true
  | NotAFactory => false
  end.

(** A parent frame of two domains and a supplemental frame for one. *)
Definition gate_parent_example : DataFrame :=
  [("DOMAIN", mkSeries object [CStr "AE"; CStr "EC"; CStr "AE"]);
   ("USUBJID", mkSeries object [CStr "S1"; CStr "S1"; CStr "S2"])].

Definition gate_supp_example : DataFrame :=
  [("RDOMAIN", mkSeries object [CStr "AE"]);
   ("USUBJID", mkSeries object [CStr "S1"])].

(** A data service that loads nothing, and the dummy data service over
    the sample study. *)
Definition failing_service : DataService :=
  mkDataService (fun _ => Raise KeyError) (fun _ => Raise KeyError) false.

Definition dummy_service : DataService :=
  mkDataService (fun _ => Ok ae_example) (fun _ => Ok ae_example) true.

Definition operations_key (directory operation_name : string) : string :=
  "operations/" +:+ directory +:+ "/" +:+ operation_name.

(** The sequence numbers of the sample study, asked for without
    grouping, and a frame of one row. *)
Definition distinct_params_example : OperationParams :=
  mkParams ae_example "AESEQ" [] "AE" None "study" [].

Definition no_grouped_sets (df : DataFrame) (by_names : list string) (target : string)
    : result unit :=
  Raise KeyError.

Definition one_row_example : DataFrame :=
  [("USUBJID", mkSeries object [CStr "S1"]); ("AESEQ", mkSeries int64 [CInt 1])].
(* ===================================================================== *)
(** * Properties *)
(* ===================================================================== *)

Example column_contains_numeric_decimal : column_contains_numeric (mkSeries object [CStr "1.5"]) = true.
Proof. reflexivity. Qed.

Example column_contains_numeric_code : column_contains_numeric (mkSeries object [CStr "1.5x"]) = false.
Proof. reflexivity. Qed.

Example float_of_string_15 : float_of_string "1.5" = Some (3 # 2).
Proof. reflexivity. Qed.

Example float_of_string_123 : float_of_string "1.2.3" = None.
Proof. reflexivity. Qed.

(** ** Numeric reconciliation *)

Lemma is_digit_char_spec (c : ascii) : is_digit_char c = true <-> digit_char c.
Proof.
  unfold is_digit_char, digit_char. cbv zeta.
  rewrite andb_true_iff, !Nat.leb_le. split.
  - intros [Hlo Hhi]. exists (nat_of_ascii c - 48)%nat. split; [lia|].
    replace (48 + (nat_of_ascii c - 48))%nat with (nat_of_ascii c) by lia.
    symmetry. apply ascii_nat_embedding.
  - intros (d & Hd & ->). rewrite nat_ascii_embedding by lia. lia.
Qed.

Lemma all_digit_chars_spec (s : string) :
  all_digit_chars s = true <-> Forall digit_char (list_ascii_of_string s).
Proof.
  induction s as [|c s IH]; simpl.
  - split; [constructor | reflexivity].
  - rewrite andb_true_iff, Forall_cons, IH, is_digit_char_spec. reflexivity.
Qed.

Lemma isdigit_spec (s : string) : isdigit s = true <-> digits_only s.
Proof.
  unfold digits_only. destruct s as [|c s].
  - simpl. split; [discriminate | intros [H _]; congruence].
  - unfold isdigit. rewrite all_digit_chars_spec. split.
    + intros H. split; [discriminate | exact H].
    + intros [_ H]. exact H.
Qed.

Lemma str_replace_dot_spec (s : string) : str_replace_dot s = strip_points s.
Proof.
  unfold strip_points. induction s as [|c s IH]; simpl; [reflexivity|].
  destruct (Ascii.eqb c "."); simpl; rewrite IH; reflexivity.
Qed.

Lemma str_isdigit_cell_text (s : string) :
  str_isdigit_cell (CStr s) = true <-> digits_only (strip_points s).
Proof. simpl. rewrite str_replace_dot_spec. apply isdigit_spec. Qed.

Lemma column_contains_numeric_spec (column : Series) :
  column_contains_numeric column = true <->
  is_numeric_dtype column = true \/
  (forall s, CStr s ∈ s_values column -> digits_only (strip_points s)).
Proof.
  unfold column_contains_numeric.
  destruct (is_numeric_dtype column); simpl.
  - split; [left; reflexivity | reflexivity].
  - rewrite forallb_forall. split.
    + intros H. right. intros s Hs. apply str_isdigit_cell_text, H.
      apply list_elem_of_In, Hs.
    + intros [H|H] c Hc; [discriminate|].
      destruct c; try reflexivity.
      apply str_isdigit_cell_text, H, list_elem_of_In, Hc.
Qed.

(** The scanner reads every text made of digits and at most one point. *)
Lemma scan_decimal_digits (s : string) :
  forall (seen : bool) mant frac n,
    Forall digit_char (list_ascii_of_string (strip_points s)) ->
    (count_points s + (if seen then 1 else 0) <= 1)%nat ->
    (0 < n + String.length (strip_points s))%nat ->
    is_Some (scan_decimal s seen mant frac n).
Proof.
  unfold strip_points, count_points.
  induction s as [|c s IH]; intros seen mant frac n Hdig Hpts Hlen.
  - simpl in *. destruct n; [lia|]. simpl. eauto.
  - simpl in Hdig, Hpts, Hlen. simpl.
    destruct (Ascii.eqb c ".") eqn:Hdot; simpl in Hdig, Hpts, Hlen.
    + apply Ascii.eqb_eq in Hdot. subst c.
      replace (is_digit_char ".") with false by reflexivity.
      destruct seen; [lia|]. apply IH; [exact Hdig | lia | exact Hlen].
    + apply Forall_cons in Hdig as [Hc Hdig].
      apply is_digit_char_spec in Hc. rewrite Hc.
      apply IH; [exact Hdig | exact Hpts | lia].
Qed.

Lemma float_of_string_digits (s : string) :
  digits_only (strip_points s) -> (count_points s <= 1)%nat ->
  is_Some (float_of_string s).
Proof.
  intros [Hne Hdig] Hpts.
  assert (Hscan : is_Some (scan_decimal s false 0 0 0)).
  { apply scan_decimal_digits; [exact Hdig | lia |].
    destruct (strip_points s); [congruence | simpl; lia]. }
  destruct s as [|c s]; [destruct Hne; reflexivity|].
  unfold float_of_string.
  assert (Hc : is_digit_char c = true \/ c = "."%char).
  { unfold strip_points in Hdig. simpl in Hdig.
    destruct (Ascii.eqb c ".") eqn:Hdot.
    - right. apply Ascii.eqb_eq, Hdot.
    - left. simpl in Hdig. apply Forall_cons in Hdig as [Hc _].
      apply is_digit_char_spec, Hc. }
  assert (Hminus : Ascii.eqb c "-" = false).
  { destruct Hc as [Hc| ->]; [|reflexivity].
    destruct (Ascii.eqb c "-") eqn:E; [|reflexivity].
    apply Ascii.eqb_eq in E. subst c. discriminate. }
  assert (Hplus : Ascii.eqb c "+" = false).
  { destruct Hc as [Hc| ->]; [|reflexivity].
    destruct (Ascii.eqb c "+") eqn:E; [|reflexivity].
    apply Ascii.eqb_eq in E. subst c. discriminate. }
  rewrite Hminus, Hplus. destruct Hscan as [mf ->]. simpl. eauto.
Qed.

Lemma cell_to_float_convertible (c : cell) :
  float_convertible c -> exists c', cell_to_float c = Ok c'.
Proof.
  destruct c as [z|q|s|a b|]; simpl; intros H; eauto; [|contradiction].
  destruct H as [Hd Hp].
  destruct (float_of_string_digits s Hd Hp) as [q ->]. eauto.
Qed.

Lemma mapM_ok {A B : Type} (f : A -> result B) (l : list A) :
  Forall (fun x => exists y, f x = Ok y) l ->
  exists ys, mapM f l = Ok ys /\ length ys = length l.
Proof.
  induction 1 as [|x l [y Hy] _ [ys [IH Hlen]]]; simpl.
  - exists []. split; reflexivity.
  - rewrite Hy, IH. simpl. exists (y :: ys). split; [reflexivity | simpl; lia].
Qed.

Lemma astype_float_convertible (column : Series) :
  Forall float_convertible (s_values column) ->
  exists column', astype_float column = Ok column' /\ s_dtype column' = float64.
Proof.
  intros H. unfold astype_float.
  destruct (mapM_ok cell_to_float (s_values column)) as (vs & -> & _).
  - eapply Forall_impl; [exact H|]. intros c. apply cell_to_float_convertible.
  - simpl. eauto.
Qed.

Lemma get_set_column_eq (df : DataFrame) (col : string) (s : Series) :
  get_column (set_column df col s) col = Ok s.
Proof.
  induction df as [|[n s0] df IH]; simpl.
  - rewrite String.eqb_refl. reflexivity.
  - destruct (String.eqb n col) eqn:E; simpl; rewrite E; [reflexivity | exact IH].
Qed.



Ltac convertible_cell :=
  first
    [ exact I
    | split;
      [ rewrite <- str_replace_dot_spec; apply isdigit_spec; reflexivity
      | vm_compute; lia ] ].


(** ** Filtering by match keys *)

Lemma select_mask_nil_r {A : Type} (mask : list bool) : select_mask mask (@nil A) = [].
Proof. destruct mask as [|[] mask]; reflexivity. Qed.

Lemma select_mask_map {A B : Type} (f : A -> B) (mask : list bool) (xs : list A) :
  select_mask mask (map f xs) = map f (select_mask mask xs).
Proof.
  revert xs. induction mask as [|b mask IH]; intros [|x xs]; simpl; try reflexivity.
  destruct b; simpl; rewrite IH; reflexivity.
Qed.

Lemma select_mask_zip_with {A B C : Type} (f : A -> B -> C) (mask : list bool)
    (xs : list A) (ys : list B) :
  select_mask mask (zip_with f xs ys)
  = zip_with f (select_mask mask xs) (select_mask mask ys).
Proof.
  revert xs ys. induction mask as [|b mask IH]; intros xs ys.
  - destruct xs, ys; reflexivity.
  - destruct xs as [|x xs]; [reflexivity|].
    destruct ys as [|y ys].
    + simpl. destruct b; simpl; destruct (select_mask mask xs); reflexivity.
    + simpl. destruct b; simpl; rewrite IH; reflexivity.
Qed.

Lemma index_tuples_select (mask : list bool) (levels : list (list cell)) :
  index_tuples (map (select_mask mask) levels) = select_mask mask (index_tuples levels).
Proof.
  induction levels as [|c cs IH]; simpl.
  - symmetry. apply select_mask_nil_r.
  - destruct cs as [|c' cs'].
    + simpl. symmetry. apply select_mask_map.
    + change (map (select_mask mask) (c' :: cs'))
        with (select_mask mask c' :: map (select_mask mask) cs') in *.
      rewrite select_mask_zip_with. rewrite <- IH. reflexivity.
Qed.

Lemma select_mask_holds {A : Type} (p : A -> bool) (xs : list A) :
  Forall (fun x => p x = true) (select_mask (map p xs) xs).
Proof.
  induction xs as [|x xs IH]; simpl; [constructor|].
  destruct (p x) eqn:E; [constructor; assumption | assumption].
Qed.

Lemma select_mask_all_true {A : Type} (mask : list bool) (xs : list A) :
  Forall (fun b => b = true) mask -> (length xs <= length mask)%nat ->
  select_mask mask xs = xs.
Proof.
  intros H. revert xs. induction H as [|b mask -> _ IH]; intros [|x xs] Hlen; simpl in *;
    try reflexivity; [lia|].
  rewrite IH by lia. reflexivity.
Qed.

Lemma select_mask_length_le {A B : Type} (mask : list bool) (xs : list A) (ts : list B) :
  length mask = length ts ->
  (length (select_mask mask xs) <= length (select_mask mask ts))%nat.
Proof.
  revert xs ts. induction mask as [|b mask IH]; intros xs ts Hlen.
  - destruct xs; simpl; lia.
  - destruct ts as [|t ts]; [discriminate|]. simpl in Hlen.
    destruct xs as [|x xs]; [simpl; lia|].
    specialize (IH xs ts ltac:(lia)). destruct b; simpl; lia.
Qed.

(** Masking twice with a condition that holds of every kept row. *)
Lemma select_mask_again {A B : Type} (p : B -> bool) (ts : list B) (xs : list A) :
  select_mask (map p (select_mask (map p ts) ts)) (select_mask (map p ts) xs)
  = select_mask (map p ts) xs.
Proof.
  apply select_mask_all_true.
  - apply Forall_map. apply select_mask_holds.
  - rewrite length_map. apply select_mask_length_le. apply length_map.
Qed.

Lemma get_column_cons_ne (n col : string) (s : Series) (df : DataFrame) :
  n <> col -> get_column ((n, s) :: df) col = get_column df col.
Proof. intros H. simpl. apply String.eqb_neq in H. rewrite H. reflexivity. Qed.

Lemma has_column_spec (df : DataFrame) (col : string) :
  has_column df col = true <-> col ∈ columns df.
Proof.
  unfold has_column, columns. induction df as [|[n s] df IH]; simpl.
  - split; [discriminate | intros H; inversion H].
  - destruct (String.eqb n col) eqn:E.
    + apply String.eqb_eq in E. subst. simpl. split; [left | reflexivity].
    + apply String.eqb_neq in E. rewrite IH. split.
      * intros H. right. exact H.
      * intros H. apply elem_of_cons in H as [H|H]; [congruence | exact H].
Qed.

Lemma mapM_ext_in {A B : Type} (f g : A -> result B) (l : list A) :
  (forall x, x ∈ l -> f x = g x) -> mapM f l = mapM g l.
Proof.
  induction l as [|x l IH]; intros H; simpl; [reflexivity|].
  rewrite (H x) by left. rewrite IH; [reflexivity|].
  intros y Hy. apply H. right. exact Hy.
Qed.

Lemma mapM_fst_levels (df : DataFrame) (keys : list string)
    (levels : list (string * Series)) :
  mapM (fun k => do s <- get_column df k; Ok (k, s)) keys = Ok levels ->
  map fst levels = keys.
Proof.
  revert levels. induction keys as [|k keys IH]; simpl; intros levels H.
  - inversion H. reflexivity.
  - destruct (get_column df k); simpl in H; [|discriminate].
    destruct (mapM _ keys) as [rest|]; simpl in H; [|discriminate].
    inversion H; subst. simpl. rewrite (IH rest); reflexivity.
Qed.

(** What [reset_index] returns, when it returns. *)
Lemma insert_levels_ok (levels : list (string * Series)) (body r : DataFrame) :
  insert_levels levels body = Ok r ->
  r = levels ++ body /\ NoDup (map fst levels)
  /\ (forall n, n ∈ map fst levels -> n ∉ columns body).
Proof.
  revert r. induction levels as [|[n s] rest IH]; simpl; intros r H.
  - inversion H; subst. split; [reflexivity|]. split; [constructor|].
    intros n Hn. inversion Hn.
  - destruct (insert_levels rest body) as [body'|]; simpl in H; [|discriminate].
    destruct (has_column body' n) eqn:Hhas; [discriminate|].
    inversion H; subst. destruct (IH body' eq_refl) as (-> & Hnd & Hfresh).
    assert (Hn : n ∉ columns (rest ++ body)).
    { intros Hin. apply has_column_spec in Hin. congruence. }
    unfold columns in Hn. rewrite map_app in Hn.
    split; [reflexivity|]. split.
    + constructor; [|exact Hnd]. intros Hin. apply Hn. apply elem_of_app. left. exact Hin.
    + intros k Hk. apply elem_of_cons in Hk as [->|Hk].
      * intros Hin. apply Hn. apply elem_of_app. right. exact Hin.
      * apply Hfresh, Hk.
Qed.

Lemma insert_levels_fresh (levels : list (string * Series)) (body : DataFrame) :
  NoDup (map fst levels) -> (forall n, n ∈ map fst levels -> n ∉ columns body) ->
  insert_levels levels body = Ok (levels ++ body).
Proof.
  induction levels as [|[n s] rest IH]; simpl; intros Hnd Hfresh; [reflexivity|].
  apply NoDup_cons in Hnd as [Hn Hnd].
  rewrite IH; [|exact Hnd|intros k Hk; apply Hfresh; right; exact Hk]. simpl.
  destruct (has_column (rest ++ body) n) eqn:Hhas; [|reflexivity].
  apply has_column_spec in Hhas. unfold columns in Hhas. rewrite map_app in Hhas.
  apply elem_of_app in Hhas as [Hin|Hin]; [contradiction|].
  exfalso. apply (Hfresh n); [left | exact Hin].
Qed.

(** Reading the levels back from a frame that starts with them. *)
Lemma read_levels_back (levels : list (string * Series)) (body : DataFrame) :
  NoDup (map fst levels) ->
  mapM (fun k => do s <- get_column (levels ++ body) k; Ok (k, s)) (map fst levels)
  = Ok levels.
Proof.
  induction levels as [|[n s] rest IH]; simpl; intros Hnd; [reflexivity|].
  apply NoDup_cons in Hnd as [Hn Hnd].
  rewrite String.eqb_refl. simpl.
  rewrite (mapM_ext_in _ (fun k => do s0 <- get_column (rest ++ body) k; Ok (k, s0))).
  - rewrite IH by exact Hnd. reflexivity.
  - intros k Hk. destruct (String.eqb n k) eqn:E; [|reflexivity].
    apply String.eqb_eq in E. subst. contradiction.
Qed.

Lemma existsb_eqb_spec (n : string) (keys : list string) :
  existsb (String.eqb n) keys = true <-> n ∈ keys.
Proof.
  rewrite existsb_exists. split.
  - intros (k & Hk & E). apply String.eqb_eq in E. subst. apply list_elem_of_In, Hk.
  - intros H. exists n. split; [apply list_elem_of_In, H | apply String.eqb_refl].
Qed.

Lemma filter_outside_all (keys : list string) (df : DataFrame) :
  (forall n, n ∈ columns df -> n ∉ keys) ->
  List.filter (outside_keys keys) df = df.
Proof.
  induction df as [|[n s] df IH]; simpl; intros H; [reflexivity|].
  unfold outside_keys at 1. simpl.
  destruct (existsb (String.eqb n) keys) eqn:E.
  - apply existsb_eqb_spec in E. exfalso. apply (H n); [left | exact E].
  - simpl. rewrite IH; [reflexivity|]. intros k Hk. apply H. right. exact Hk.
Qed.

Lemma filter_outside_none (keys : list string) (levels : list (string * Series)) :
  (forall n, n ∈ map fst levels -> n ∈ keys) ->
  List.filter (outside_keys keys) levels = [].
Proof.
  induction levels as [|[n s] rest IH]; simpl; intros H; [reflexivity|].
  unfold outside_keys at 1. simpl.
  destruct (existsb (String.eqb n) keys) eqn:E.
  - simpl. apply IH. intros k Hk. apply H. right. exact Hk.
  - exfalso. assert (Hn : n ∈ keys) by (apply H; left).
    apply existsb_eqb_spec in Hn. congruence.
Qed.

Lemma columns_frame_mask (mask : list bool) (df : DataFrame) :
  columns (frame_mask mask df) = columns df.
Proof.
  unfold columns, frame_mask. rewrite map_map. apply map_ext. intros [n s]. reflexivity.
Qed.

Lemma columns_filter_outside (keys : list string) (df : DataFrame) (n : string) :
  n ∈ columns (List.filter (outside_keys keys) df) -> n ∉ keys.
Proof.
  unfold columns. intros H. apply list_elem_of_In, in_map_iff in H as ([k s] & <- & Hin).
  apply filter_In in Hin as [_ Hout]. unfold outside_keys in Hout. simpl in *.
  intros Hk. apply existsb_eqb_spec in Hk. rewrite Hk in Hout. discriminate.
Qed.

(** [set_index] in terms of its levels and body. *)
Lemma set_index_ok (df : DataFrame) (keys : list string) (f : IndexedFrame) :
  set_index df keys = Ok f ->
  keys <> [] /\ map fst (ix_levels f) = keys
  /\ ix_body f = List.filter (outside_keys keys) df.
Proof.
  unfold set_index. destruct keys as [|k keys]; [discriminate|].
  destruct (mapM _ (k :: keys)) as [levels|] eqn:E; simpl; [|discriminate].
  intros H. inversion H; subst. simpl. split; [discriminate|]. split.
  - eapply mapM_fst_levels, E.
  - reflexivity.
Qed.

Lemma index_values_mask (mask : list bool) (f : IndexedFrame) :
  index_values (indexed_mask mask f) = select_mask mask (index_values f).
Proof.
  unfold index_values, indexed_mask. simpl. rewrite <- index_tuples_select.
  rewrite !map_map. reflexivity.
Qed.

Lemma series_mask_again {B : Type} (p : B -> bool) (ts : list B) (s : Series) :
  series_mask (map p (select_mask (map p ts) ts)) (series_mask (map p ts) s)
  = series_mask (map p ts) s.
Proof. unfold series_mask. simpl. rewrite select_mask_again. reflexivity. Qed.

Lemma indexed_mask_again {B : Type} (p : B -> bool) (ts : list B) (f : IndexedFrame) :
  indexed_mask (map p (select_mask (map p ts) ts)) (indexed_mask (map p ts) f)
  = indexed_mask (map p ts) f.
Proof.
  unfold indexed_mask, frame_mask. simpl. rewrite !map_map. f_equal.
  - apply map_ext. intros [n s]. simpl. rewrite series_mask_again. reflexivity.
  - apply map_ext. intros [n s]. rewrite series_mask_again. reflexivity.
Qed.

Lemma level_names_mask (mask : list bool) (f : IndexedFrame) :
  map fst (ix_levels (indexed_mask mask f)) = map fst (ix_levels f).
Proof. simpl. rewrite map_map. apply map_ext. intros [n s]. reflexivity. Qed.

(** Indexing the filtered frame by the same keys gives back the masked
    levels and the masked body. *)
Lemma set_index_of_reset (dataset r : DataFrame) (keys : list string)
    (f : IndexedFrame) (mask : list bool) :
  set_index dataset keys = Ok f ->
  reset_index (indexed_mask mask f) = Ok r ->
  set_index r keys = Ok (indexed_mask mask f).
Proof.
  intros Hset Hreset. apply set_index_ok in Hset as (Hne & Hnames & Hbody).
  unfold reset_index in Hreset.
  apply insert_levels_ok in Hreset as (-> & Hnd & Hfresh).
  assert (Hnames' : map fst (ix_levels (indexed_mask mask f)) = keys).
  { rewrite level_names_mask. exact Hnames. }
  unfold set_index. destruct keys as [|k keys]; [congruence|].
  rewrite <- Hnames' at 1. rewrite read_levels_back by exact Hnd. simpl.
  rewrite List.filter_app, filter_outside_none, filter_outside_all.
  - destruct f; reflexivity.
  - intros n Hn. rewrite columns_frame_mask, Hbody in Hn.
    apply columns_filter_outside in Hn. exact Hn.
  - intros n Hn. rewrite <- Hnames'. exact Hn.
Qed.

Example filter_by_match_keys_docstring :
  filter_dataset_by_match_keys_of_other_dataset
    match_parent_example ["USUBJID"] match_other_example ["USUBJID"]
  = Ok [("USUBJID", mkSeries object [CStr "CDISC009"]);
        ("DOMAIN", mkSeries object [CStr "AE"])].
Proof. reflexivity. Qed.

(** The filter returns whenever both frames have their match keys and the
    keys of the filtered frame are named once each. *)
Lemma filter_by_match_keys_returns (dataset other_dataset : DataFrame)
    (keys other_keys : list string) :
  keys <> [] -> other_keys <> [] -> NoDup keys ->
  (forall k, k ∈ keys -> k ∈ columns dataset) ->
  (forall k, k ∈ other_keys -> k ∈ columns other_dataset) ->
  exists r, filter_dataset_by_match_keys_of_other_dataset
              dataset keys other_dataset other_keys = Ok r.
Proof.
  intros Hne Hne' Hnd Hin Hin'.
  assert (Hlevels : forall (df : DataFrame) ks,
            (forall k, k ∈ ks -> k ∈ columns df) ->
            exists ls, mapM (fun k => do s <- get_column df k; Ok (k, s)) ks = Ok ls).
  { intros df ks Hks.
    destruct (mapM_ok (fun k => do s <- get_column df k; Ok (k, s)) ks) as (ls & Hls & _);
      [|eauto].
    apply Forall_forall. intros k Hk. apply Hks, has_column_spec in Hk.
    unfold has_column in Hk. destruct (get_column df k) as [s|]; [|discriminate].
    simpl. eauto. }
  unfold filter_dataset_by_match_keys_of_other_dataset.
  destruct (Hlevels dataset keys Hin) as [ls Hls].
  destruct (Hlevels other_dataset other_keys Hin') as [ls' Hls'].
  assert (Hset : set_index dataset keys = Ok (mkIndexed ls (List.filter (outside_keys keys) dataset))).
  { unfold set_index. destruct keys; [congruence|]. rewrite Hls. reflexivity. }
  assert (Hset' : set_index other_dataset other_keys
                  = Ok (mkIndexed ls' (List.filter (outside_keys other_keys) other_dataset))).
  { unfold set_index. destruct other_keys; [congruence|]. rewrite Hls'. reflexivity. }
  rewrite Hset, Hset'. simpl. unfold reset_index.
  eexists. apply insert_levels_fresh.
  - rewrite level_names_mask. simpl.
    rewrite (mapM_fst_levels _ _ _ Hls). exact Hnd.
  - rewrite level_names_mask. simpl. rewrite (mapM_fst_levels _ _ _ Hls).
    intros n Hn Hcol. rewrite columns_frame_mask in Hcol.
    apply columns_filter_outside in Hcol. contradiction.
Qed.

(** C7: the filter is idempotent.  Whenever it returns a frame, applying
    it to that frame with the same keys and the same other frame returns
    the frame unchanged: the same columns, the same rows, in the same
    order. *)
Theorem filter_by_match_keys_idempotent (dataset other_dataset : DataFrame)
    (dataset_match_keys other_dataset_match_keys : list string) (r : DataFrame) :
  filter_dataset_by_match_keys_of_other_dataset
    dataset dataset_match_keys other_dataset other_dataset_match_keys = Ok r ->
  filter_dataset_by_match_keys_of_other_dataset
    r dataset_match_keys other_dataset other_dataset_match_keys = Ok r.
Proof.
  unfold filter_dataset_by_match_keys_of_other_dataset.
  destruct (set_index dataset dataset_match_keys) as [f|] eqn:Hf; simpl; [|discriminate].
  destruct (set_index other_dataset other_dataset_match_keys) as [g|] eqn:Hg; simpl;
    [|discriminate].
  intros Hr. unfold index_isin in *.
  rewrite (set_index_of_reset _ _ _ _ _ Hf Hr). simpl.
  rewrite index_values_mask, indexed_mask_again. exact Hr.
Qed.

Lemma filter_by_match_keys_idempotent_witness :
  filter_dataset_by_match_keys_of_other_dataset
    [("USUBJID", mkSeries object [CStr "CDISC009"]); ("DOMAIN", mkSeries object [CStr "AE"])]
    ["USUBJID"] match_other_example ["USUBJID"]
  = Ok [("USUBJID", mkSeries object [CStr "CDISC009"]); ("DOMAIN", mkSeries object [CStr "AE"])].
Proof.
  apply (filter_by_match_keys_idempotent match_parent_example match_other_example
           ["USUBJID"] ["USUBJID"]).
  reflexivity.
Defined.

(** ** Equality of cells *)

Lemma Qred_inject_Z (z : Z) : Qred (inject_Z z) = inject_Z z.
Proof. apply Qred_identity. simpl. apply Z.gcd_1_r. Qed.

Lemma Qred_is_integer (q : Q) (z : Z) :
  ((Qden (Qred q) =? 1)%positive = true /\ Qnum (Qred q) = z) <-> inject_Z z == q.
Proof.
  rewrite Pos.eqb_eq. split.
  - intros [Hd Hn]. rewrite <- (Qred_correct q).
    destruct (Qred q) as [n d]. simpl in *. subst. reflexivity.
  - intros H. apply Qred_complete in H. rewrite Qred_inject_Z in H.
    rewrite <- H. simpl. split; reflexivity.
Qed.

Lemma hashable_float (q : Q) :
  hashable (CFloat q)
  = if (Qden (Qred q) =? 1)%positive then CInt (Qnum (Qred q)) else CFloat (Qred q).
Proof. reflexivity. Qed.

Lemma hashable_float_int (q : Q) (z : Z) :
  hashable (CFloat q) = CInt z <-> inject_Z z == q.
Proof.
  rewrite <- Qred_is_integer, hashable_float.
  destruct (Qden (Qred q) =? 1)%positive; split.
  - intros [= ->]. split; reflexivity.
  - intros [_ ->]. reflexivity.
  - discriminate.
  - intros [? _]. discriminate.
Qed.

Lemma hashable_float_float (p q : Q) :
  hashable (CFloat p) = hashable (CFloat q) <-> p == q.
Proof.
  rewrite <- Qred_eq_iff, !hashable_float.
  destruct (Qden (Qred p) =? 1)%positive eqn:Ep, (Qden (Qred q) =? 1)%positive eqn:Eq;
    split; try discriminate; try congruence.
  apply Pos.eqb_eq in Ep, Eq. intros [= Hn].
  destruct (Qred p), (Qred q). simpl in *. congruence.
Qed.

Lemma hashable_not_float (q : Q) (c : cell) :
  (forall z, c <> CInt z) -> (forall r, c <> CFloat r) -> hashable (CFloat q) <> c.
Proof.
  intros Hz Hr. rewrite hashable_float.
  destruct (Qden (Qred q) =? 1)%positive; intros E; subst;
    [eapply Hz | eapply Hr]; reflexivity.
Qed.

(** Two cells are equal for Python exactly when they are the same
    dictionary key. *)
Lemma cell_eqb_hashable (a b : cell) : cell_eqb a b = true <-> hashable a = hashable b.
Proof.
  revert b. induction a as [x|p|s|a1 IH1 a2 IH2|]; intros b.
  - destruct b as [y|q|t|b1 b2|]; simpl cell_eqb.
    + rewrite Z.eqb_eq. simpl. split; congruence.
    + rewrite Qeq_bool_iff, <- hashable_float_int.
      change (hashable (CInt x)) with (CInt x). split; intros H; symmetry; exact H.
    + simpl. split; discriminate.
    + simpl. split; discriminate.
    + simpl. split; discriminate.
  - destruct b as [y|q|t|b1 b2|]; simpl cell_eqb.
    + rewrite Qeq_bool_iff. change (hashable (CInt y)) with (CInt y).
      rewrite hashable_float_int. split; intros H; symmetry; exact H.
    + rewrite Qeq_bool_iff. symmetry. apply hashable_float_float.
    + split; [discriminate|]. intros H. exfalso.
      revert H. apply hashable_not_float; discriminate.
    + split; [discriminate|]. intros H. exfalso.
      revert H. apply hashable_not_float; discriminate.
    + split; [discriminate|]. intros H. exfalso.
      revert H. apply hashable_not_float; discriminate.
  - destruct b as [y|q|t|b1 b2|]; simpl cell_eqb; try (simpl; split; discriminate).
    + split; [discriminate|]. intros H. exfalso. symmetry in H.
      revert H. apply hashable_not_float; discriminate.
    + rewrite String.eqb_eq. simpl. split; congruence.
  - destruct b as [y|q|t|b1 b2|]; simpl cell_eqb; try (simpl; split; discriminate).
    + split; [discriminate|]. intros H. exfalso. symmetry in H.
      revert H. apply hashable_not_float; discriminate.
    + rewrite andb_true_iff, IH1, IH2. simpl. split.
      * intros [-> ->]. reflexivity.
      * intros [= -> ->]. split; reflexivity.
  - destruct b as [y|q|t|b1 b2|]; simpl cell_eqb; try (simpl; split; discriminate).
    + split; [discriminate|]. intros H. exfalso. symmetry in H.
      revert H. apply hashable_not_float; discriminate.
    + split; reflexivity.
Qed.

Lemma cell_eqb_refl (a : cell) : cell_eqb a a = true.
Proof. apply cell_eqb_hashable. reflexivity. Qed.

Lemma cell_eqb_sym (a b : cell) : cell_eqb a b = cell_eqb b a.
Proof.
  destruct (cell_eqb a b) eqn:E, (cell_eqb b a) eqn:E'; try reflexivity.
  - apply cell_eqb_hashable in E. symmetry in E. apply cell_eqb_hashable in E. congruence.
  - apply cell_eqb_hashable in E'. symmetry in E'. apply cell_eqb_hashable in E'. congruence.
Qed.

Lemma cell_eqb_trans (a b c : cell) :
  cell_eqb a b = true -> cell_eqb b c = true -> cell_eqb a c = true.
Proof. rewrite !cell_eqb_hashable. congruence. Qed.

(** ** The row pairs of the outer join *)

Lemma positions_of_spec (k : cell) (vs : list cell) (i : nat) :
  i ∈ positions_of k vs <-> exists v, vs !! i = Some v /\ cell_eqb k v = true.
Proof.
  unfold positions_of. rewrite list_elem_of_omap. split.
  - intros ([j v] & Hin & Hsel). simpl in Hsel.
    destruct (cell_eqb k v) eqn:E; [|discriminate]. inversion Hsel; subst.
    apply elem_of_lookup_imap in Hin as (j & w & [= -> ->] & Hj). eauto.
  - intros (v & Hv & E). exists (i, v). split.
    + apply elem_of_lookup_imap. eauto.
    + simpl. rewrite E. reflexivity.
Qed.

Lemma unique_covers (l : list cell) (x : cell) :
  x ∈ l -> exists k, k ∈ unique l /\ cell_eqb k x = true.
Proof.
  induction l as [|y l IH]; intros H; [inversion H|]. simpl.
  apply elem_of_cons in H as [->|H].
  - exists y. split; [left | apply cell_eqb_refl].
  - destruct (IH H) as (k & Hk & E).
    destruct (cell_eqb y k) eqn:Eyk.
    + exists y. split; [left | eapply cell_eqb_trans; eassumption].
    + exists k. split; [|exact E]. right. apply list_elem_of_In, filter_In.
      split; [apply list_elem_of_In, Hk | rewrite Eyk; reflexivity].
Qed.

Lemma pairs_of_key_spec (lkeys rkeys : list cell) (k : cell) (i j : nat) :
  (Some i, Some j) ∈ pairs_of_key lkeys rkeys k
  <-> i ∈ positions_of k lkeys /\ j ∈ positions_of k rkeys.
Proof.
  unfold pairs_of_key.
  destruct (positions_of k lkeys) as [|a ls] eqn:El.
  - split.
    + intros H. apply list_elem_of_In, in_map_iff in H as (? & [=] & _).
    + intros [H _]. inversion H.
  - destruct (positions_of k rkeys) as [|b rs] eqn:Er.
    + split.
      * intros H. apply list_elem_of_In, in_map_iff in H as (? & [=] & _).
      * intros [_ H]. inversion H.
    + rewrite list_elem_of_bind. split.
      * intros (i' & Hin & Hi'). apply list_elem_of_In, in_map_iff in Hin as (j' & [= -> ->] & Hj').
        split; [exact Hi' | apply list_elem_of_In, Hj'].
      * intros [Hi Hj]. exists i. split; [|exact Hi].
        apply list_elem_of_In, in_map_iff. exists j. split; [reflexivity|].
        apply list_elem_of_In, Hj.
Qed.

(** A left row and a right row are paired exactly when their keys are
    equal. *)
Lemma outer_join_indexers_spec (lkeys rkeys : list cell) (i j : nat) :
  (Some i, Some j) ∈ outer_join_indexers lkeys rkeys
  <-> exists a b, lkeys !! i = Some a /\ rkeys !! j = Some b /\ cell_eqb a b = true.
Proof.
  unfold outer_join_indexers. rewrite list_elem_of_bind. split.
  - intros (k & Hin & _). apply pairs_of_key_spec in Hin as [Hi Hj].
    apply positions_of_spec in Hi as (a & Ha & Eka).
    apply positions_of_spec in Hj as (b & Hb & Ekb).
    exists a, b. repeat split; try assumption.
    eapply cell_eqb_trans; [|exact Ekb]. rewrite cell_eqb_sym. exact Eka.
  - intros (a & b & Ha & Hb & E).
    destruct (unique_covers (lkeys ++ rkeys) a) as (k & Hk & Eka).
    { apply elem_of_app. left. apply list_elem_of_lookup. eauto. }
    exists k. split.
    + apply pairs_of_key_spec. split; apply positions_of_spec; eauto.
      exists b. split; [exact Hb | eapply cell_eqb_trans; eassumption].
    + rewrite merge_sort_Permutation. exact Hk.
Qed.

Lemma first_label_spec (names : Series) (first : string) :
  first_label names = Ok first <-> s_values names !! 0%nat = Some (CStr first).
Proof.
  unfold first_label. destruct (s_values names) as [|c rest]; simpl.
  - split; discriminate.
  - destruct c; simpl; split; congruence.
Qed.

(** C10: the parent-side join column is the name in row 0 of the child's
    name column, and nothing else of that column is read.  Whenever the
    merge returns, the numeric coercion was applied to the child's value
    column and the parent column of that first name, the result is the
    outer join of the two coerced frames on these two columns, and a
    parent row and a child row are joined exactly when the parent's value
    in the column of the first name equals the child's value, whatever
    name the child row itself holds. *)
Theorem merge_on_relationship_columns_first_name
    (left_dataset right_dataset : DataFrame) (right_dataset_domain_name : string)
    (column_with_names column_with_values : string) (names : Series) (r : DataFrame) :
  get_column right_dataset column_with_names = Ok names ->
  merge_datasets_on_relationship_columns left_dataset right_dataset
    right_dataset_domain_name column_with_names column_with_values = Ok r ->
  exists first right' left' lkey rkey,
    s_values names !! 0%nat = Some (CStr first)
    /\ cast_numeric_cols_to_same_data_type
         right_dataset column_with_values left_dataset first = (right', left', Ok tt)
    /\ get_column left' first = Ok lkey
    /\ get_column right' column_with_values = Ok rkey
    /\ merge_outer left' right' first column_with_values
         ("." +:+ right_dataset_domain_name) = Ok r
    /\ forall i j,
         (Some i, Some j) ∈ outer_join_indexers (s_values lkey) (s_values rkey)
         <-> exists a b, s_values lkey !! i = Some a /\ s_values rkey !! j = Some b
                         /\ cell_eqb a b = true.
Proof.
  intros Hnames. unfold merge_datasets_on_relationship_columns. rewrite Hnames. simpl.
  destruct (first_label names) as [first|] eqn:Hfirst; simpl; [|discriminate].
  destruct (cast_numeric_cols_to_same_data_type _ _ _ _) as [[right' left'] [[]|e]] eqn:Hcast;
    [|discriminate].
  intros Hmerge. exists first, right', left'.
  assert (Hkeys : exists lkey rkey, get_column left' first = Ok lkey
                                    /\ get_column right' column_with_values = Ok rkey).
  { unfold merge_outer in Hmerge.
    destruct (get_column left' first) as [lkey|]; simpl in Hmerge; [|discriminate].
    destruct (get_column right' column_with_values) as [rkey|]; simpl in Hmerge;
      [|discriminate]. eauto. }
  destruct Hkeys as (lkey & rkey & Hl & Hr). exists lkey, rkey.
  split; [apply first_label_spec, Hfirst|]. split; [exact Hcast|].
  split; [exact Hl|]. split; [exact Hr|]. split; [exact Hmerge|].
  intros i j. apply outer_join_indexers_spec.
Qed.

(** The child row that names ECNUM is joined on ECSEQ, the name of the
    first row: its value 105 meets no ECSEQ, so it stays without a parent
    row although the parent of S2 has ECNUM 105. *)
Example merge_on_relationship_columns_two_names :
  merge_datasets_on_relationship_columns
    nested_parent_example relationship_child_example "SUPPEC" "IDVAR" "IDVARVAL"
  = Ok [("USUBJID", mkSeries object [CStr "S1"; CStr "S2"; CNaN; CStr "S3"]);
        ("ECSEQ", mkSeries float64 [CFloat 100; CFloat 101; CNaN; CFloat 200]);
        ("ECNUM", mkSeries float64 [CFloat 105; CFloat 999; CNaN; CFloat 105]);
        ("USUBJID.SUPPEC", mkSeries object [CStr "S1"; CNaN; CStr "S2"; CStr "S3"]);
        ("IDVAR", mkSeries object [CStr "ECSEQ"; CNaN; CStr "ECNUM"; CStr "ECSEQ"]);
        ("IDVARVAL", mkSeries float64 [CFloat 100; CNaN; CFloat 105; CFloat 200])].
Proof. vm_compute. reflexivity. Qed.

Lemma merge_on_relationship_columns_first_name_witness :
  exists first right' left' lkey rkey,
    s_values (mkSeries object [CStr "ECSEQ"; CStr "ECSEQ"; CStr "ECNUM"]) !! 0%nat
    = Some (CStr first)
    /\ cast_numeric_cols_to_same_data_type
         relationship_child_example "IDVARVAL" nested_parent_example first
       = (right', left', Ok tt)
    /\ get_column left' first = Ok lkey
    /\ get_column right' "IDVARVAL" = Ok rkey
    /\ merge_outer left' right' first "IDVARVAL" ("." +:+ "SUPPEC")
       = Ok [("USUBJID", mkSeries object [CStr "S1"; CStr "S2"; CNaN; CStr "S3"]);
             ("ECSEQ", mkSeries float64 [CFloat 100; CFloat 101; CNaN; CFloat 200]);
             ("ECNUM", mkSeries float64 [CFloat 105; CFloat 999; CNaN; CFloat 105]);
             ("USUBJID.SUPPEC", mkSeries object [CStr "S1"; CNaN; CStr "S2"; CStr "S3"]);
             ("IDVAR", mkSeries object [CStr "ECSEQ"; CNaN; CStr "ECNUM"; CStr "ECSEQ"]);
             ("IDVARVAL", mkSeries float64 [CFloat 100; CNaN; CFloat 105; CFloat 200])]
    /\ forall i j,
         (Some i, Some j) ∈ outer_join_indexers (s_values lkey) (s_values rkey)
         <-> exists a b, s_values lkey !! i = Some a /\ s_values rkey !! j = Some b
                         /\ cell_eqb a b = true.
Proof.
  apply (merge_on_relationship_columns_first_name
           nested_parent_example relationship_child_example "SUPPEC" "IDVAR" "IDVARVAL").
  - reflexivity.
  - vm_compute. reflexivity.
Defined.

(** ** Indirection resolution on the docstring's relationship frame *)

(** C1: on the relationship frame of the docstring (ECSEQ is 100 or 101,
    ECNUM is 105) the result holds the row of S2, whose ECNUM is 999, and
    the row of S3, whose ECSEQ is 200, and the row of S1, which meets both
    groups, twice: each group filters the frame the function was called
    with, and the results are concatenated. *)
Theorem filter_by_nested_columns_concatenates :
  filter_dataset_by_nested_columns_of_other_dataset
    nested_parent_example nested_child_example "IDVAR" "IDVARVAL"
  = Ok [("USUBJID", mkSeries object [CStr "S1"; CStr "S1"; CStr "S3"; CStr "S2"]);
        ("ECSEQ", mkSeries int64 [CInt 100; CInt 100; CInt 200; CInt 101]);
        ("ECNUM", mkSeries int64 [CInt 105; CInt 105; CInt 105; CInt 999])].
Proof. vm_compute. reflexivity. Qed.

(** ** Value counts over a study *)

Lemma NoDup_map_filter {A B : Type} (f : A -> B) (p : A -> bool) (l : list A) :
  NoDup (map f l) -> NoDup (map f (List.filter p l)).
Proof.
  induction l as [|x l IH]; simpl; intros H; [constructor|].
  apply NoDup_cons in H as [Hx Hl]. destruct (p x); simpl; [|apply IH, Hl].
  constructor; [|apply IH, Hl]. intros Hin. apply Hx.
  apply list_elem_of_In, in_map_iff in Hin as (y & Hy & Hin).
  apply filter_In in Hin as [Hin _].
  apply list_elem_of_In, in_map_iff. exists y. auto.
Qed.

(** [unique] leaves one value for every dictionary key. *)
Lemma unique_distinct_keys (l : list cell) : NoDup (map hashable (unique l)).
Proof.
  induction l as [|x l IH]; simpl; [constructor|].
  constructor; [|apply NoDup_map_filter, IH].
  intros Hin. apply list_elem_of_In, in_map_iff in Hin as (y & Hy & Hin).
  apply filter_In in Hin as [_ Hne]. symmetry in Hy.
  apply cell_eqb_hashable in Hy. rewrite Hy in Hne. discriminate.
Qed.

Lemma Counter_of_distinct_keys (l : list cell) (acc : Counter) (k : cell) :
  NoDup (map hashable l) ->
  (forall x, x ∈ l -> acc !! hashable x = None) ->
  foldl (fun m x => <[hashable x := default 0 (m !! hashable x) + 1]> m) acc l !! k
  = if decide (k ∈ map hashable l) then Some 1 else acc !! k.
Proof.
  revert acc. induction l as [|x l IH]; intros acc Hnd Hacc; simpl.
  - destruct (decide (k ∈ [])) as [H|_]; [inversion H | reflexivity].
  - apply NoDup_cons in Hnd as [Hx Hnd].
    rewrite (Hacc x) by left. simpl. rewrite IH; [|exact Hnd|].
    + destruct (decide (k ∈ map hashable l)) as [Hk|Hk].
      * rewrite decide_True by (right; exact Hk). reflexivity.
      * destruct (decide (hashable x = k)) as [<-|Hne].
        -- rewrite lookup_insert_eq, decide_True by left. reflexivity.
        -- rewrite lookup_insert_ne by exact Hne. rewrite decide_False; [reflexivity|].
           intros H. apply elem_of_cons in H as [H|H]; [congruence | contradiction].
    + intros y Hy. rewrite lookup_insert_ne; [apply Hacc; right; exact Hy|].
      intros E. apply Hx. rewrite E. apply list_elem_of_In, in_map, list_elem_of_In, Hy.
Qed.

(** Every count of the counter of one domain is one. *)
Lemma value_count_is_one (target study_path : string) (datasets : list dataset_descriptor)
    (dataset : dataset_descriptor) (data_service : DataService) (c : Counter)
    (k : cell) (n : Z) :
  get_dataset_variable_value_count target study_path datasets dataset data_service = Ok c ->
  c !! k = Some n -> n = 1.
Proof.
  unfold get_dataset_variable_value_count.
  destruct (if is_split_dataset _ _ then _ else _) as [data|]; simpl; [|discriminate].
  destruct (get_column data _) as [column|]; intros [= <-].
  - unfold Counter_of. rewrite Counter_of_distinct_keys.
    + destruct (decide _); [congruence|]. rewrite lookup_empty. discriminate.
    + apply unique_distinct_keys.
    + intros x _. apply lookup_empty.
  - rewrite lookup_empty. discriminate.
Qed.

(** C2: in a study of one domain whose AESEQ column holds 1, 2, 1, the
    count of the value 1 is 1, not 2: the values of a domain are made
    distinct before they are counted, so a domain adds one to the count
    of each of its values, however often the value occurs in it. *)
Theorem variable_value_count_counts_distinct :
  (forall target study_path datasets dataset data_service c k n,
     get_dataset_variable_value_count target study_path datasets dataset data_service
     = Ok c ->
     c !! k = Some n -> n = 1)
  /\
  get_all_study_variable_value_counts "--SEQ" "study" one_domain_service
    [mkDescriptor "AE" "ae.xpt"]
  = Ok {[ CInt 1 := 1; CInt 2 := 1 ]}
  /\ forall key,
       snd (variable_value_count key one_domain_service ∅ one_domain_params)
       = Ok {[ CInt 1 := 1; CInt 2 := 1 ]}.
Proof.
  split; [exact value_count_is_one|]. split.
  - vm_compute. reflexivity.
  - intros key. unfold variable_value_count. simpl.
    unfold cache_get. rewrite lookup_empty. vm_compute. reflexivity.
Qed.

(** ** Study days *)

Lemma datetime_sub_days (a b : datetime) :
  td_days (datetime_sub a b)
  = (datetime_micros a - datetime_micros b) / microseconds_per_day.
Proof.
  unfold datetime_sub, make_timedelta, datetime_micros, microseconds_per_day. simpl.
  set (D := toordinal a - toordinal b).
  set (S := second a + minute a * 60 + hour a * 3600
            - (second b + minute b * 60 + hour b * 3600)).
  set (U := microsecond a - microsecond b).
  replace ((toordinal a * 86400 + hour a * 3600 + minute a * 60 + second a) * 1000000
           + microsecond a
           - ((toordinal b * 86400 + hour b * 3600 + minute b * 60 + second b) * 1000000
              + microsecond b))
    with ((D * 86400 + S) * 1000000 + U) by (unfold D, S, U; ring).
  change 86400000000 with (1000000 * 86400).
  rewrite <- Z.div_div by lia.
  rewrite Z.div_add_l by lia.
  replace (D * 86400 + S + U / 1000000) with (D * 86400 + (S + U / 1000000)) by ring.
  rewrite Z.div_add_l by lia. reflexivity.
Qed.

Lemma study_day_spec (a b : datetime) :
  study_day (datetime_sub a b) = study_day_of (datetime_micros a) (datetime_micros b).
Proof. unfold study_day, study_day_of. rewrite datetime_sub_days. reflexivity. Qed.

Lemma mapM_lookup {A B : Type} (f : A -> result B) (l : list A) (ys : list B)
    (i : nat) (x : A) :
  mapM f l = Ok ys -> l !! i = Some x -> exists y, f x = Ok y /\ ys !! i = Some y.
Proof.
  revert ys i. induction l as [|x0 l IH]; intros ys i; simpl; [discriminate 2|].
  destruct (f x0) as [y0|] eqn:E0; simpl; [|discriminate].
  destruct (mapM f l) as [ys'|] eqn:E; simpl; [|discriminate].
  intros [= <-]. destruct i as [|i]; simpl.
  - intros [= <-]. eauto.
  - intros Hx. apply (IH ys' i eq_refl Hx).
Qed.

Example dy_on_before_after : dy study_day_example = Ok [1; -1; 3].
Proof. reflexivity. Qed.



(** ** Extreme dates *)

Section Extreme.

Variable pick : datetime -> datetime -> datetime.
Variable le : datetime -> datetime -> Prop.
Hypothesis pick_choice : forall a b, pick a b = a \/ pick a b = b.
Hypothesis pick_le_l : forall a b, le (pick a b) a.
Hypothesis pick_le_r : forall a b, le (pick a b) b.
Hypothesis le_refl : forall a, le a a.
Hypothesis le_trans : forall a b c, le a b -> le b c -> le a c.

Lemma extreme_step_none (acc o : option datetime) :
  extreme_step pick acc o = None <-> acc = None /\ o = None.
Proof. destruct acc, o; simpl; split; try intros [? ?]; try discriminate; auto. Qed.

Lemma extreme_fold_none (acc : option datetime) (data : list (option datetime)) :
  foldl (extreme_step pick) acc data = None <-> acc = None /\ Forall (fun o => o = None) data.
Proof.
  revert acc. induction data as [|o data IH]; intros acc; simpl.
  - split; [intros ->; split; [reflexivity | constructor] | intros [-> _]; reflexivity].
  - rewrite IH, extreme_step_none, Forall_cons. tauto.
Qed.

Lemma extreme_fold_some (acc : option datetime) (data : list (option datetime))
    (m : datetime) :
  foldl (extreme_step pick) acc data = Some m ->
  (acc = Some m \/ Some m ∈ data)
  /\ (forall a, acc = Some a -> le m a)
  /\ (forall d, Some d ∈ data -> le m d).
Proof.
  revert acc. induction data as [|o data IH]; intros acc; simpl.
  - intros ->. split; [left; reflexivity|]. split.
    + intros a [= ->]. apply le_refl.
    + intros d H. inversion H.
  - intros H. apply IH in H as (Hin & Hacc & Hdata).
    assert (Hstep : forall x, extreme_step pick acc o = Some x ->
                      (acc = Some x \/ o = Some x)
                      /\ (forall a, acc = Some a -> le x a)
                      /\ (forall d, o = Some d -> le x d)).
    { intros x. destruct acc as [a|], o as [b|]; simpl; intros [= <-].
      - split; [destruct (pick_choice a b) as [->| ->]; auto|].
        split; [intros ? [= <-]; apply pick_le_l | intros ? [= <-]; apply pick_le_r].
      - split; [auto|]. split; [intros ? [= <-]; apply le_refl | discriminate].
      - split; [auto|]. split; [discriminate | intros ? [= <-]; apply le_refl]. }
    split; [|split].
    + destruct Hin as [Hin|Hin]; [|right; right; exact Hin].
      destruct (Hstep m Hin) as ([H|H] & _); [left; exact H | right; rewrite H; left].
    + intros a Ha. destruct (extreme_step pick acc o) as [x|] eqn:Ex.
      * destruct (Hstep x eq_refl) as (_ & Hl & _).
        eapply le_trans; [apply Hacc; reflexivity | apply Hl, Ha].
      * subst acc. destruct o; discriminate.
    + intros d Hd. apply elem_of_cons in Hd as [Hd|Hd]; [|apply Hdata, Hd].
      destruct (extreme_step pick acc o) as [x|] eqn:Ex.
      * destruct (Hstep x eq_refl) as (_ & _ & Hr).
        eapply le_trans; [apply Hacc; reflexivity | apply Hr; symmetry; exact Hd].
      * subst o. destruct acc; discriminate.
Qed.

End Extreme.

Lemma earlier_choice (a b : datetime) : earlier a b = a \/ earlier a b = b.
Proof. unfold earlier. destruct (_ <? _); auto. Qed.

Lemma later_choice (a b : datetime) : later a b = a \/ later a b = b.
Proof. unfold later. destruct (_ <? _); auto. Qed.

Lemma earlier_not_after_l (a b : datetime) : not_after (earlier a b) a.
Proof. unfold not_after, earlier. destruct (Z.ltb_spec (datetime_micros b) (datetime_micros a)); lia. Qed.

Lemma earlier_not_after_r (a b : datetime) : not_after (earlier a b) b.
Proof. unfold not_after, earlier. destruct (Z.ltb_spec (datetime_micros b) (datetime_micros a)); lia. Qed.

Lemma later_not_before_l (a b : datetime) : not_before (later a b) a.
Proof. unfold not_before, later. destruct (Z.ltb_spec (datetime_micros a) (datetime_micros b)); lia. Qed.

Lemma later_not_before_r (a b : datetime) : not_before (later a b) b.
Proof. unfold not_before, later. destruct (Z.ltb_spec (datetime_micros a) (datetime_micros b)); lia. Qed.

Lemma mapM_raises {A B : Type} (f : A -> result B) (l : list A) (x : A) (e : exn) :
  (forall y e', f y = Raise e' -> e' = e) -> x ∈ l -> f x = Raise e ->
  mapM f l = Raise e.
Proof.
  intros Honly Hin Hx. induction l as [|y l IH]; [inversion Hin|]. simpl.
  destruct (f y) as [v|e'] eqn:Ey; simpl.
  - apply elem_of_cons in Hin as [->|Hin]; [congruence|]. rewrite (IH Hin). reflexivity.
  - rewrite (Honly y e' Ey). reflexivity.
Qed.

Lemma mapM_total {A B : Type} (f : A -> result B) (g : A -> B) (l : list A) :
  (forall x, x ∈ l -> f x = Ok (g x)) -> mapM f l = Ok (map g l).
Proof.
  induction l as [|x l IH]; intros H; simpl; [reflexivity|].
  rewrite (H x) by left. simpl. rewrite IH; [reflexivity|].
  intros y Hy. apply H. right. exact Hy.
Qed.

Section DateTheorems.

Variable read_timestamp : cell -> option datetime.
Variable groupby_min groupby_max : DataFrame -> list string -> result DataFrame.

Lemma to_datetime_accepts (column : Series) :
  (forall c, c ∈ s_values column -> is_missing c = true \/ is_Some (read_timestamp c)) ->
  to_datetime read_timestamp column = Ok (map (timestamp_of read_timestamp) (s_values column)).
Proof.
  intros H. unfold to_datetime. apply mapM_total. intros c Hc.
  unfold to_datetime_cell, timestamp_of. destruct (is_missing c) eqn:E; [reflexivity|].
  destruct (H c Hc) as [Hm|[d Hd]]; [congruence|]. rewrite Hd. reflexivity.
Qed.

Lemma to_datetime_refuses (column : Series) (c : cell) :
  c ∈ s_values column -> is_missing c = false -> read_timestamp c = None ->
  to_datetime read_timestamp column = Raise ValueError.
Proof.
  intros Hc Hm Hr. unfold to_datetime. apply (mapM_raises _ _ c); [|exact Hc|].
  - intros y e. unfold to_datetime_cell. destruct (is_missing y); [discriminate|].
    destruct (read_timestamp y); [discriminate|]. congruence.
  - unfold to_datetime_cell. rewrite Hm, Hr. reflexivity.
Qed.

Lemma timestamp_of_elem (vs : list cell) (d : datetime) :
  Some d ∈ map (timestamp_of read_timestamp) vs <->
  exists c, c ∈ vs /\ is_missing c = false /\ read_timestamp c = Some d.
Proof.
  split.
  - intros H. apply list_elem_of_In, in_map_iff in H as (c & Hc & Hin).
    exists c. split; [apply list_elem_of_In, Hin|]. unfold timestamp_of in Hc.
    destruct (is_missing c); [discriminate|]. auto.
  - intros (c & Hin & Hm & Hr). apply list_elem_of_In, in_map_iff. exists c.
    split; [|apply list_elem_of_In, Hin]. unfold timestamp_of. rewrite Hm. exact Hr.
Qed.

Lemma holds_timestamp_elem (column : Series) (d : datetime) :
  Some d ∈ map (timestamp_of read_timestamp) (s_values column)
  <-> holds_timestamp read_timestamp column d.
Proof. apply timestamp_of_elem. Qed.

Lemma no_timestamp_of_missing (column : Series) :
  (forall c, c ∈ s_values column -> is_missing c = true) ->
  Forall (fun o => o = None) (map (timestamp_of read_timestamp) (s_values column)).
Proof.
  intros H. apply Forall_forall. intros o Ho.
  apply list_elem_of_In, in_map_iff in Ho as (c & <- & Hc). unfold timestamp_of.
  rewrite (H c) by (apply list_elem_of_In, Hc). reflexivity.
Qed.

Lemma extreme_of_column (pick : datetime -> datetime -> datetime)
    (le : datetime -> datetime -> Prop) (column : Series) :
  (forall a b, pick a b = a \/ pick a b = b) ->
  (forall a b, le (pick a b) a) -> (forall a b, le (pick a b) b) ->
  (forall a, le a a) -> (forall a b c, le a b -> le b c -> le a c) ->
  (exists c, c ∈ s_values column /\ is_missing c = false /\ is_Some (read_timestamp c)) ->
  exists m, extreme pick (map (timestamp_of read_timestamp) (s_values column)) = Some m
            /\ holds_timestamp read_timestamp column m
            /\ forall d, holds_timestamp read_timestamp column d -> le m d.
Proof.
  intros Hch Hl Hr Hrefl Htrans (c & Hc & Hm & [d Hd]). unfold extreme.
  destruct (foldl _ None _) as [m|] eqn:E.
  - exists m. destruct (extreme_fold_some pick le Hch Hl Hr Hrefl Htrans _ _ _ E)
      as ([Hin|Hin] & _ & Hmin); [discriminate|].
    split; [reflexivity|]. split; [apply holds_timestamp_elem, Hin|].
    intros d' Hd'. apply Hmin, holds_timestamp_elem, Hd'.
  - exfalso. apply extreme_fold_none in E as [_ E].
    rewrite Forall_forall in E.
    assert (Hin : Some d ∈ map (timestamp_of read_timestamp) (s_values column)).
    { apply holds_timestamp_elem. exists c. auto. }
    apply E in Hin. discriminate.
Qed.

Lemma not_after_trans (a b c : datetime) : not_after a b -> not_after b c -> not_after a c.
Proof. unfold not_after. lia. Qed.

Lemma not_before_trans (a b c : datetime) : not_before a b -> not_before b c -> not_before a c.
Proof. unfold not_before. lia. Qed.

End DateTheorems.

(** C6, as stated, fails: a date column whose only value is a text that
    is no date is not answered with the empty text; [to_datetime] raises
    and so do [min_date] and [max_date]. *)
Lemma min_max_date_counterexample :
  iso_reader (CStr "unknown") = None
  /\ min_date iso_reader no_grouped_aggregate unreadable_dates_example = Raise ValueError
  /\ max_date iso_reader no_grouped_aggregate unreadable_dates_example = Raise ValueError
  /\ min_date iso_reader no_grouped_aggregate unreadable_dates_example <> Ok (DateText "").
Proof. repeat split; try reflexivity. discriminate. Qed.

(** C6, amended: without grouping, on a date column whose every value is
    absent [min_date] and [max_date] return the empty text; on a column
    whose values are absent or read as timestamps, at least one of them
    read, they return the ISO-8601 text of the earliest and of the latest
    timestamp; a value that is neither absent nor read as a timestamp
    makes both raise [ValueError]. *)
Theorem min_max_date_absent_or_extreme
    (read_timestamp : cell -> option datetime)
    (groupby_min groupby_max : DataFrame -> list string -> result DataFrame)
    (params : OperationParams) (column : Series) :
  grouping params = [] ->
  get_column (dataframe params) (target params) = Ok column ->
  ((forall c, c ∈ s_values column -> is_missing c = true) ->
   min_date read_timestamp groupby_min params = Ok (DateText "")
   /\ max_date read_timestamp groupby_max params = Ok (DateText ""))
  /\
  ((forall c, c ∈ s_values column -> is_missing c = true \/ is_Some (read_timestamp c)) ->
   (exists c, c ∈ s_values column /\ is_missing c = false) ->
   exists lo hi,
     min_date read_timestamp groupby_min params = Ok (DateText (isoformat lo))
     /\ max_date read_timestamp groupby_max params = Ok (DateText (isoformat hi))
     /\ holds_timestamp read_timestamp column lo
     /\ holds_timestamp read_timestamp column hi
     /\ forall d, holds_timestamp read_timestamp column d ->
          datetime_micros lo <= datetime_micros d <= datetime_micros hi)
  /\
  (forall c, c ∈ s_values column -> is_missing c = false -> read_timestamp c = None ->
   min_date read_timestamp groupby_min params = Raise ValueError
   /\ max_date read_timestamp groupby_max params = Raise ValueError).
Proof.
  intros Hg Hcol. unfold min_date, max_date. rewrite Hg, Hcol. simpl.
  split; [|split].
  - intros Habsent. rewrite to_datetime_accepts by (intros c Hc; left; apply Habsent, Hc).
    simpl. unfold extreme.
    assert (Hnone : forall pick,
              foldl (extreme_step pick) None
                (map (timestamp_of read_timestamp) (s_values column)) = None).
    { intros pick. apply extreme_fold_none. split; [reflexivity|].
      apply no_timestamp_of_missing, Habsent. }
    rewrite !Hnone. split; reflexivity.
  - intros Hread (c & Hc & Hm). rewrite to_datetime_accepts by exact Hread. simpl.
    assert (Hsome : exists c, c ∈ s_values column /\ is_missing c = false
                              /\ is_Some (read_timestamp c)).
    { exists c. destruct (Hread c Hc) as [H|H]; [congruence | auto]. }
    destruct (extreme_of_column read_timestamp earlier not_after column
                earlier_choice earlier_not_after_l earlier_not_after_r
                (fun a => Z.le_refl _) not_after_trans Hsome) as (lo & -> & Hlo & Hmin).
    destruct (extreme_of_column read_timestamp later not_before column
                later_choice later_not_before_l later_not_before_r
                (fun a => Z.le_refl _) not_before_trans Hsome) as (hi & -> & Hhi & Hmax).
    exists lo, hi. repeat split; try assumption.
    + apply Hmin. assumption.
    + apply Hmax. assumption.
  - intros c Hc Hm Hr. rewrite (to_datetime_refuses read_timestamp column c Hc Hm Hr).
    split; reflexivity.
Qed.

Lemma min_max_date_absent_or_extreme_witness :
  (min_date iso_reader no_grouped_aggregate missing_dates_example = Ok (DateText "")
   /\ max_date iso_reader no_grouped_aggregate missing_dates_example = Ok (DateText ""))
  /\ exists lo hi,
       min_date iso_reader no_grouped_aggregate some_dates_example
       = Ok (DateText (isoformat lo))
       /\ max_date iso_reader no_grouped_aggregate some_dates_example
          = Ok (DateText (isoformat hi))
       /\ datetime_micros lo <= datetime_micros hi.
Proof.
  split.
  - apply (min_max_date_absent_or_extreme iso_reader no_grouped_aggregate
             no_grouped_aggregate missing_dates_example
             (mkSeries object [CNaN; CStr ""]) eq_refl eq_refl).
    intros c Hc. simpl in Hc.
    repeat (apply elem_of_cons in Hc as [->|Hc]; [reflexivity|]). inversion Hc.
  - destruct (min_max_date_absent_or_extreme iso_reader no_grouped_aggregate
                no_grouped_aggregate some_dates_example
                (mkSeries object [CStr "2020-03-01"; CNaN; CStr "2020-01-15T10:00:00"])
                eq_refl eq_refl) as (_ & Hextreme & _).
    destruct Hextreme as (lo & hi & Hlo & Hhi & Hin & _ & Hbounds).
    + intros c Hc. simpl in Hc.
      repeat (apply elem_of_cons in Hc as [->|Hc];
              [first [left; reflexivity | right; eexists; reflexivity]|]).
      inversion Hc.
    + exists (CStr "2020-03-01"). split; [left | reflexivity].
    + exists lo, hi. split; [exact Hlo|]. split; [exact Hhi|].
      apply Hbounds in Hin. lia.
Defined.

Example min_max_date_of_some_dates :
  min_date iso_reader no_grouped_aggregate some_dates_example
  = Ok (DateText "2020-01-15T10:00:00")
  /\ max_date iso_reader no_grouped_aggregate some_dates_example
     = Ok (DateText "2020-03-01T00:00:00").
Proof. split; reflexivity. Qed.

(** ** The merge step of the study scans *)

Lemma set_union_all_elem (acc : gset string) (l : list (gset string)) (x : string) :
  x ∈ foldl (fun acc s => acc ∪ s) acc l <-> x ∈ acc \/ exists s, s ∈ l /\ x ∈ s.
Proof.
  revert acc. induction l as [|s l IH]; intros acc; simpl.
  - split; [auto | intros [H|(s & Hs & _)]; [exact H | inversion Hs]].
  - rewrite IH, elem_of_union. split.
    + intros [[H|H]|(t & Ht & Hx)]; [auto| |].
      * right. exists s. split; [left | exact H].
      * right. exists t. split; [right; exact Ht | exact Hx].
    + intros [H|(t & Ht & Hx)]; [auto|].
      apply elem_of_cons in Ht as [->|Ht]; [auto|]. right. exists t. auto.
Qed.

Lemma set_union_all_perm (l l' : list (gset string)) :
  l ≡ₚ l' -> set_union_all l = set_union_all l'.
Proof.
  intros Hp. apply set_eq. intros x. unfold set_union_all.
  rewrite !set_union_all_elem. split; intros [H|(s & Hs & Hx)]; auto; right; exists s;
    (split; [|exact Hx]).
  - rewrite <- Hp. exact Hs.
  - rewrite Hp. exact Hs.
Qed.

Lemma keep_positive_default (n : Z) : default 0 (keep_positive n) = Z.max 0 n.
Proof. unfold keep_positive. destruct (Z.ltb_spec 0 n); simpl; lia. Qed.

Lemma count_add (a b : Counter) (k : cell) :
  count (counter_add a b) k = Z.max 0 (count a k + count b k).
Proof.
  unfold count, counter_add. rewrite lookup_merge.
  destruct (a !! k) as [c|], (b !! k) as [d|]; simpl;
    rewrite ?keep_positive_default, ?Z.add_0_r; reflexivity.
Qed.

Lemma counter_add_positive (a b : Counter) : positive_counts (counter_add a b).
Proof.
  intros k n. unfold counter_add. rewrite lookup_merge.
  assert (H : forall m, keep_positive m = Some n -> 0 < n).
  { intros m. unfold keep_positive. destruct (Z.ltb_spec 0 m); [|discriminate].
    intros [= <-]. assumption. }
  destruct (a !! k) as [c|], (b !! k) as [d|]; simpl; try apply H. discriminate.
Qed.

Lemma empty_positive : positive_counts ∅.
Proof. intros k n. rewrite lookup_empty. discriminate. Qed.

Lemma count_nonneg (c : Counter) (k : cell) : positive_counts c -> 0 <= count c k.
Proof.
  intros H. unfold count. destruct (c !! k) as [n|] eqn:E; simpl; [|lia].
  apply H in E. lia.
Qed.

(** Value-frequency counters with the same counts are the same counter. *)
Lemma positive_counter_eq (a b : Counter) :
  positive_counts a -> positive_counts b -> (forall k, count a k = count b k) -> a = b.
Proof.
  intros Ha Hb H. apply map_eq. intros k. specialize (H k). unfold count in H.
  destruct (a !! k) as [n|] eqn:Ea, (b !! k) as [m|] eqn:Eb; simpl in H.
  - congruence.
  - apply Ha in Ea. lia.
  - apply Hb in Eb. lia.
  - reflexivity.
Qed.

Lemma counter_add_comm (a b : Counter) : counter_add a b = counter_add b a.
Proof.
  apply positive_counter_eq; try apply counter_add_positive.
  intros k. rewrite !count_add. f_equal. apply Z.add_comm.
Qed.

Lemma counter_add_assoc (a b c : Counter) :
  positive_counts a -> positive_counts b -> positive_counts c ->
  counter_add (counter_add a b) c = counter_add a (counter_add b c).
Proof.
  intros Ha Hb Hc. apply positive_counter_eq; try apply counter_add_positive.
  intros k. rewrite !count_add.
  pose proof (count_nonneg a k Ha). pose proof (count_nonneg b k Hb).
  pose proof (count_nonneg c k Hc). lia.
Qed.

Lemma total_count_perm (l l' : list Counter) (k : cell) :
  l ≡ₚ l' -> total_count l k = total_count l' k.
Proof.
  induction 1 as [|c l l' _ IH|c d l|l1 l2 l3 _ IH1 _ IH2]; simpl.
  - reflexivity.
  - rewrite IH. reflexivity.
  - lia.
  - rewrite IH1. exact IH2.
Qed.

Lemma count_foldl_add (acc : Counter) (l : list Counter) (k : cell) :
  positive_counts acc -> Forall positive_counts l ->
  count (foldl counter_add acc l) k = count acc k + total_count l k.
Proof.
  intros Hacc Hl. revert acc Hacc. induction Hl as [|c l Hc _ IH]; intros acc Hacc; simpl.
  - lia.
  - rewrite IH by apply counter_add_positive. rewrite count_add.
    pose proof (count_nonneg acc k Hacc). pose proof (count_nonneg c k Hc). lia.
Qed.

Lemma foldl_add_positive (acc : Counter) (l : list Counter) :
  positive_counts acc -> positive_counts (foldl counter_add acc l).
Proof.
  revert acc. induction l as [|c l IH]; intros acc H; simpl; [exact H|].
  apply IH, counter_add_positive.
Qed.

Lemma counter_sum_perm (l l' : list Counter) :
  Forall positive_counts l -> l ≡ₚ l' -> counter_sum l = counter_sum l'.
Proof.
  intros Hl Hp. assert (Hl' : Forall positive_counts l') by (rewrite <- Hp; exact Hl).
  unfold counter_sum. apply positive_counter_eq;
    try (apply foldl_add_positive, empty_positive).
  intros k. rewrite !count_foldl_add by (assumption || apply empty_positive).
  rewrite (total_count_perm l l' k Hp). reflexivity.
Qed.

Lemma Counter_of_positive (l : list cell) : positive_counts (Counter_of l).
Proof.
  unfold Counter_of. generalize empty_positive. generalize (∅ : Counter).
  induction l as [|x l IH]; intros acc Hacc; simpl; [exact Hacc|].
  apply IH. intros k n. destruct (decide (hashable x = k)) as [->|Hne].
  - rewrite lookup_insert_eq. intros [= <-].
    destruct (acc !! k) as [m|] eqn:E; simpl; [apply Hacc in E|]; lia.
  - rewrite lookup_insert_ne by exact Hne. apply Hacc.
Qed.

Lemma value_count_positive (target study_path : string) (datasets : list dataset_descriptor)
    (dataset : dataset_descriptor) (data_service : DataService) (c : Counter) :
  get_dataset_variable_value_count target study_path datasets dataset data_service = Ok c ->
  positive_counts c.
Proof.
  unfold get_dataset_variable_value_count.
  destruct (if is_split_dataset _ _ then _ else _) as [data|]; simpl; [|discriminate].
  destruct (get_column data _); intros [= <-];
    [apply Counter_of_positive | apply empty_positive].
Qed.

Lemma mapM_Forall {A B : Type} (f : A -> result B) (P : B -> Prop) (l : list A)
    (ys : list B) :
  (forall x y, f x = Ok y -> P y) -> mapM f l = Ok ys -> Forall P ys.
Proof.
  intros H. revert ys. induction l as [|x l IH]; simpl; intros ys.
  - intros [= <-]. constructor.
  - destruct (f x) as [y|] eqn:E; simpl; [|discriminate].
    destruct (mapM f l) as [ys'|]; simpl; [|discriminate].
    intros [= <-]. constructor; [eapply H, E | apply IH; reflexivity].
Qed.

(** C8: the merge step is a commutative and associative reduction.  The
    union of the sets of variable names and the sum of the value-frequency
    counters are the same for every order of the per-domain results, so
    [get_all_study_variables] and [get_all_study_variable_value_counts]
    return the same value whatever order the results of their tasks are
    combined in. *)
Theorem study_merge_order_independent :
  (forall l l' : list (gset string), l ≡ₚ l' -> set_union_all l = set_union_all l')
  /\ (forall a b : Counter, counter_add a b = counter_add b a)
  /\ (forall a b c : Counter,
        positive_counts a -> positive_counts b -> positive_counts c ->
        counter_add (counter_add a b) c = counter_add a (counter_add b c))
  /\ (forall l l' : list Counter,
        Forall positive_counts l -> l ≡ₚ l' -> counter_sum l = counter_sum l')
  /\ (forall study_path data_service datasets results results',
        mapM (fun dataset => get_dataset_variables study_path dataset data_service)
             datasets = Ok results ->
        results' ≡ₚ results ->
        get_all_study_variables study_path data_service datasets
        = Ok (set_union_all results'))
  /\ (forall target study_path data_service datasets results results',
        mapM (fun dataset =>
                get_dataset_variable_value_count target study_path datasets dataset
                  data_service)
             (datasets_with_unique_domains datasets) = Ok results ->
        results' ≡ₚ results ->
        get_all_study_variable_value_counts target study_path data_service datasets
        = Ok (counter_sum results')).
Proof.
  split; [exact set_union_all_perm|]. split; [exact counter_add_comm|].
  split; [exact counter_add_assoc|]. split; [exact counter_sum_perm|]. split.
  - intros study_path data_service datasets results results' Hres Hp.
    unfold get_all_study_variables. rewrite Hres. simpl.
    rewrite (set_union_all_perm _ _ Hp). reflexivity.
  - intros target study_path data_service datasets results results' Hres Hp.
    unfold get_all_study_variable_value_counts. rewrite Hres. simpl.
    rewrite (counter_sum_perm results' results); [reflexivity| |exact Hp].
    rewrite Hp. eapply mapM_Forall; [|exact Hres].
    intros x y. apply value_count_positive.
Qed.

Lemma study_merge_order_independent_witness :
  set_union_all [ {["USUBJID"; "AESEQ"]}; {["USUBJID"; "CMSEQ"]} ]
  = set_union_all [ {["USUBJID"; "CMSEQ"]}; {["USUBJID"; "AESEQ"]} ]
  /\ counter_sum [Counter_of [CInt 1; CInt 2]; Counter_of [CInt 2; CInt 3]]
     = counter_sum [Counter_of [CInt 2; CInt 3]; Counter_of [CInt 1; CInt 2]].
Proof.
  destruct study_merge_order_independent as (Hsets & _ & _ & Hcounters & _). split.
  - apply Hsets. apply Permutation_swap.
  - apply Hcounters.
    + repeat constructor; apply Counter_of_positive.
    + apply Permutation_swap.
Defined.

(** ** Dictionary validity operations: the synthetic column *)

Lemma set_column_fresh (df : DataFrame) (col : string) (s : Series) :
  col ∉ columns df -> set_column df col s = df ++ [(col, s)].
Proof.
  unfold columns. induction df as [|[n s0] df IH]; simpl; intros H; [reflexivity|].
  destruct (String.eqb n col) eqn:E.
  - apply String.eqb_eq in E. subst. exfalso. apply H. left.
  - rewrite IH; [reflexivity|]. intros Hin. apply H. right. exact Hin.
Qed.

Lemma columns_set_column (df : DataFrame) (col : string) (s : Series) :
  columns (set_column df col s)
  = if has_column df col then columns df else columns df ++ [col].
Proof.
  unfold has_column, columns. induction df as [|[n s0] df IH]; simpl; [reflexivity|].
  destruct (String.eqb n col) eqn:E; simpl.
  - apply String.eqb_eq in E. subst. reflexivity.
  - rewrite IH. destruct (is_ok (get_column df col)); reflexivity.
Qed.

Section DictionaryOperations.

Context {Terms : Type}.
Variable MedDRAVariables_value : MedDRAVariables -> string.
Variable TermTypes_value : TermTypes -> string.
Variable get_code_hierarchies get_term_hierarchies : Terms -> gset string.
Variable get_code_term_pairs : Terms -> gmap string (gset cell).
Variable get_meddra_code_term_pairs_cache_key : string -> string.

(** A hierarchy operation that returns has assigned its synthetic column
    and nothing else. *)
Lemma valid_hierarchy_references_frame (build : Terms -> gset string)
    (variables : list MedDRAVariables) (key_prefix suffix : string)
    (self : Processor Terms) (uuid : string) (params : OperationParams)
    (valid : list bool) :
  outcome_result (valid_hierarchy_references MedDRAVariables_value build variables
                    key_prefix suffix self uuid params) = Ok valid ->
  exists s,
    outcome_frame (valid_hierarchy_references MedDRAVariables_value build variables
                     key_prefix suffix self uuid params)
    = set_column (dataframe params) (synthetic_column uuid suffix) s.
Proof.
  unfold valid_hierarchy_references, outcome_result, outcome_frame.
  destruct (given_path params) as [path|]; [|discriminate].
  destruct (load_hierarchies _ _ _ _) as [self' [hs|e]]; [|discriminate].
  destruct (agg_join _ _) as [joined|e]; [|discriminate].
  rewrite get_set_column_eq. simpl. eauto.
Qed.

Lemma valid_code_term_pairs_frame (self : Processor Terms) (uuid : string)
    (params : OperationParams) (valid : list bool) :
  outcome_result (valid_meddra_code_term_pairs MedDRAVariables_value TermTypes_value
                    get_code_term_pairs get_meddra_code_term_pairs_cache_key
                    self uuid params) = Ok valid ->
  exists s,
    outcome_frame (valid_meddra_code_term_pairs MedDRAVariables_value TermTypes_value
                     get_code_term_pairs get_meddra_code_term_pairs_cache_key
                     self uuid params)
    = set_column (dataframe params) (synthetic_column uuid "_pairs") s.
Proof.
  unfold valid_meddra_code_term_pairs, outcome_result, outcome_frame.
  destruct (given_path params) as [path|]; [|discriminate].
  destruct (get_columns_by_meddra_variable_name _ _ _) as [[term_type [cd term]]|];
    [|discriminate].
  destruct (load_pairs _ _ _ _) as [self' [pairs|e]]; [|discriminate].
  destruct (zip_columns _ _ _) as [zipped|e]; [|discriminate].
  rewrite get_set_column_eq. destruct (pairs !! term_type); simpl; eauto.
Qed.

(** C3, amended: a dictionary-validity operation that returns leaves the
    caller's dataset with its previous columns, unchanged and in their
    order, followed by one synthetic column named by the call's unique id
    and the operation's suffix; the operation does not remove it. *)
Theorem dictionary_operation_keeps_synthetic_column
    (self : Processor Terms) (uuid : string) (params : OperationParams)
    (valid : list bool) :
  (synthetic_column uuid "_codes" ∉ columns (dataframe params) ->
   outcome_result (valid_meddra_code_references MedDRAVariables_value
                     get_code_hierarchies self uuid params) = Ok valid ->
   exists s,
     outcome_frame (valid_meddra_code_references MedDRAVariables_value
                      get_code_hierarchies self uuid params)
     = dataframe params ++ [(synthetic_column uuid "_codes", s)])
  /\
  (synthetic_column uuid "_terms" ∉ columns (dataframe params) ->
   outcome_result (valid_meddra_term_references MedDRAVariables_value
                     get_term_hierarchies self uuid params) = Ok valid ->
   exists s,
     outcome_frame (valid_meddra_term_references MedDRAVariables_value
                      get_term_hierarchies self uuid params)
     = dataframe params ++ [(synthetic_column uuid "_terms", s)])
  /\
  (synthetic_column uuid "_pairs" ∉ columns (dataframe params) ->
   outcome_result (valid_meddra_code_term_pairs MedDRAVariables_value TermTypes_value
                     get_code_term_pairs get_meddra_code_term_pairs_cache_key
                     self uuid params) = Ok valid ->
   exists s,
     outcome_frame (valid_meddra_code_term_pairs MedDRAVariables_value TermTypes_value
                      get_code_term_pairs get_meddra_code_term_pairs_cache_key
                      self uuid params)
     = dataframe params ++ [(synthetic_column uuid "_pairs", s)]).
Proof.
  split; [|split]; intros Hfresh Hres.
  - destruct (valid_hierarchy_references_frame _ _ _ _ _ _ _ _ Hres) as [s Hs].
    exists s. unfold valid_meddra_code_references. rewrite Hs.
    apply set_column_fresh, Hfresh.
  - destruct (valid_hierarchy_references_frame _ _ _ _ _ _ _ _ Hres) as [s Hs].
    exists s. unfold valid_meddra_term_references. rewrite Hs.
    apply set_column_fresh, Hfresh.
  - destruct (valid_code_term_pairs_frame _ _ _ _ Hres) as [s Hs].
    exists s. rewrite Hs. apply set_column_fresh, Hfresh.
Qed.

(** A cached index that is not empty is used as it is: nothing is built
    and the cache stays as it was. *)
Lemma load_hierarchies_reuses (build : Terms -> gset string) (self : Processor Terms)
    (cache_key path : string) (hierarchies : gset string) :
  cache self !! cache_key = Some (CachedHierarchies hierarchies) ->
  hierarchies <> ∅ ->
  load_hierarchies build self cache_key path = (self, Ok hierarchies).
Proof.
  intros Hc Hne. unfold load_hierarchies, cache_get. rewrite Hc.
  rewrite bool_decide_eq_false_2 by exact Hne. reflexivity.
Qed.

(** A cached index that is empty is built again. *)
Lemma load_hierarchies_rebuilds (build : Terms -> gset string) (self : Processor Terms)
    (cache_key path : string) (terms : Terms) :
  cache self !! cache_key = Some (CachedHierarchies ∅) ->
  cache self !! path = Some (CachedTerms terms) ->
  load_hierarchies build self cache_key path
  = (mkProcessor (cache_add (cache self) cache_key (CachedHierarchies (build terms)))
       (built self ++ [cache_key]),
     Ok (build terms)).
Proof.
  intros Hc Ht. unfold load_hierarchies, cached_terms, cache_get. rewrite Hc, Ht.
  rewrite bool_decide_eq_true_2 by reflexivity. reflexivity.
Qed.

End DictionaryOperations.

(** C3, as stated, fails: after [valid_meddra_code_references] has
    returned, the caller's frame has a sixth column, the synthetic one. *)
Lemma dictionary_operation_counterexample :
  outcome_result (valid_meddra_code_references variable_name hierarchies_of_list
                    loaded_dictionary_example "6f1c" meddra_params_example)
  = Ok [true; false]
  /\ columns (outcome_frame (valid_meddra_code_references variable_name
                hierarchies_of_list loaded_dictionary_example "6f1c"
                meddra_params_example))
     = columns meddra_frame_example ++ ["6f1c_codes"]
  /\ columns (outcome_frame (valid_meddra_code_references variable_name
                hierarchies_of_list loaded_dictionary_example "6f1c"
                meddra_params_example))
     <> columns (dataframe meddra_params_example).
Proof. split; [reflexivity|]. split; [reflexivity|]. vm_compute. discriminate. Qed.

Lemma dictionary_operation_keeps_synthetic_column_witness :
  exists s,
    outcome_frame (valid_meddra_code_references variable_name hierarchies_of_list
                     loaded_dictionary_example "6f1c" meddra_params_example)
    = meddra_frame_example ++ [("6f1c_codes", s)].
Proof.
  apply (dictionary_operation_keeps_synthetic_column variable_name term_type_name
           hierarchies_of_list hierarchies_of_list (fun _ => ∅) (fun p => p)
           loaded_dictionary_example "6f1c" meddra_params_example [true; false]).
  - vm_compute. intros H. repeat (apply elem_of_cons in H as [H|H]; [discriminate|]).
    inversion H.
  - reflexivity.
Defined.

(** ** Dictionary validity operations: building the index *)

(** C9: with a term tree that holds no term, the second call for the same
    dictionary path builds the code-hierarchy index again although the
    first call stored it in the cache: the stored index is empty, and an
    empty set reads as a cache miss. *)
Theorem empty_index_is_rebuilt :
  let first := valid_meddra_code_references variable_name hierarchies_of_list
                 empty_dictionary_example "6f1c" meddra_params_example in
  let second := valid_meddra_code_references variable_name hierarchies_of_list
                  (outcome_processor first) "77aa" meddra_params_example in
  cache (outcome_processor first) !! "meddra_valid_code_hierarchies_meddra/25.0"
  = Some (CachedHierarchies ∅)
  /\ built (outcome_processor first) = ["meddra_valid_code_hierarchies_meddra/25.0"]
  /\ built (outcome_processor second)
     = ["meddra_valid_code_hierarchies_meddra/25.0";
        "meddra_valid_code_hierarchies_meddra/25.0"].
Proof. vm_compute. repeat split; reflexivity. Qed.

(** * Further properties *)

(** ** The registry of term factories *)

Section TermsFactoryTheorems.

Context {ServiceClass : Type}.
Variable implements_terms_factory : ServiceClass -> bool.

(** X1: a service registered under a name that is not empty, with a class
    that implements the term-factory interface, is what [get_service]
    then builds for that name, with the data service of the asking
    factory; it replaces whatever the name stood for; every other name
    resolves as before. *)
Theorem register_then_get_service
    (registered : gmap string ServiceClass) (name : string) (service : ServiceClass)
    (data_service : DataService) :
  name <> "" ->
  implements_terms_factory service = true ->
  exists registered',
    register_service implements_terms_factory registered name service
    = (registered', Ok tt)
    /\ get_service registered' data_service name
       = Ok (mkTermsFactory service data_service)
    /\ forall other, other <> name ->
         get_service registered' data_service other
         = get_service registered data_service other.
Proof.
  intros Hname Himpl. exists (<[name := service]> registered).
  unfold register_service, get_service.
  apply String.eqb_neq in Hname. rewrite Hname, Himpl. simpl.
  split; [reflexivity|]. split.
  - rewrite lookup_insert_eq. reflexivity.
  - intros other Hother. rewrite lookup_insert_ne by congruence. reflexivity.
Qed.

(** X2: a registration that is refused changes nothing.  An empty name
    raises [ValueError], whatever the class; a class that does not
    implement the interface raises [TypeError]; in both cases the registry
    is the one before, so every name resolves as it did; and
    [get_service] raises [ValueError] exactly for the names that are not
    registered. *)
Theorem refused_registration_changes_nothing
    (registered : gmap string ServiceClass) (name : string) (service : ServiceClass)
    (data_service : DataService) :
  (register_service implements_terms_factory registered "" service
   = (registered, Raise ValueError))
  /\ (name <> "" -> implements_terms_factory service = false ->
      register_service implements_terms_factory registered name service
      = (registered, Raise TypeError))
  /\ (forall e,
        snd (register_service implements_terms_factory registered name service)
        = Raise e ->
        fst (register_service implements_terms_factory registered name service)
        = registered)
  /\ (get_service registered data_service name = Raise ValueError
      <-> registered !! name = None).
Proof.
  unfold register_service, get_service. repeat split.
  - intros Hname Himpl. apply String.eqb_neq in Hname. rewrite Hname, Himpl. reflexivity.
  - intros e. destruct (String.eqb name ""); [reflexivity|].
    destruct (implements_terms_factory service); simpl; [discriminate | reflexivity].
  - destruct (registered !! name); [discriminate | reflexivity].
  - intros ->. reflexivity.
Qed.

End TermsFactoryTheorems.

Lemma register_then_get_service_witness :
  exists registered',
    register_service sample_implements ∅ "loinc" LoincTermsFactory = (registered', Ok tt)
    /\ get_service registered' one_domain_service "loinc"
       = Ok (mkTermsFactory LoincTermsFactory one_domain_service)
    /\ forall other, other <> "loinc" ->
         get_service registered' one_domain_service other
         = get_service ∅ one_domain_service other.
Proof.
  apply (register_then_get_service sample_implements ∅ "loinc" LoincTermsFactory
           one_domain_service).
  - discriminate.
  - reflexivity.
Defined.

Lemma refused_registration_changes_nothing_witness :
  register_service sample_implements ∅ "loinc" NotAFactory = (∅, Raise TypeError).
Proof.
  apply (refused_registration_changes_nothing sample_implements ∅ "loinc" NotAFactory
           one_domain_service).
  - discriminate.
  - reflexivity.
Defined.

(** ** The domain gate *)

Lemma get_column_frame_mask (mask : list bool) (df : DataFrame) (col : string) :
  get_column (frame_mask mask df) col
  = match get_column df col with
    | Ok s => Ok (series_mask mask s)
    | Raise e => Raise e
    end.
Proof.
  induction df as [|[n s] df IH]; simpl; [reflexivity|].
  destruct (String.eqb n col); [reflexivity | exact IH].
Qed.

Lemma frame_mask_again {B : Type} (p : B -> bool) (ts : list B) (df : DataFrame) :
  frame_mask (map p (select_mask (map p ts) ts)) (frame_mask (map p ts) df)
  = frame_mask (map p ts) df.
Proof.
  induction df as [|[n s] df IH]; simpl; [reflexivity|].
  f_equal; [rewrite series_mask_again; reflexivity | exact IH].
Qed.

Lemma select_mask_filter {A : Type} (p : A -> bool) (l : list A) :
  select_mask (map p l) l = List.filter p l.
Proof.
  induction l as [|x l IH]; simpl; [reflexivity|].
  destruct (p x); rewrite IH; reflexivity.
Qed.

Lemma has_column_false (df : DataFrame) (col : string) :
  has_column df col = false -> frame_get df col = mkSeries object [].
Proof.
  unfold has_column, frame_get. destruct (get_column df col); [discriminate | reflexivity].
Qed.

Lemma series_empty_false (s : Series) : s_values s <> [] -> series_empty s = false.
Proof. unfold series_empty. destruct (s_values s); [congruence | reflexivity]. Qed.

Lemma rdomain_gate_idempotent (parent_dataset supp_dataset : DataFrame) :
  filter_parent_dataset_by_supp_dataset_rdomain
    (filter_parent_dataset_by_supp_dataset_rdomain parent_dataset supp_dataset)
    supp_dataset
  = filter_parent_dataset_by_supp_dataset_rdomain parent_dataset supp_dataset.
Proof.
  unfold filter_parent_dataset_by_supp_dataset_rdomain.
  set (rs := frame_get supp_dataset "RDOMAIN").
  destruct (series_empty rs) eqn:Es.
  - rewrite !orb_true_r. reflexivity.
  - rewrite !orb_false_r.
    destruct (series_empty (frame_get parent_dataset "DOMAIN")) eqn:Ep;
      [rewrite Ep; reflexivity|].
    match goal with |- (if ?c then _ else _) = _ => destruct c; [reflexivity|] end.
    unfold frame_get in *. rewrite get_column_frame_mask.
    destruct (get_column parent_dataset "DOMAIN") as [dom|]; [|discriminate].
    unfold series_isin. simpl. apply frame_mask_again.
Qed.

(** X3: the domain gate passes the parent dataset through untouched when
    it has no DOMAIN column or the child has no RDOMAIN column; when both
    columns are there and have rows, the DOMAIN values it keeps are
    exactly the parent's DOMAIN values that are among the child's RDOMAIN
    values; and applying the gate to its own result changes nothing. *)
Theorem rdomain_gate_passes_or_restricts (parent_dataset supp_dataset : DataFrame) :
  (has_column parent_dataset "DOMAIN" = false \/ has_column supp_dataset "RDOMAIN" = false ->
   filter_parent_dataset_by_supp_dataset_rdomain parent_dataset supp_dataset
   = parent_dataset)
  /\ (forall domains rdomains,
        get_column parent_dataset "DOMAIN" = Ok domains ->
        get_column supp_dataset "RDOMAIN" = Ok rdomains ->
        s_values domains <> [] -> s_values rdomains <> [] ->
        exists kept,
          get_column (filter_parent_dataset_by_supp_dataset_rdomain
                        parent_dataset supp_dataset) "DOMAIN" = Ok kept
          /\ forall d, d ∈ s_values kept <->
               d ∈ s_values domains
               /\ exists r, r ∈ s_values rdomains /\ cell_eqb d r = true)
  /\ filter_parent_dataset_by_supp_dataset_rdomain
       (filter_parent_dataset_by_supp_dataset_rdomain parent_dataset supp_dataset)
       supp_dataset
     = filter_parent_dataset_by_supp_dataset_rdomain parent_dataset supp_dataset.
Proof.
  split; [|split; [|apply rdomain_gate_idempotent]].
  - unfold filter_parent_dataset_by_supp_dataset_rdomain.
    intros [H|H]; rewrite (has_column_false _ _ H); simpl;
      rewrite ?orb_true_r; reflexivity.
  - intros domains rdomains Hd Hr Hdne Hrne.
    unfold filter_parent_dataset_by_supp_dataset_rdomain, frame_get.
    rewrite Hd, Hr, !series_empty_false by assumption. simpl orb. cbv iota.
    rewrite get_column_frame_mask, Hd. eexists. split; [reflexivity|].
    intros d. unfold series_mask, series_isin.
    change (s_values (mkSeries ?a ?b)) with b.
    rewrite select_mask_filter, list_elem_of_In, filter_In, <- list_elem_of_In.
    rewrite existsb_exists. split.
    + intros [Hin (r & Hr' & E)]. split; [exact Hin|]. exists r.
      split; [apply list_elem_of_In, Hr' | exact E].
    + intros [Hin (r & Hr' & E)]. split; [exact Hin|]. exists r.
      split; [apply list_elem_of_In, Hr' | exact E].
Qed.

Lemma rdomain_gate_passes_or_restricts_witness :
  filter_parent_dataset_by_supp_dataset_rdomain gate_parent_example
    [("USUBJID", mkSeries object [CStr "S1"])]
  = gate_parent_example
  /\ exists kept,
       get_column (filter_parent_dataset_by_supp_dataset_rdomain
                     gate_parent_example gate_supp_example) "DOMAIN" = Ok kept
       /\ forall d, d ∈ s_values kept <->
            d ∈ [CStr "AE"; CStr "EC"; CStr "AE"]
            /\ exists r, r ∈ [CStr "AE"] /\ cell_eqb d r = true.
Proof.
  split.
  - destruct (rdomain_gate_passes_or_restricts gate_parent_example
                [("USUBJID", mkSeries object [CStr "S1"])]) as (Hpass & _).
    apply Hpass. right. reflexivity.
  - destruct (rdomain_gate_passes_or_restricts gate_parent_example gate_supp_example)
      as (_ & Hrestrict & _).
    apply (Hrestrict (mkSeries object [CStr "AE"; CStr "EC"; CStr "AE"])
             (mkSeries object [CStr "AE"])); try reflexivity; discriminate.
Defined.

Example rdomain_gate_keeps_the_domain :
  filter_parent_dataset_by_supp_dataset_rdomain gate_parent_example gate_supp_example
  = [("DOMAIN", mkSeries object [CStr "AE"; CStr "AE"]);
     ("USUBJID", mkSeries object [CStr "S1"; CStr "S2"])].
Proof. reflexivity. Qed.

(** ** Study days: no day zero *)

Lemma study_day_of_nonzero (t r : Z) : study_day_of t r <> 0.
Proof.
  unfold study_day_of. cbv zeta.
  destruct (Z.ltb_spec ((t - r) / microseconds_per_day) 0); lia.
Qed.

Lemma study_day_of_negative (t r : Z) : study_day_of t r < 0 <-> t < r.
Proof.
  unfold study_day_of, microseconds_per_day. cbv zeta.
  destruct (Z.ltb_spec ((t - r) / 86400000000) 0) as [H|H].
  - split; [|intros _; exact H]. intros _.
    destruct (Z.lt_ge_cases t r) as [Hlt|Hge]; [exact Hlt|].
    assert (0 <= (t - r) / 86400000000) by (apply Z.div_pos; lia). lia.
  - split; [lia|]. intros Hlt.
    assert ((t - r) / 86400000000 < 0) by (apply Z.div_lt_upper_bound; lia). lia.
Qed.

Lemma study_day_of_monotone (t t' r : Z) :
  t <= t' -> study_day_of t r <= study_day_of t' r.
Proof.
  intros Hle. unfold study_day_of, microseconds_per_day. cbv zeta.
  assert (H : (t - r) / 86400000000 <= (t' - r) / 86400000000)
    by (apply Z.div_le_mono; lia).
  destruct (Z.ltb_spec ((t - r) / 86400000000) 0),
           (Z.ltb_spec ((t' - r) / 86400000000) 0); lia.
Qed.

Lemma mapM_elem {A B : Type} (f : A -> result B) (l : list A) (ys : list B) (y : B) :
  mapM f l = Ok ys -> y ∈ ys -> exists x, x ∈ l /\ f x = Ok y.
Proof.
  revert ys. induction l as [|x l IH]; simpl; intros ys.
  - intros [= <-] H. inversion H.
  - destruct (f x) as [y0|] eqn:E; simpl; [|discriminate].
    destruct (mapM f l) as [ys'|]; simpl; [|discriminate].
    intros [= <-] H. apply elem_of_cons in H as [->|H].
    + exists x. split; [left | exact E].
    + destruct (IH ys' eq_refl H) as (x' & Hx' & Hf). exists x'. split; [right|]; assumption.
Qed.

(** X4: there is no study day zero.  Whatever [dy] returns holds no 0; an
    entry is negative exactly when the target timestamp is before the
    reference, and a later target never gets a smaller study day. *)
Theorem dy_has_no_day_zero (params : OperationParams) (delta : list Z) :
  dy params = Ok delta ->
  (forall d, d ∈ delta -> d <> 0)
  /\ (forall ta tb : datetime,
        study_day (datetime_sub ta tb) < 0
        <-> datetime_micros ta < datetime_micros tb)
  /\ (forall ta ta' tb : datetime,
        datetime_micros ta <= datetime_micros ta' ->
        study_day (datetime_sub ta tb) <= study_day (datetime_sub ta' tb)).
Proof.
  intros Hdy. split; [|split].
  - unfold dy in Hdy.
    destruct (get_column (dataframe params) (target params)); simpl in Hdy; [|discriminate].
    destruct (mapM fromisoformat_cell _) as [dts|]; simpl in Hdy; [|discriminate].
    destruct (get_column (dataframe params) "RFSTDTC"); simpl in Hdy; [|discriminate].
    destruct (mapM fromisoformat_cell _) as [rts|]; simpl in Hdy; [|discriminate].
    inversion Hdy; subst delta. intros d Hd.
    apply list_elem_of_lookup in Hd as [i Hi].
    rewrite lookup_zip_with in Hi.
    destruct (dts !! i) as [ta|]; simpl in Hi; [|discriminate].
    destruct (rts !! i) as [tb|]; simpl in Hi; [|discriminate].
    inversion Hi; subst d. rewrite study_day_spec. apply study_day_of_nonzero.
  - intros ta tb. rewrite study_day_spec. apply study_day_of_negative.
  - intros ta ta' tb H. rewrite !study_day_spec. apply study_day_of_monotone, H.
Qed.

Lemma dy_has_no_day_zero_witness : Forall (fun d => d <> 0) [1; -1; 3].
Proof.
  apply Forall_forall.
  apply (dy_has_no_day_zero study_day_example [1; -1; 3]). reflexivity.
Defined.

(** ** Study scans: one task per domain *)

Lemma dict_set_elem (d : list (string * dataset_descriptor)) (k : string)
    (v : dataset_descriptor) (k' : string) (v' : dataset_descriptor) :
  NoDup (map fst d) ->
  (k', v') ∈ dict_set d k v <-> (k' = k /\ v' = v) \/ (k' <> k /\ (k', v') ∈ d).
Proof.
  induction d as [|[k0 v0] d IH]; simpl; intros Hnd.
  - rewrite list_elem_of_singleton. split.
    + intros [= -> ->]. left. auto.
    + intros [[-> ->]|[_ H]]; [reflexivity | inversion H].
  - apply NoDup_cons in Hnd as [Hk0 Hnd]. destruct (String.eqb k0 k) eqn:E.
    + apply String.eqb_eq in E. subst k0. rewrite !elem_of_cons. split.
      * intros [[= -> ->]|H]; [left; auto|]. right. split; [|right; exact H].
        intros ->. apply Hk0. apply list_elem_of_In, in_map_iff. exists (k, v').
        split; [reflexivity | apply list_elem_of_In, H].
      * intros [[-> ->]|[Hne [[= -> ->]|H]]]; [left; reflexivity | congruence | right; exact H].
    + apply String.eqb_neq in E. rewrite !elem_of_cons, (IH Hnd). split.
      * intros [[= -> ->]|[[-> ->]|[Hne H]]]; [right; split; [congruence | left; reflexivity]
                                               | left; auto | right; split; [exact Hne | right; exact H]].
      * intros [[-> ->]|[Hne [[= -> ->]|H]]]; [right; left; auto | left; reflexivity
                                               | right; right; auto].
Qed.

Lemma dict_set_keys (d : list (string * dataset_descriptor)) (k : string)
    (v : dataset_descriptor) :
  map fst (dict_set d k v)
  = if bool_decide (k ∈ map fst d) then map fst d else map fst d ++ [k].
Proof.
  induction d as [|[k0 v0] d IH].
  - case_bool_decide as H; [inversion H | reflexivity].
  - cbn [dict_set]. destruct (String.eqb k0 k) eqn:E.
    + apply String.eqb_eq in E. subst. cbn [map fst].
      rewrite bool_decide_eq_true_2 by left. reflexivity.
    + apply String.eqb_neq in E. cbn [map fst]. rewrite IH.
      case_bool_decide as B.
      * rewrite bool_decide_eq_true_2 by (right; exact B). reflexivity.
      * rewrite bool_decide_eq_false_2; [reflexivity|].
        intros H. apply elem_of_cons in H as [H|H]; [congruence | contradiction].
Qed.

Lemma dict_set_NoDup (d : list (string * dataset_descriptor)) (k : string)
    (v : dataset_descriptor) :
  NoDup (map fst d) -> NoDup (map fst (dict_set d k v)).
Proof.
  intros Hnd. rewrite dict_set_keys. case_bool_decide as B; [exact Hnd|].
  apply NoDup_app. split; [exact Hnd|]. split.
  - intros x Hx Hk. apply list_elem_of_singleton in Hk. subst. contradiction.
  - apply NoDup_singleton.
Qed.

Lemma last_of_domain_snoc (datasets : list dataset_descriptor) (x : dataset_descriptor)
    (domain : string) :
  last_of_domain (datasets ++ [x]) domain
  = if String.eqb (ds_domain x) domain then Some x else last_of_domain datasets domain.
Proof.
  unfold last_of_domain. rewrite List.filter_app. simpl.
  destruct (String.eqb (ds_domain x) domain).
  - apply last_snoc.
  - rewrite app_nil_r. reflexivity.
Qed.

Lemma domain_dict_spec (datasets : list dataset_descriptor) :
  NoDup (map fst (domain_dict datasets))
  /\ (forall k v, (k, v) ∈ domain_dict datasets <-> last_of_domain datasets k = Some v).
Proof.
  unfold domain_dict. induction datasets as [|x l [Hnd Hel]] using rev_ind.
  - simpl. split; [constructor|]. intros k v. split; [intros H; inversion H | discriminate].
  - rewrite foldl_app. simpl. split; [apply dict_set_NoDup, Hnd|].
    intros k v. rewrite (dict_set_elem _ _ _ _ _ Hnd), last_of_domain_snoc, Hel.
    destruct (String.eqb (ds_domain x) k) eqn:E.
    + apply String.eqb_eq in E. split.
      * intros [[_ ->]|[Hne _]]; [reflexivity | congruence].
      * intros [= ->]. left. auto.
    + apply String.eqb_neq in E. split.
      * intros [[-> _]|[_ H]]; [congruence | exact H].
      * intros H. right. split; [congruence | exact H].
Qed.

Lemma last_of_domain_some (datasets : list dataset_descriptor) (k : string)
    (v : dataset_descriptor) :
  last_of_domain datasets k = Some v -> v ∈ datasets /\ ds_domain v = k.
Proof.
  unfold last_of_domain. intros H. apply last_Some in H as [l' H].
  assert (Hin : In v (List.filter (fun d => String.eqb (ds_domain d) k) datasets)).
  { rewrite H. apply in_or_app. right. left. reflexivity. }
  apply filter_In in Hin as [Hin E]. apply String.eqb_eq in E.
  split; [apply list_elem_of_In, Hin | exact E].
Qed.

Lemma last_of_domain_is_some (datasets : list dataset_descriptor) (x : dataset_descriptor) :
  x ∈ datasets -> is_Some (last_of_domain datasets (ds_domain x)).
Proof.
  intros Hin. unfold last_of_domain.
  destruct (List.filter _ datasets) as [|y l] eqn:E using rev_ind.
  - exfalso. assert (H : In x []); [|inversion H].
    rewrite <- E. apply filter_In. split; [apply list_elem_of_In, Hin | apply String.eqb_refl].
  - rewrite last_snoc. eauto.
Qed.

Lemma unique_domains_keys (datasets : list dataset_descriptor) :
  map ds_domain (datasets_with_unique_domains datasets)
  = map fst (domain_dict datasets).
Proof.
  destruct (domain_dict_spec datasets) as [_ Hel].
  unfold datasets_with_unique_domains. fold (domain_dict datasets).
  rewrite map_map. apply map_ext_in. intros [k v] Hin. simpl.
  apply list_elem_of_In, Hel, last_of_domain_some in Hin as [_ H]. exact H.
Qed.

Lemma unique_domains_kept (datasets : list dataset_descriptor)
    (dataset : dataset_descriptor) :
  dataset ∈ datasets_with_unique_domains datasets
  <-> last_of_domain datasets (ds_domain dataset) = Some dataset.
Proof.
  destruct (domain_dict_spec datasets) as [_ Hel].
  unfold datasets_with_unique_domains. fold (domain_dict datasets).
  rewrite list_elem_of_In, in_map_iff. split.
  - intros ([k v] & <- & Hin). simpl. apply list_elem_of_In, Hel in Hin.
    destruct (last_of_domain_some _ _ _ Hin) as [_ <-]. exact Hin.
  - intros H. exists (ds_domain dataset, dataset). split; [reflexivity|].
    apply list_elem_of_In, Hel, H.
Qed.

Lemma unique_domains_cover (datasets : list dataset_descriptor) (domain : string) :
  domain ∈ map ds_domain (datasets_with_unique_domains datasets)
  <-> domain ∈ map ds_domain datasets.
Proof.
  rewrite !list_elem_of_In, !in_map_iff. split.
  - intros (x & <- & Hx).
    apply list_elem_of_In, unique_domains_kept, last_of_domain_some in Hx as [Hx _].
    exists x. split; [reflexivity | apply list_elem_of_In, Hx].
  - intros (x & <- & Hx). apply list_elem_of_In in Hx.
    destruct (last_of_domain_is_some datasets x Hx) as [v Hv].
    exists v. destruct (last_of_domain_some _ _ _ Hv) as [_ Hd].
    split; [exact Hd|]. apply list_elem_of_In, unique_domains_kept. rewrite Hd. exact Hv.
Qed.

Lemma unique_domains_NoDup (datasets : list dataset_descriptor) :
  NoDup (map ds_domain (datasets_with_unique_domains datasets)).
Proof.
  rewrite unique_domains_keys. apply (domain_dict_spec datasets).
Qed.

(** X5: the value-count scan runs one task per distinct domain.  The
    descriptors it keeps have pairwise different domains, every domain of
    the study's dataset list is among them, and the descriptor kept for a
    domain is the last one the list holds for it. *)
Theorem one_task_per_distinct_domain (datasets : list dataset_descriptor) :
  NoDup (map ds_domain (datasets_with_unique_domains datasets))
  /\ (forall domain,
        domain ∈ map ds_domain (datasets_with_unique_domains datasets)
        <-> domain ∈ map ds_domain datasets)
  /\ (forall dataset,
        dataset ∈ datasets_with_unique_domains datasets
        <-> last_of_domain datasets (ds_domain dataset) = Some dataset).
Proof.
  split; [apply unique_domains_NoDup|].
  split; [apply unique_domains_cover | apply unique_domains_kept].
Qed.

(** ** Study scans: what the counts can be *)

Lemma total_count_bound (l : list Counter) (k : cell) :
  Forall (fun c => forall n, c !! k = Some n -> n = 1) l ->
  0 <= total_count l k <= Z.of_nat (length l).
Proof.
  induction 1 as [|c l Hc _ IH]; simpl; [lia|].
  assert (0 <= count c k <= 1).
  { unfold count. destruct (c !! k) as [n|] eqn:E; simpl; [|lia].
    rewrite (Hc n eq_refl). lia. }
  lia.
Qed.

Lemma mapM_ok_length {A B : Type} (f : A -> result B) (l : list A) (ys : list B) :
  mapM f l = Ok ys -> length ys = length l.
Proof.
  revert ys. induction l as [|x l IH]; simpl; intros ys.
  - intros [= <-]. reflexivity.
  - destruct (f x); simpl; [|discriminate].
    destruct (mapM f l) as [ys'|]; simpl; [|discriminate].
    intros [= <-]. simpl. rewrite (IH ys' eq_refl). reflexivity.
Qed.

(** X6: [get_all_study_variable_value_counts] never counts a value more
    often than the study has distinct domains: each domain adds at most
    one to the count of a value, however many rows and files hold it. *)
Theorem value_count_at_most_domains (target study_path : string)
    (data_service : DataService) (datasets : list dataset_descriptor)
    (counts : Counter) (k : cell) :
  get_all_study_variable_value_counts target study_path data_service datasets
  = Ok counts ->
  0 <= count counts k
    <= Z.of_nat (length (remove_dups (map ds_domain datasets))).
Proof.
  unfold get_all_study_variable_value_counts.
  destruct (mapM _ (datasets_with_unique_domains datasets)) as [cs|] eqn:E; simpl;
    [|discriminate].
  intros [= <-].
  assert (Hpos : Forall positive_counts cs).
  { eapply mapM_Forall; [|exact E]. intros x y. apply value_count_positive. }
  assert (Hone : Forall (fun c => forall n, c !! k = Some n -> n = 1) cs).
  { eapply mapM_Forall; [|exact E]. intros x y Hy n. eapply value_count_is_one, Hy. }
  assert (Hlen : length cs = length (remove_dups (map ds_domain datasets))).
  { rewrite (mapM_ok_length _ _ _ E).
    rewrite <- (length_map ds_domain). apply Permutation_length.
    apply NoDup_Permutation; [apply unique_domains_NoDup | apply NoDup_remove_dups|].
    intros d. rewrite unique_domains_cover, elem_of_remove_dups. reflexivity. }
  unfold counter_sum. rewrite count_foldl_add by (assumption || apply empty_positive).
  rewrite <- Hlen. unfold count at 1. rewrite lookup_empty. simpl.
  apply total_count_bound, Hone.
Qed.

Lemma value_count_at_most_domains_witness :
  0 <= count {[ CInt 1 := 1; CInt 2 := 1 ]} (CInt 1)
    <= Z.of_nat (length (remove_dups (map ds_domain [mkDescriptor "AE" "ae.xpt"]))).
Proof.
  apply (value_count_at_most_domains "--SEQ" "study" one_domain_service
           [mkDescriptor "AE" "ae.xpt"]).
  vm_compute. reflexivity.
Defined.

(** ** Study scans: the variables of a study *)

Lemma mapM_some_raises {A B : Type} (f : A -> result B) (l : list A) (x : A) (e : exn) :
  x ∈ l -> f x = Raise e -> exists e', mapM f l = Raise e'.
Proof.
  induction l as [|y l IH]; intros Hin Hx; [inversion Hin|]. simpl.
  destruct (f y) as [v|e'] eqn:Ey; simpl; [|eauto].
  apply elem_of_cons in Hin as [->|Hin]; [congruence|].
  destruct (IH Hin Hx) as [e'' ->]. simpl. eauto.
Qed.

(** X7: [get_all_study_variables] returns the names that are a column of
    some dataset of the study, and it returns nothing when a dataset
    cannot be loaded: the error of the load is raised and no partial set
    comes back. *)
Theorem study_variables_all_or_nothing (study_path : string)
    (data_service : DataService) (datasets : list dataset_descriptor) :
  (forall variables,
     get_all_study_variables study_path data_service datasets = Ok variables ->
     forall x, x ∈ variables <->
       exists dataset data,
         dataset ∈ datasets
         /\ get_dataset data_service (dataset_path study_path dataset) = Ok data
         /\ x ∈ columns data)
  /\ (forall dataset e,
        dataset ∈ datasets ->
        get_dataset data_service (dataset_path study_path dataset) = Raise e ->
        exists e', get_all_study_variables study_path data_service datasets = Raise e').
Proof.
  split.
  - intros variables. unfold get_all_study_variables.
    destruct (mapM _ datasets) as [sets|] eqn:E; simpl; [|discriminate].
    intros [= <-] x. unfold set_union_all. rewrite set_union_all_elem. split.
    + intros [H|(s & Hs & Hx)]; [set_solver|].
      destruct (mapM_elem _ _ _ _ E Hs) as (dataset & Hin & Hd).
      unfold get_dataset_variables in Hd.
      destruct (get_dataset data_service _) as [data|] eqn:Eg; simpl in Hd; [|discriminate].
      inversion Hd; subst s. exists dataset, data.
      split; [exact Hin|]. split; [exact Eg|].
      apply elem_of_list_to_set in Hx. exact Hx.
    + intros (dataset & data & Hin & Hg & Hx). right.
      apply list_elem_of_lookup in Hin as [i Hi].
      destruct (mapM_lookup _ _ _ _ _ E Hi) as (s & Hs & Hsi).
      exists s. split; [apply list_elem_of_lookup; eauto|].
      unfold get_dataset_variables in Hs. rewrite Hg in Hs. simpl in Hs.
      inversion Hs; subst s. apply elem_of_list_to_set. exact Hx.
  - intros dataset e Hin Hg. unfold get_all_study_variables.
    destruct (mapM_some_raises
                (fun dataset => get_dataset_variables study_path dataset data_service)
                datasets dataset e Hin) as [e' ->]; [|simpl; eauto].
    unfold get_dataset_variables. rewrite Hg. reflexivity.
Qed.

Lemma study_variables_all_or_nothing_witness :
  ("AESEQ" ∈ ({["USUBJID"; "AESEQ"]} : gset string) <->
   exists dataset data,
     dataset ∈ [mkDescriptor "AE" "ae.xpt"]
     /\ get_dataset one_domain_service (dataset_path "study" dataset) = Ok data
     /\ "AESEQ" ∈ columns data)
  /\ exists e', get_all_study_variables "study" failing_service
                  [mkDescriptor "AE" "ae.xpt"] = Raise e'.
Proof.
  split.
  - destruct (study_variables_all_or_nothing "study" one_domain_service
                [mkDescriptor "AE" "ae.xpt"]) as [Hall _].
    apply (Hall {["USUBJID"; "AESEQ"]}). vm_compute. reflexivity.
  - destruct (study_variables_all_or_nothing "study" failing_service
                [mkDescriptor "AE" "ae.xpt"]) as [_ Hnothing].
    apply (Hnothing (mkDescriptor "AE" "ae.xpt") KeyError); [left | reflexivity].
Defined.

(** ** The cache of the study value counts *)

Section ValueCountCache.

Variable get_operations_cache_key : string -> string -> string.

(** X8: with the dummy data service the cache is neither read nor
    written: whatever the cache holds, [variable_value_count] returns what
    a scan of the study gives and hands the cache back as it was. *)
Theorem dummy_data_bypasses_cache (data_service : DataService)
    (cache : gmap string Counter) (params : OperationParams) :
  is_dummy data_service = true ->
  variable_value_count get_operations_cache_key data_service cache params
  = (cache,
     get_all_study_variable_value_counts (target params) (directory_path params)
       data_service (datasets params)).
Proof.
  intros Hd. unfold variable_value_count. rewrite Hd. simpl.
  destruct (get_all_study_variable_value_counts _ _ _ _); reflexivity.
Qed.

(** X9: counts that a call has returned and that are not empty are what
    every later call for the same directory and target returns, from the
    cache and without a scan: the answer does not depend on the data
    service of the later call, as long as neither is the dummy one, and
    the cache stays as the first call left it. *)
Theorem value_count_is_cached (data_service later_service : DataService)
    (cache cache' : gmap string Counter) (params : OperationParams) (counts : Counter) :
  is_dummy data_service = false ->
  is_dummy later_service = false ->
  counts <> ∅ ->
  variable_value_count get_operations_cache_key data_service cache params
  = (cache', Ok counts) ->
  variable_value_count get_operations_cache_key later_service cache' params
  = (cache', Ok counts).
Proof.
  intros Hd Hl Hne. unfold variable_value_count. rewrite Hd, Hl. simpl.
  set (key := get_operations_cache_key _ _).
  assert (Hhit : cache' !! key = Some counts ->
                 match cache_get cache' key with
                 | Some c =>
                     if bool_decide (c = ∅) then
                       match get_all_study_variable_value_counts (target params)
                               (directory_path params) later_service (datasets params) with
                       | Ok fresh => (cache_add cache' key fresh, Ok fresh)
                       | Raise e => (cache', Raise e)
                       end
                     else (cache', Ok c)
                 | None =>
                     match get_all_study_variable_value_counts (target params)
                             (directory_path params) later_service (datasets params) with
                     | Ok fresh => (cache_add cache' key fresh, Ok fresh)
                     | Raise e => (cache', Raise e)
                     end
                 end = (cache', Ok counts)).
  { intros H. unfold cache_get. rewrite H.
    rewrite bool_decide_eq_false_2 by exact Hne. reflexivity. }
  unfold cache_get at 1.
  destruct (cache !! key) as [c|] eqn:Ec.
  - case_bool_decide as Hc.
    + destruct (get_all_study_variable_value_counts _ _ data_service _) as [fresh|];
        intros [= <- <-]. apply Hhit. unfold cache_add. apply lookup_insert_eq.
    + intros [= <- <-]. apply Hhit, Ec.
  - destruct (get_all_study_variable_value_counts _ _ data_service _) as [fresh|];
      intros [= <- <-]. apply Hhit. unfold cache_add. apply lookup_insert_eq.
Qed.

End ValueCountCache.

Lemma dummy_data_bypasses_cache_witness :
  variable_value_count operations_key dummy_service
    {[ "operations/study/study_value_count_--SEQ" := {[ CInt 7 := 3 ]} ]}
    one_domain_params
  = ({[ "operations/study/study_value_count_--SEQ" := {[ CInt 7 := 3 ]} ]},
     get_all_study_variable_value_counts "--SEQ" "study" dummy_service
       [mkDescriptor "AE" "ae.xpt"]).
Proof.
  apply (dummy_data_bypasses_cache operations_key dummy_service). reflexivity.
Defined.

Lemma value_count_is_cached_witness :
  variable_value_count operations_key failing_service
    (cache_add ∅ (operations_key "study" "study_value_count_--SEQ")
       {[ CInt 1 := 1; CInt 2 := 1 ]})
    one_domain_params
  = (cache_add ∅ (operations_key "study" "study_value_count_--SEQ")
       {[ CInt 1 := 1; CInt 2 := 1 ]},
     Ok {[ CInt 1 := 1; CInt 2 := 1 ]}).
Proof.
  apply (value_count_is_cached operations_key one_domain_service failing_service ∅).
  - reflexivity.
  - reflexivity.
  - intros H. apply (f_equal (fun m : Counter => m !! CInt 1)) in H.
    vm_compute in H. discriminate H.
  - assert (Hscan : get_all_study_variable_value_counts (target one_domain_params)
                      (directory_path one_domain_params) one_domain_service
                      (datasets one_domain_params)
                    = Ok {[ CInt 1 := 1; CInt 2 := 1 ]}) by (vm_compute; reflexivity).
    unfold variable_value_count, cache_get. cbn [is_dummy one_domain_service negb].
    rewrite lookup_empty, Hscan. reflexivity.
Defined.

(** ** Dictionary operations: an index that is not empty is built once *)

Section IndexBuiltOnce.

Context {Terms : Type}.
Variable MedDRAVariables_value : MedDRAVariables -> string.
Variable build : Terms -> gset string.
Variable variables : list MedDRAVariables.
Variable key_prefix suffix : string.

Let operation := valid_hierarchy_references MedDRAVariables_value build variables
                   key_prefix suffix.

(** The processor a hierarchy operation leaves is the one
    [load_hierarchies] leaves. *)
Lemma hierarchy_operation_processor (self : Processor Terms) (uuid : string)
    (params : OperationParams) (path : string) :
  given_path params = Some path ->
  outcome_processor (operation self uuid params)
  = fst (load_hierarchies build self (key_prefix +:+ path) path).
Proof.
  intros Hp. unfold operation, valid_hierarchy_references, outcome_processor. rewrite Hp.
  destruct (load_hierarchies _ _ _ _) as [self' [valid|e]]; [|reflexivity].
  destruct (agg_join _ _); [|reflexivity]. rewrite get_set_column_eq. reflexivity.
Qed.

Lemma calls_reuse_index (calls : list (string * OperationParams)) :
  forall (self : Processor Terms) (path : string) (hierarchies : gset string),
    cache self !! (key_prefix +:+ path) = Some (CachedHierarchies hierarchies) ->
    hierarchies <> ∅ ->
    (forall call, call ∈ calls -> given_path (snd call) = Some path) ->
    after_calls operation self calls = self.
Proof.
  induction calls as [|[uuid params] calls IH]; intros self path hs Hc Hne Hpath;
    [reflexivity|].
  unfold after_calls. simpl.
  rewrite (hierarchy_operation_processor self uuid params path) by (apply (Hpath (uuid, params)); left).
  rewrite (load_hierarchies_reuses build self _ path hs Hc Hne). simpl.
  apply (IH self path hs Hc Hne). intros call Hin. apply Hpath. right. exact Hin.
Qed.

Lemma index_built_once_general (self : Processor Terms) (path : string) (terms : Terms)
    (calls : list (string * OperationParams)) :
  cache self !! path = Some (CachedTerms terms) ->
  cache self !! (key_prefix +:+ path) = None ->
  build terms <> ∅ ->
  calls <> [] ->
  (forall call, call ∈ calls -> given_path (snd call) = Some path) ->
  built (after_calls operation self calls) = built self ++ [key_prefix +:+ path]
  /\ cache (after_calls operation self calls) !! (key_prefix +:+ path)
     = Some (CachedHierarchies (build terms)).
Proof.
  intros Ht Hk Hne Hcalls Hpath.
  destruct calls as [|[uuid params] calls]; [congruence|].
  unfold after_calls. simpl.
  rewrite (hierarchy_operation_processor self uuid params path)
    by (apply (Hpath (uuid, params)); left).
  assert (Hfirst : fst (load_hierarchies build self (key_prefix +:+ path) path)
                   = mkProcessor
                       (cache_add (cache self) (key_prefix +:+ path)
                          (CachedHierarchies (build terms)))
                       (built self ++ [key_prefix +:+ path])).
  { unfold load_hierarchies, cached_terms, cache_get. rewrite Hk, Ht. reflexivity. }
  rewrite Hfirst. set (self' := mkProcessor _ _).
  assert (Hc : cache self' !! (key_prefix +:+ path) = Some (CachedHierarchies (build terms))).
  { unfold self', cache_add. simpl. apply lookup_insert_eq. }
  fold (after_calls operation self' calls).
  rewrite (calls_reuse_index calls self' path (build terms) Hc Hne).
  - split; [reflexivity | exact Hc].
  - intros call Hin. apply Hpath. right. exact Hin.
Qed.

End IndexBuiltOnce.

(** X10: an index that is not empty is built once.  When the term tree
    of a dictionary path is in the cache and its code-hierarchy index (its
    term-hierarchy index) is not empty, any sequence of calls of
    [valid_meddra_code_references] ([valid_meddra_term_references]) for
    that path, failing or not, builds the index in the first call only and
    leaves it in the cache under the operation's key. *)
Theorem nonempty_index_built_once {Terms : Type}
    (MedDRAVariables_value : MedDRAVariables -> string)
    (get_code_hierarchies get_term_hierarchies : Terms -> gset string)
    (self : Processor Terms) (path : string) (terms : Terms)
    (calls : list (string * OperationParams)) :
  cache self !! path = Some (CachedTerms terms) ->
  calls <> [] ->
  (forall call, call ∈ calls -> given_path (snd call) = Some path) ->
  (cache self !! ("meddra_valid_code_hierarchies_" +:+ path) = None ->
   get_code_hierarchies terms <> ∅ ->
   built (after_calls (valid_meddra_code_references MedDRAVariables_value
                         get_code_hierarchies) self calls)
   = built self ++ ["meddra_valid_code_hierarchies_" +:+ path]
   /\ cache (after_calls (valid_meddra_code_references MedDRAVariables_value
                            get_code_hierarchies) self calls)
        !! ("meddra_valid_code_hierarchies_" +:+ path)
      = Some (CachedHierarchies (get_code_hierarchies terms)))
  /\
  (cache self !! ("meddra_valid_term_hierarchies_" +:+ path) = None ->
   get_term_hierarchies terms <> ∅ ->
   built (after_calls (valid_meddra_term_references MedDRAVariables_value
                         get_term_hierarchies) self calls)
   = built self ++ ["meddra_valid_term_hierarchies_" +:+ path]
   /\ cache (after_calls (valid_meddra_term_references MedDRAVariables_value
                            get_term_hierarchies) self calls)
        !! ("meddra_valid_term_hierarchies_" +:+ path)
      = Some (CachedHierarchies (get_term_hierarchies terms))).
Proof.
  intros Ht Hcalls Hpath. split; intros Hk Hne.
  - apply (index_built_once_general MedDRAVariables_value get_code_hierarchies
             [SOCCD; HLGTCD; HLTCD; PTCD; LLTCD] "meddra_valid_code_hierarchies_" "_codes"
             self path terms calls Ht Hk Hne Hcalls Hpath).
  - apply (index_built_once_general MedDRAVariables_value get_term_hierarchies
             [SOC; HLGT; HLT; DECOD; LLT] "meddra_valid_term_hierarchies_" "_terms"
             self path terms calls Ht Hk Hne Hcalls Hpath).
Qed.

Lemma nonempty_index_built_once_witness :
  built (after_calls (valid_meddra_code_references variable_name hierarchies_of_list)
           loaded_dictionary_example
           [("6f1c", meddra_params_example); ("77aa", meddra_params_example)])
  = built loaded_dictionary_example ++ ["meddra_valid_code_hierarchies_" +:+ "meddra/25.0"]
  /\ cache (after_calls (valid_meddra_code_references variable_name hierarchies_of_list)
              loaded_dictionary_example
              [("6f1c", meddra_params_example); ("77aa", meddra_params_example)])
       !! ("meddra_valid_code_hierarchies_" +:+ "meddra/25.0")
     = Some (CachedHierarchies (hierarchies_of_list ["10/20/30/40/50"])).
Proof.
  apply (nonempty_index_built_once variable_name hierarchies_of_list hierarchies_of_list
           loaded_dictionary_example "meddra/25.0" ["10/20/30/40/50"]
           [("6f1c", meddra_params_example); ("77aa", meddra_params_example)]).
  - reflexivity.
  - discriminate.
  - intros call Hin.
    repeat (apply elem_of_cons in Hin as [->|Hin]; [reflexivity|]). inversion Hin.
  - vm_compute. reflexivity.
  - intros H. apply (f_equal (fun s : gset string => bool_decide ("10/20/30/40/50" ∈ s))) in H.
    vm_compute in H. discriminate H.
Defined.

(** ** Dictionary operations: what a failing call leaves behind *)

Section FailingDictionaryCalls.

Context {Terms : Type}.
Variable MedDRAVariables_value : MedDRAVariables -> string.
Variable TermTypes_value : TermTypes -> string.
Variable get_code_hierarchies get_term_hierarchies : Terms -> gset string.
Variable get_code_term_pairs : Terms -> gmap string (gset cell).
Variable get_meddra_code_term_pairs_cache_key : string -> string.

Lemma hierarchy_operation_raise (build : Terms -> gset string)
    (variables : list MedDRAVariables) (key_prefix suffix : string)
    (self : Processor Terms) (uuid : string) (params : OperationParams) (e : exn) :
  outcome_result (valid_hierarchy_references MedDRAVariables_value build variables
                    key_prefix suffix self uuid params) = Raise e ->
  outcome_frame (valid_hierarchy_references MedDRAVariables_value build variables
                   key_prefix suffix self uuid params) = dataframe params.
Proof.
  unfold valid_hierarchy_references, outcome_result, outcome_frame.
  destruct (given_path params) as [path|]; [|reflexivity].
  destruct (load_hierarchies _ _ _ _) as [self' [hs|e']]; [|reflexivity].
  destruct (agg_join _ _) as [joined|e']; [|reflexivity].
  rewrite get_set_column_eq. discriminate.
Qed.

Lemma hierarchy_operation_no_path (build : Terms -> gset string)
    (variables : list MedDRAVariables) (key_prefix suffix : string)
    (self : Processor Terms) (uuid : string) (params : OperationParams) :
  given_path params = None ->
  valid_hierarchy_references MedDRAVariables_value build variables
    key_prefix suffix self uuid params = (self, dataframe params, Raise ValueError).
Proof. intros H. unfold valid_hierarchy_references. rewrite H. reflexivity. Qed.

(** X11: a dictionary operation that is called without a dictionary path
    raises [ValueError] and touches neither the cache nor the dataset; a
    hierarchy operation that raises, for whatever reason, leaves the
    caller's dataset as it was; the pair operation that raises leaves the
    dataset as it was or, when it raises [KeyError], with the synthetic
    column already assigned. *)
Theorem failing_dictionary_call (self : Processor Terms) (uuid : string)
    (params : OperationParams) :
  (given_path params = None ->
   valid_meddra_code_references MedDRAVariables_value get_code_hierarchies
     self uuid params = (self, dataframe params, Raise ValueError)
   /\ valid_meddra_term_references MedDRAVariables_value get_term_hierarchies
        self uuid params = (self, dataframe params, Raise ValueError)
   /\ valid_meddra_code_term_pairs MedDRAVariables_value TermTypes_value
        get_code_term_pairs get_meddra_code_term_pairs_cache_key self uuid params
      = (self, dataframe params, Raise ValueError))
  /\ (forall e,
        outcome_result (valid_meddra_code_references MedDRAVariables_value
                          get_code_hierarchies self uuid params) = Raise e ->
        outcome_frame (valid_meddra_code_references MedDRAVariables_value
                         get_code_hierarchies self uuid params) = dataframe params)
  /\ (forall e,
        outcome_result (valid_meddra_term_references MedDRAVariables_value
                          get_term_hierarchies self uuid params) = Raise e ->
        outcome_frame (valid_meddra_term_references MedDRAVariables_value
                         get_term_hierarchies self uuid params) = dataframe params)
  /\ (forall e,
        outcome_result (valid_meddra_code_term_pairs MedDRAVariables_value
                          TermTypes_value get_code_term_pairs
                          get_meddra_code_term_pairs_cache_key self uuid params)
        = Raise e ->
        outcome_frame (valid_meddra_code_term_pairs MedDRAVariables_value
                         TermTypes_value get_code_term_pairs
                         get_meddra_code_term_pairs_cache_key self uuid params)
        = dataframe params
        \/ (e = KeyError
            /\ exists s,
                 outcome_frame (valid_meddra_code_term_pairs MedDRAVariables_value
                                  TermTypes_value get_code_term_pairs
                                  get_meddra_code_term_pairs_cache_key self uuid params)
                 = set_column (dataframe params) (synthetic_column uuid "_pairs") s)).
Proof.
  split; [|split; [|split]].
  - intros Hp. split; [|split].
    + apply hierarchy_operation_no_path, Hp.
    + apply hierarchy_operation_no_path, Hp.
    + unfold valid_meddra_code_term_pairs. rewrite Hp. reflexivity.
  - intros e. apply hierarchy_operation_raise.
  - intros e. apply hierarchy_operation_raise.
  - intros e. unfold valid_meddra_code_term_pairs, outcome_result, outcome_frame.
    destruct (given_path params) as [path|]; [|left; reflexivity].
    destruct (get_columns_by_meddra_variable_name _ _ _) as [[term_type [cd term]]|];
      [|left; reflexivity].
    destruct (load_pairs _ _ _ _) as [self' [pairs|e']]; [|left; reflexivity].
    destruct (zip_columns _ _ _) as [zipped|e']; [|left; reflexivity].
    rewrite get_set_column_eq. destruct (pairs !! term_type); simpl; [discriminate|].
    intros [= <-]. right. split; [reflexivity | eauto].
Qed.

End FailingDictionaryCalls.

(** ** The level and the columns of a MedDRA variable *)

Lemma list_find_here {A : Type} (P : A -> Prop) `{forall x, Decision (P x)}
    (x : A) (l : list A) :
  P x -> list_find P (x :: l) = Some (0%nat, x).
Proof. intros Hx. simpl. rewrite decide_True by exact Hx. reflexivity. Qed.

Lemma list_find_later {A : Type} (P : A -> Prop) `{forall x, Decision (P x)}
    (x : A) (l : list A) (i : nat) (y : A) :
  ~ P x -> list_find P l = Some (i, y) -> list_find P (x :: l) = Some (S i, y).
Proof. intros Hx Hl. simpl. rewrite decide_False by exact Hx. rewrite Hl. reflexivity. Qed.

Section VariablePairMap.

Variable MedDRAVariables_value : MedDRAVariables -> string.
Variable TermTypes_value : TermTypes -> string.
Hypothesis value_inj : forall a b,
  MedDRAVariables_value a = MedDRAVariables_value b -> a = b.

Lemma variable_name_inj (params : OperationParams) (a b : MedDRAVariables) :
  domain params +:+ MedDRAVariables_value a = domain params +:+ MedDRAVariables_value b ->
  a = b.
Proof. intros H. apply value_inj. exact (String.app_inj _ _ _ H). Qed.

Lemma pair_map_keys (params : OperationParams) :
  map fst (variable_pair_map MedDRAVariables_value TermTypes_value params)
  = map (fun v => domain params +:+ MedDRAVariables_value v)
        [SOC; SOCCD; HLGT; HLGTCD; HLT; HLTCD; DECOD; PTCD; LLT; LLTCD].
Proof. reflexivity. Qed.

Lemma pair_map_lookup (params : OperationParams) (level : TermTypes) (v : MedDRAVariables) :
  v = fst (level_variables level) \/ v = snd (level_variables level) ->
  target params = domain params +:+ MedDRAVariables_value v ->
  get_columns_by_meddra_variable_name MedDRAVariables_value TermTypes_value params
  = Some (pair_map_entry MedDRAVariables_value TermTypes_value params level).
Proof.
  intros Hv Ht. unfold get_columns_by_meddra_variable_name.
  assert (Hfind : exists i,
    list_find (fun e => fst e = target params)
      (reverse (variable_pair_map MedDRAVariables_value TermTypes_value params))
    = Some (i, (domain params +:+ MedDRAVariables_value v,
                pair_map_entry MedDRAVariables_value TermTypes_value params level))).
  { rewrite Ht.
    destruct level; simpl in Hv; destruct Hv as [-> | ->];
      match goal with
      | |- context [list_find _ ?l] =>
          let l' := eval cbv [reverse rev_append variable_pair_map] in l in
          change l with l'
      end;
      eexists;
      repeat first
        [ apply list_find_here; reflexivity
        | apply list_find_later;
          [ cbn [fst]; intros Heq; apply variable_name_inj in Heq; discriminate Heq | ] ]. }
  destruct Hfind as [i ->]. reflexivity.
Qed.

Lemma pair_map_unknown (params : OperationParams) :
  (forall v, target params <> domain params +:+ MedDRAVariables_value v) ->
  get_columns_by_meddra_variable_name MedDRAVariables_value TermTypes_value params = None.
Proof.
  intros Hne. unfold get_columns_by_meddra_variable_name.
  assert (Hnone : list_find (fun e => fst e = target params)
      (reverse (variable_pair_map MedDRAVariables_value TermTypes_value params)) = None).
  { apply list_find_None, Forall_forall. intros e He Heq.
    apply elem_of_reverse in He.
    assert (Hk : fst e ∈ map fst
              (variable_pair_map MedDRAVariables_value TermTypes_value params)).
    { apply list_elem_of_fmap. eauto. }
    rewrite pair_map_keys in Hk. apply list_elem_of_fmap in Hk as (v & Hv & _).
    apply (Hne v). congruence. }
  rewrite Hnone. reflexivity.
Qed.

(** X12: when the enumeration gives the ten MedDRA variables ten
    different names, the code variable and the display variable of a
    hierarchy level both resolve to that level with its code column and
    its term column; a target that is none of the ten names resolves to
    nothing, and the pair operation then raises [TypeError] with the cache
    and the dataset untouched. *)
Theorem meddra_variable_resolves_to_its_level {Terms : Type}
    (get_code_term_pairs : Terms -> gmap string (gset cell))
    (get_meddra_code_term_pairs_cache_key : string -> string)
    (params : OperationParams) :
  (forall level v,
     v = fst (level_variables level) \/ v = snd (level_variables level) ->
     target params = domain params +:+ MedDRAVariables_value v ->
     get_columns_by_meddra_variable_name MedDRAVariables_value TermTypes_value params
     = Some (pair_map_entry MedDRAVariables_value TermTypes_value params level))
  /\ ((forall v, target params <> domain params +:+ MedDRAVariables_value v) ->
      get_columns_by_meddra_variable_name MedDRAVariables_value TermTypes_value params
      = None
      /\ forall (self : Processor Terms) uuid path,
           given_path params = Some path ->
           valid_meddra_code_term_pairs MedDRAVariables_value TermTypes_value
             get_code_term_pairs get_meddra_code_term_pairs_cache_key self uuid params
           = (self, dataframe params, Raise TypeError)).
Proof.
  split.
  - intros level v. apply pair_map_lookup.
  - intros Hne. pose proof (pair_map_unknown params Hne) as Hnone.
    split; [exact Hnone|]. intros self uuid path Hp.
    unfold valid_meddra_code_term_pairs. rewrite Hp, Hnone. reflexivity.
Qed.

End VariablePairMap.

Lemma meddra_variable_resolves_to_its_level_witness :
  get_columns_by_meddra_variable_name variable_name term_type_name meddra_params_example
  = Some ("pt", ("AEPTCD", "AEDECOD")).
Proof.
  destruct (meddra_variable_resolves_to_its_level variable_name term_type_name
              ltac:(intros [] []; simpl; congruence)
              (Terms := list string) (fun _ => ∅) (fun path => path)
              meddra_params_example) as [Hsome _].
  apply (Hsome TermPT PTCD); [left; reflexivity | reflexivity].
Defined.

(** ** The outer join keeps the rows of both frames *)

Lemma length_omap_le {A B : Type} (f : A -> option B) (l : list A) :
  (length (omap f l) <= length l)%nat.
Proof.
  unfold omap. induction l as [|x l IH]; simpl; [lia|]. destruct (f x); simpl; lia.
Qed.

Lemma sorted_keys_cover (lkeys rkeys : list cell) (a : cell) :
  a ∈ lkeys ++ rkeys ->
  exists k, k ∈ merge_sort cell_le (unique (lkeys ++ rkeys)) /\ cell_eqb k a = true.
Proof.
  intros Hin. destruct (unique_covers _ _ Hin) as (k & Hk & E).
  exists k. split; [|exact E]. rewrite merge_sort_Permutation. exact Hk.
Qed.

Lemma outer_join_covers_left (lkeys rkeys : list cell) (i : nat) :
  (i < length lkeys)%nat ->
  exists o, (Some i, o) ∈ outer_join_indexers lkeys rkeys.
Proof.
  intros Hi. destruct (lookup_lt_is_Some_2 lkeys i Hi) as [a Ha].
  destruct (sorted_keys_cover lkeys rkeys a) as (k & Hk & E).
  { apply elem_of_app. left. apply list_elem_of_lookup. eauto. }
  assert (Hpos : i ∈ positions_of k lkeys) by (apply positions_of_spec; eauto).
  unfold outer_join_indexers.
  destruct (positions_of k rkeys) as [|j rs] eqn:Er.
  - exists None. apply list_elem_of_bind. exists k. split; [|exact Hk].
    unfold pairs_of_key. rewrite Er.
    destruct (positions_of k lkeys) as [|i0 ls] eqn:El; [inversion Hpos|].
    apply list_elem_of_fmap. exists i. split; [reflexivity | exact Hpos].
  - exists (Some j). apply list_elem_of_bind. exists k. split; [|exact Hk].
    apply pairs_of_key_spec. split; [exact Hpos|]. rewrite Er. left.
Qed.

Lemma outer_join_covers_right (lkeys rkeys : list cell) (j : nat) :
  (j < length rkeys)%nat ->
  exists o, (o, Some j) ∈ outer_join_indexers lkeys rkeys.
Proof.
  intros Hj. destruct (lookup_lt_is_Some_2 rkeys j Hj) as [b Hb].
  destruct (sorted_keys_cover lkeys rkeys b) as (k & Hk & E).
  { apply elem_of_app. right. apply list_elem_of_lookup. eauto. }
  assert (Hpos : j ∈ positions_of k rkeys) by (apply positions_of_spec; eauto).
  unfold outer_join_indexers.
  destruct (positions_of k lkeys) as [|i ls] eqn:El.
  - exists None. apply list_elem_of_bind. exists k. split; [|exact Hk].
    unfold pairs_of_key. rewrite El.
    apply list_elem_of_fmap. exists j. split; [reflexivity | exact Hpos].
  - exists (Some i). apply list_elem_of_bind. exists k. split; [|exact Hk].
    apply pairs_of_key_spec. split; [|exact Hpos]. rewrite El. left.
Qed.

Lemma covered_positions_length {A : Type} (f : A -> option nat) (l : list A) (n : nat) :
  (forall i, (i < n)%nat -> exists x, x ∈ l /\ f x = Some i) ->
  (n <= length l)%nat.
Proof.
  intros Hcov.
  assert (Hsub : seq 0 n ⊆+ omap f l).
  { apply NoDup_submseteq; [apply NoDup_seq|].
    intros i Hi. apply elem_of_seq in Hi. apply list_elem_of_omap.
    apply Hcov. lia. }
  apply submseteq_length in Hsub. rewrite length_seq in Hsub.
  pose proof (length_omap_le f l). lia.
Qed.

Lemma outer_join_length (lkeys rkeys : list cell) :
  (length lkeys <= length (outer_join_indexers lkeys rkeys))%nat
  /\ (length rkeys <= length (outer_join_indexers lkeys rkeys))%nat.
Proof.
  split.
  - apply (covered_positions_length fst). intros i Hi.
    destruct (outer_join_covers_left lkeys rkeys i Hi) as [o Ho]. eauto.
  - apply (covered_positions_length snd). intros j Hj.
    destruct (outer_join_covers_right lkeys rkeys j Hj) as [o Ho]. eauto.
Qed.

Lemma take_opt_length (idx : list (option nat)) (s : Series) :
  length (s_values (take_opt idx s)) = length idx.
Proof.
  unfold take_opt. destruct (s_dtype s); [destruct (forallb _ idx)| |];
    simpl; rewrite ?length_map; reflexivity.
Qed.

Lemma merge_outer_rows (left right : DataFrame) (left_on right_on suffix : string)
    (merged : DataFrame) :
  merge_outer left right left_on right_on suffix = Ok merged ->
  exists lkey rkey,
    get_column left left_on = Ok lkey /\ get_column right right_on = Ok rkey
    /\ Forall (fun c => length (s_values (snd c))
                        = length (outer_join_indexers (s_values lkey) (s_values rkey)))
              merged.
Proof.
  unfold merge_outer.
  destruct (get_column left left_on) as [lkey|]; simpl; [|discriminate].
  destruct (get_column right right_on) as [rkey|]; simpl; [|discriminate].
  destruct (negb (keys_mergeable lkey rkey)); [discriminate|].
  intros [= <-]. exists lkey, rkey. split; [reflexivity|]. split; [reflexivity|].
  apply Forall_app. split; apply Forall_forall; intros c Hc;
    apply list_elem_of_fmap in Hc as (c0 & -> & _).
  - destruct (String.eqb left_on right_on && String.eqb (fst c0) left_on); simpl.
    + rewrite length_map. reflexivity.
    + rewrite take_opt_length, length_map. reflexivity.
  - simpl. rewrite take_opt_length, length_map. reflexivity.
Qed.

Lemma astype_float_length (s s' : Series) :
  astype_float s = Ok s' -> length (s_values s') = length (s_values s).
Proof.
  unfold astype_float.
  destruct (mapM cell_to_float (s_values s)) as [vs|] eqn:E; simpl; [|discriminate].
  intros [= <-]. simpl. apply (mapM_ok_length _ _ _ E).
Qed.

(** The coercion changes no row count: the two columns it may convert
    keep their lengths. *)
Lemma cast_numeric_cols_lengths (left_dataset right_dataset left' right' : DataFrame)
    (lname rname : string) :
  cast_numeric_cols_to_same_data_type left_dataset lname right_dataset rname
  = (left', right', Ok tt) ->
  exists lcol rcol lcol' rcol',
    get_column left_dataset lname = Ok lcol /\ get_column right_dataset rname = Ok rcol
    /\ get_column left' lname = Ok lcol' /\ get_column right' rname = Ok rcol'
    /\ length (s_values lcol') = length (s_values lcol)
    /\ length (s_values rcol') = length (s_values rcol).
Proof.
  unfold cast_numeric_cols_to_same_data_type.
  destruct (get_column left_dataset lname) as [lcol|] eqn:El; [|discriminate].
  destruct (get_column right_dataset rname) as [rcol|] eqn:Er; [|discriminate].
  destruct (column_contains_numeric lcol && column_contains_numeric rcol).
  - destruct (astype_float rcol) as [rcol'|] eqn:Ar; [|discriminate].
    destruct (astype_float lcol) as [lcol'|] eqn:Al; [|discriminate].
    intros [= <- <-]. exists lcol, rcol, lcol', rcol'.
    rewrite !get_set_column_eq.
    repeat split; try reflexivity; apply astype_float_length; assumption.
  - intros [= <- <-]. exists lcol, rcol, lcol, rcol. repeat split; assumption.
Qed.

(** The outer join of the two frames the coercion leaves: every column
    of the result has one length, and that length is at least the length
    of either join column before the coercion. *)
Lemma cast_then_merge_rows (left_dataset right_dataset left' right' : DataFrame)
    (first column_with_values suffix : string) (merged : DataFrame) :
  cast_numeric_cols_to_same_data_type right_dataset column_with_values left_dataset first
  = (right', left', Ok tt) ->
  merge_outer left' right' first column_with_values suffix = Ok merged ->
  exists parent_keys child_values rows,
    get_column left_dataset first = Ok parent_keys
    /\ get_column right_dataset column_with_values = Ok child_values
    /\ Forall (fun c => length (s_values (snd c)) = rows) merged
    /\ (length (s_values parent_keys) <= rows)%nat
    /\ (length (s_values child_values) <= rows)%nat.
Proof.
  intros Hcast Hmerge.
  destruct (cast_numeric_cols_lengths _ _ _ _ _ _ Hcast)
    as (rcol & lcol & rcol' & lcol' & Hr & Hl & Hr' & Hl' & Hlr & Hll).
  destruct (merge_outer_rows _ _ _ _ _ _ Hmerge) as (lkey & rkey & Hlk & Hrk & Hrows).
  rewrite Hl' in Hlk. rewrite Hr' in Hrk. injection Hlk as <-. injection Hrk as <-.
  exists lcol, rcol,
    (length (outer_join_indexers (s_values lcol') (s_values rcol'))).
  split; [exact Hl|]. split; [exact Hr|]. split; [exact Hrows|].
  rewrite <- Hlr, <- Hll. apply outer_join_length.
Qed.





(** The child row that names ECNUM meets no parent on the first name,
    ECSEQ, and is kept without one; a descriptor without a domain name
    gives the suffix [.None]. *)
Example merge_relationship_datasets_without_name :
  (do merged <- merge_relationship_datasets
                  nested_parent_example ["USUBJID"] relationship_child_example ["USUBJID"]
                  (mkRelationshipDomain None (Some ("IDVAR", "IDVARVAL")));
   Ok (columns merged))
  = Ok ["USUBJID"; "ECSEQ"; "ECNUM"; "USUBJID.None"; "IDVAR"; "IDVARVAL"].
Proof. vm_compute. reflexivity. Qed.

(** ** What the match-key filter returns *)

Lemma get_column_app (a b : DataFrame) (n : string) :
  get_column (a ++ b) n
  = match get_column a n with
    | Ok s => Ok s
    | Raise _ => get_column b n
    end.
Proof.
  induction a as [|[k s] a IH]; simpl; [reflexivity|].
  destruct (String.eqb k n); [reflexivity | exact IH].
Qed.

Lemma set_index_levels (df : DataFrame) (keys : list string) (f : IndexedFrame) :
  set_index df keys = Ok f ->
  mapM (fun k => do s <- get_column df k; Ok (k, s)) keys = Ok (ix_levels f)
  /\ ix_body f = List.filter (outside_keys keys) df.
Proof.
  unfold set_index. destruct keys as [|k keys]; [discriminate|].
  destruct (mapM _ (k :: keys)) as [levels|] eqn:E; simpl; [|discriminate].
  intros [= <-]. split; reflexivity.
Qed.

Lemma levels_columns (df : DataFrame) (keys : list string)
    (levels : list (string * Series)) :
  mapM (fun k => do s <- get_column df k; Ok (k, s)) keys = Ok levels ->
  mapM (get_column df) keys = Ok (map snd levels).
Proof.
  revert levels. induction keys as [|k keys IH]; simpl; intros levels H.
  - inversion H. reflexivity.
  - destruct (get_column df k) as [s|]; simpl in *; [|discriminate].
    destruct (mapM _ keys) as [rest|]; simpl in H; [|discriminate].
    inversion H; subst. rewrite (IH rest eq_refl). reflexivity.
Qed.

Lemma levels_get_column (df : DataFrame) (keys : list string)
    (levels : list (string * Series)) (n : string) :
  mapM (fun k => do s <- get_column df k; Ok (k, s)) keys = Ok levels ->
  get_column levels n
  = if existsb (String.eqb n) keys then get_column df n else Raise KeyError.
Proof.
  revert levels. induction keys as [|k keys IH]; simpl; intros levels H.
  - inversion H. reflexivity.
  - destruct (get_column df k) as [s|] eqn:Ek; simpl in H; [|discriminate].
    destruct (mapM _ keys) as [rest|]; simpl in H; [|discriminate].
    inversion H; subst. simpl. rewrite (String.eqb_sym n k).
    destruct (String.eqb k n) eqn:E; simpl.
    + apply String.eqb_eq in E. subst. symmetry. exact Ek.
    + apply IH. reflexivity.
Qed.

Lemma get_column_filter_outside (keys : list string) (df : DataFrame) (n : string) :
  existsb (String.eqb n) keys = false ->
  get_column (List.filter (outside_keys keys) df) n = get_column df n.
Proof.
  intros Hn. induction df as [|[k s] df IH]; simpl; [reflexivity|].
  unfold outside_keys at 1. simpl.
  destruct (String.eqb k n) eqn:E.
  - apply String.eqb_eq in E. subst. rewrite Hn. simpl.
    rewrite String.eqb_refl. reflexivity.
  - destruct (existsb (String.eqb k) keys); simpl; [exact IH|].
    rewrite E. exact IH.
Qed.

Lemma columns_filter_outside_keys (keys : list string) (df : DataFrame) :
  columns (List.filter (outside_keys keys) df)
  = List.filter (fun n => negb (existsb (String.eqb n) keys)) (columns df).
Proof.
  unfold columns. induction df as [|[k s] df IH]; simpl; [reflexivity|].
  unfold outside_keys at 1. simpl.
  destruct (existsb (String.eqb k) keys); simpl; rewrite IH; reflexivity.
Qed.

Lemma get_column_map_mask (mask : list bool) (levels : list (string * Series))
    (n : string) :
  get_column (map (fun l => (fst l, series_mask mask (snd l))) levels) n
  = match get_column levels n with
    | Ok s => Ok (series_mask mask s)
    | Raise e => Raise e
    end.
Proof.
  induction levels as [|[k s] levels IH]; simpl; [reflexivity|].
  destruct (String.eqb k n); [reflexivity | exact IH].
Qed.

(** X15: when the match-key filter returns, the match keys are named
    once each and have become the leading columns of the result, in the
    order given, followed by the other columns in their order; every
    column is the dataset's column of that name restricted to the rows
    whose key tuple occurs among the key tuples of the other dataset. *)
Theorem filter_by_match_keys_result (dataset other_dataset : DataFrame)
    (dataset_match_keys other_dataset_match_keys : list string) (r : DataFrame) :
  filter_dataset_by_match_keys_of_other_dataset
    dataset dataset_match_keys other_dataset other_dataset_match_keys = Ok r ->
  exists key_columns other_key_columns,
    mapM (get_column dataset) dataset_match_keys = Ok key_columns
    /\ mapM (get_column other_dataset) other_dataset_match_keys = Ok other_key_columns
    /\ NoDup dataset_match_keys
    /\ columns r
       = dataset_match_keys
         ++ List.filter (fun n => negb (existsb (String.eqb n) dataset_match_keys))
              (columns dataset)
    /\ forall n,
         get_column r n
         = do s <- get_column dataset n;
           Ok (series_mask
                 (map (fun t => existsb (tuple_eqb t)
                                  (index_tuples (map s_values other_key_columns)))
                      (index_tuples (map s_values key_columns)))
                 s).
Proof.
  unfold filter_dataset_by_match_keys_of_other_dataset.
  destruct (set_index dataset dataset_match_keys) as [f|] eqn:Hset; simpl; [|discriminate].
  destruct (set_index other_dataset other_dataset_match_keys) as [g|] eqn:Hset';
    simpl; [|discriminate].
  intros Hreset. unfold reset_index in Hreset.
  apply insert_levels_ok in Hreset as (-> & Hnd & _).
  pose proof (set_index_ok _ _ _ Hset) as (_ & Hnames & _).
  apply set_index_levels in Hset as [Hlevels Hbody].
  apply set_index_levels in Hset' as [Hlevels' _].
  exists (map snd (ix_levels f)), (map snd (ix_levels g)).
  split; [apply levels_columns, Hlevels|]. split; [apply levels_columns, Hlevels'|].
  rewrite level_names_mask, Hnames in Hnd. split; [exact Hnd|].
  assert (Hmask : index_isin f g
                  = map (fun t => existsb (tuple_eqb t)
                                    (index_tuples (map s_values (map snd (ix_levels g)))))
                        (index_tuples (map s_values (map snd (ix_levels f))))).
  { unfold index_isin, index_values. rewrite !map_map. reflexivity. }
  rewrite <- Hmask. split.
  - unfold columns. rewrite map_app. fold (columns (ix_body (indexed_mask (index_isin f g) f))).
    rewrite level_names_mask, Hnames. simpl ix_body.
    rewrite columns_frame_mask, Hbody, columns_filter_outside_keys. reflexivity.
  - intros n. rewrite get_column_app. simpl ix_levels. simpl ix_body.
    rewrite get_column_map_mask, (levels_get_column _ _ _ n Hlevels).
    destruct (existsb (String.eqb n) dataset_match_keys) eqn:En.
    + destruct (get_column dataset n) as [s|e] eqn:Eg; [reflexivity|]. exfalso.
      apply existsb_eqb_spec in En.
      destruct (mapM_some_raises (get_column dataset) _ n e En Eg) as [e' He'].
      rewrite (levels_columns _ _ _ Hlevels) in He'. discriminate.
    + rewrite get_column_frame_mask, Hbody, get_column_filter_outside by exact En.
      destruct (get_column dataset n); reflexivity.
Qed.

Lemma filter_by_match_keys_result_witness :
  exists key_columns other_key_columns,
    mapM (get_column match_parent_example) ["USUBJID"; "DOMAIN"] = Ok key_columns
    /\ mapM (get_column match_other_example) ["USUBJID"; "DOMAIN"] = Ok other_key_columns
    /\ NoDup ["USUBJID"; "DOMAIN"]
    /\ columns [("USUBJID", mkSeries object [CStr "CDISC009"]);
                ("DOMAIN", mkSeries object [CStr "AE"])]
       = ["USUBJID"; "DOMAIN"]
         ++ List.filter (fun n => negb (existsb (String.eqb n) ["USUBJID"; "DOMAIN"]))
              (columns match_parent_example)
    /\ forall n,
         get_column [("USUBJID", mkSeries object [CStr "CDISC009"]);
                     ("DOMAIN", mkSeries object [CStr "AE"])] n
         = do s <- get_column match_parent_example n;
           Ok (series_mask
                 (map (fun t => existsb (tuple_eqb t)
                                  (index_tuples (map s_values other_key_columns)))
                      (index_tuples (map s_values key_columns)))
                 s).
Proof.
  apply (filter_by_match_keys_result match_parent_example match_other_example
           ["USUBJID"; "DOMAIN"] ["USUBJID"; "DOMAIN"]).
  vm_compute. reflexivity.
Defined.

Lemma set_index_keys_present (df : DataFrame) (keys : list string) (f : IndexedFrame) :
  set_index df keys = Ok f -> forall k, k ∈ keys -> k ∈ columns df.
Proof.
  intros Hset k Hk. apply set_index_levels in Hset as [Hlevels _].
  apply levels_columns in Hlevels. apply has_column_spec. unfold has_column.
  destruct (get_column df k) as [s|e] eqn:Eg; [reflexivity|].
  destruct (mapM_some_raises (get_column df) _ k e Hk Eg) as [e' He'].
  rewrite Hlevels in He'. discriminate.
Qed.


(** ** The numeric coercion, applied again *)

Lemma decimal_value_reduced (sign : Z) (mf : Z * nat) :
  Qred (decimal_value sign mf) = decimal_value sign mf.
Proof. unfold decimal_value. apply Qred_involutive. Qed.

Lemma float_of_string_reduced (s : string) (q : Q) :
  float_of_string s = Some q -> Qred q = q.
Proof.
  unfold float_of_string. destruct s as [|c s']; [discriminate|].
  destruct (Ascii.eqb c "-"); [|destruct (Ascii.eqb c "+")];
    intros H; apply fmap_Some in H as (mf & _ & ->); apply decimal_value_reduced.
Qed.

Lemma cell_to_float_float (q : Q) : cell_to_float (CFloat q) = Ok (CFloat (Qred q)).
Proof. reflexivity. Qed.

Lemma cell_to_float_int (z : Z) :
  cell_to_float (CInt z) = Ok (CFloat (Qred (inject_Z z))).
Proof. reflexivity. Qed.

(** A converted cell converts to itself. *)
Lemma cell_to_float_fixed (c c' : cell) :
  cell_to_float c = Ok c' -> cell_to_float c' = Ok c'.
Proof.
  destruct c as [z|q|s|a b|].
  - rewrite cell_to_float_int. intros [= <-].
    rewrite cell_to_float_float, Qred_involutive. reflexivity.
  - rewrite cell_to_float_float. intros [= <-].
    rewrite cell_to_float_float, Qred_involutive. reflexivity.
  - unfold cell_to_float at 1. destruct (float_of_string s) as [q|] eqn:E; [|discriminate].
    intros [= <-]. rewrite cell_to_float_float, (float_of_string_reduced s q E).
    reflexivity.
  - discriminate.
  - intros [= <-]. reflexivity.
Qed.

Lemma mapM_fixed {A : Type} (f : A -> result A) (l l' : list A) :
  (forall x y, f x = Ok y -> f y = Ok y) -> mapM f l = Ok l' -> mapM f l' = Ok l'.
Proof.
  intros Hfix. revert l'. induction l as [|x l IH]; simpl; intros l'.
  - intros [= <-]. reflexivity.
  - destruct (f x) as [y|] eqn:Ex; simpl; [|discriminate].
    destruct (mapM f l) as [ys|]; simpl; [|discriminate].
    intros [= <-]. simpl. rewrite (Hfix x y Ex). simpl.
    rewrite (IH ys eq_refl). reflexivity.
Qed.

Lemma astype_float_fixed (s s' : Series) :
  astype_float s = Ok s' ->
  astype_float s' = Ok s' /\ column_contains_numeric s' = true.
Proof.
  unfold astype_float.
  destruct (mapM cell_to_float (s_values s)) as [vs|] eqn:E; simpl; [|discriminate].
  intros [= <-]. simpl.
  rewrite (mapM_fixed cell_to_float _ _ cell_to_float_fixed E). split; reflexivity.
Qed.

Lemma set_column_again (df : DataFrame) (col : string) (s : Series) :
  set_column (set_column df col s) col s = set_column df col s.
Proof.
  induction df as [|[n s0] df IH]; simpl.
  - rewrite String.eqb_refl. reflexivity.
  - destruct (String.eqb n col) eqn:E; simpl; rewrite E; [reflexivity|].
    rewrite IH. reflexivity.
Qed.

Lemma get_set_column_ne (df : DataFrame) (col n : string) (s : Series) :
  n <> col -> get_column (set_column df col s) n = get_column df n.
Proof.
  intros Hne. induction df as [|[k s0] df IH]; simpl.
  - apply String.eqb_neq in Hne. rewrite String.eqb_sym, Hne. reflexivity.
  - destruct (String.eqb k col) eqn:E; simpl.
    + apply String.eqb_eq in E. subst k.
      assert (En : String.eqb col n = false) by (apply String.eqb_neq; congruence).
      rewrite En. reflexivity.
    + destruct (String.eqb k n); [reflexivity | exact IH].
Qed.

Lemma columns_set_existing (df : DataFrame) (col : string) (s0 s : Series) :
  get_column df col = Ok s0 -> columns (set_column df col s) = columns df.
Proof.
  intros H. rewrite columns_set_column. unfold has_column. rewrite H. reflexivity.
Qed.

(** X17: the coercion of the two join columns can be repeated: on the
    frames a successful call leaves behind, a second call succeeds and
    changes nothing.  A successful call keeps the names and the order of
    the columns of both frames and touches no column but the two it was
    given. *)
Theorem cast_numeric_cols_settles
    (left_dataset right_dataset left' right' : DataFrame)
    (left_dataset_column right_dataset_column : string) :
  cast_numeric_cols_to_same_data_type
    left_dataset left_dataset_column right_dataset right_dataset_column
  = (left', right', Ok tt) ->
  cast_numeric_cols_to_same_data_type
    left' left_dataset_column right' right_dataset_column
  = (left', right', Ok tt)
  /\ columns left' = columns left_dataset
  /\ columns right' = columns right_dataset
  /\ (forall n, n <> left_dataset_column ->
        get_column left' n = get_column left_dataset n)
  /\ (forall n, n <> right_dataset_column ->
        get_column right' n = get_column right_dataset n).
Proof.
  unfold cast_numeric_cols_to_same_data_type at 1.
  destruct (get_column left_dataset left_dataset_column) as [lcol|] eqn:El;
    [|discriminate].
  destruct (get_column right_dataset right_dataset_column) as [rcol|] eqn:Er;
    [|discriminate].
  destruct (column_contains_numeric lcol && column_contains_numeric rcol) eqn:Enum.
  - destruct (astype_float rcol) as [rcol'|] eqn:Ar; [|discriminate].
    destruct (astype_float lcol) as [lcol'|] eqn:Al; [|discriminate].
    intros [= <- <-].
    destruct (astype_float_fixed _ _ Al) as [Al' Hl'].
    destruct (astype_float_fixed _ _ Ar) as [Ar' Hr'].
    split; [|split; [|split; [|split]]].
    + unfold cast_numeric_cols_to_same_data_type.
      rewrite !get_set_column_eq, Hl', Hr', Ar', Al', !set_column_again. reflexivity.
    + eapply columns_set_existing, El.
    + eapply columns_set_existing, Er.
    + intros n Hn. apply get_set_column_ne, Hn.
    + intros n Hn. apply get_set_column_ne, Hn.
  - intros [= <- <-]. split; [|repeat split; reflexivity].
    unfold cast_numeric_cols_to_same_data_type. rewrite El, Er, Enum. reflexivity.
Qed.

Lemma cast_numeric_cols_settles_witness :
  cast_numeric_cols_to_same_data_type
    [("AESEQ", mkSeries float64 [CFloat (3 # 2); CFloat 2])] "AESEQ"
    [("IDVARVAL", mkSeries float64 [CFloat 1; CFloat 2])] "IDVARVAL"
  = ([("AESEQ", mkSeries float64 [CFloat (3 # 2); CFloat 2])],
     [("IDVARVAL", mkSeries float64 [CFloat 1; CFloat 2])], Ok tt).
Proof.
  destruct (cast_numeric_cols_settles
              numeric_text_example numeric_int_example
              [("AESEQ", mkSeries float64 [CFloat (3 # 2); CFloat 2])]
              [("IDVARVAL", mkSeries float64 [CFloat 1; CFloat 2])]
              "AESEQ" "IDVARVAL") as [Hagain _].
  - vm_compute. reflexivity.
  - exact Hagain.
Defined.

(** ** Distinct values and the unique record *)

Lemma unique_subset (l : list cell) (x : cell) : x ∈ unique l -> x ∈ l.
Proof.
  revert x. induction l as [|y l IH]; simpl; intros x H; [exact H|].
  apply elem_of_cons in H as [->|H]; [left|].
  right. apply IH. apply list_elem_of_In in H. apply filter_In in H as [H _].
  apply list_elem_of_In, H.
Qed.

Lemma unique_keys (l : list cell) (k : cell) :
  k ∈ (list_to_set (map hashable (unique l)) : gset cell)
  <-> exists c, c ∈ l /\ hashable c = k.
Proof.
  rewrite elem_of_list_to_set. split.
  - intros H. apply list_elem_of_fmap in H as (u & -> & Hu).
    exists u. split; [apply unique_subset, Hu | reflexivity].
  - intros (c & Hc & <-). destruct (unique_covers l c Hc) as (u & Hu & E).
    apply cell_eqb_hashable in E. rewrite <- E.
    apply list_elem_of_fmap. exists u. split; [reflexivity | exact Hu].
Qed.



Lemma row_at_names (df : DataFrame) (i : nat) :
  (forall c, c ∈ df -> (i < length (s_values (snd c)))%nat) ->
  map fst (row_at df i) = columns df.
Proof.
  unfold row_at, columns, omap. induction df as [|c df IH]; intros H; [reflexivity|].
  simpl. destruct (lookup_lt_is_Some_2 (s_values (snd c)) i) as [v Hv].
  { apply H. left. }
  rewrite Hv. simpl. f_equal. apply IH. intros c' Hc'. apply H. right. exact Hc'.
Qed.

Lemma row_at_cells (df : DataFrame) (i : nat) (n : string) (v : cell) :
  (n, v) ∈ row_at df i <-> exists s, (n, s) ∈ df /\ s_values s !! i = Some v.
Proof.
  unfold row_at. rewrite list_elem_of_omap. split.
  - intros ([k s] & Hin & Hv). simpl in Hv.
    destruct (s_values s !! i) as [w|] eqn:E; [|discriminate].
    injection Hv as -> ->. eauto.
  - intros (s & Hin & Hv). exists (n, s). split; [exact Hin|]. simpl.
    rewrite Hv. reflexivity.
Qed.

(** X19: on a dataset whose columns all have the same length,
    [get_unique_record] returns a record exactly when the dataset has one
    row, and the record then names the columns in their order and holds
    the cell of row 0 of each; a dataset of more rows raises
    [InvalidMatchKeyError], and an empty one raises [IndexError]. *)
Theorem unique_record_of_one_row (df : DataFrame) :
  rectangular df ->
  match get_unique_record df with
  | inl record =>
      n_rows df = 1%nat /\ map fst record = columns df
      /\ forall n v, (n, v) ∈ record
                     <-> exists s, (n, s) ∈ df /\ s_values s = [v]
  | inr InvalidMatchKeyError => (1 < n_rows df)%nat
  | inr IndexError => n_rows df = 0%nat
  | inr (BuiltIn _) => False
  end.
Proof.
  intros Hrect. unfold get_unique_record.
  destruct (1 <? n_rows df)%nat eqn:Emany; [apply Nat.ltb_lt, Emany|].
  apply Nat.ltb_ge in Emany.
  destruct (n_rows df =? 0)%nat eqn:Enone; [apply Nat.eqb_eq, Enone|].
  apply Nat.eqb_neq in Enone.
  assert (Hone : n_rows df = 1%nat) by lia.
  split; [exact Hone|]. split.
  - apply row_at_names. intros c Hc. rewrite (Hrect c Hc). lia.
  - intros n v. rewrite row_at_cells. split; intros (s & Hin & Hv); exists s;
      (split; [exact Hin|]); pose proof (Hrect _ Hin) as Hlen; simpl in Hlen;
      rewrite Hone in Hlen; destruct (s_values s) as [|w [|w' ws]];
      simpl in *; try discriminate; congruence.
Qed.

Lemma unique_record_of_one_row_witness :
  n_rows one_row_example = 1%nat
  /\ map fst [("USUBJID", CStr "S1"); ("AESEQ", CInt 1)] = columns one_row_example
  /\ forall n v, (n, v) ∈ [("USUBJID", CStr "S1"); ("AESEQ", CInt 1)]
                 <-> exists s, (n, s) ∈ one_row_example /\ s_values s = [v].
Proof.
  apply (unique_record_of_one_row one_row_example).
  intros c Hc. repeat (apply elem_of_cons in Hc as [->|Hc]; [reflexivity|]).
  inversion Hc.
Defined.
